(** * A knowledge-graph memory server: model and verified properties

    The development embeds [server.js], which holds two server classes,
    [CloudMemoryServer] (five tools, MCP transport) and [SimpleMemoryServer]
    (three tools, raw WebSocket transport).  Both keep one in-memory graph,
    rewrite a JSON snapshot file after every mutation and answer searches by
    lower-cased substring matching.

    Conventions of the embedding:
    - a JavaScript string is a [string] whose characters are UTF-16 code
      units in the range U+0000..U+00FF; texts that spell other code units
      are outside the development;
    - a plain JavaScript object used as a map is an association list kept in
      the engine's own-property order, together with the lookups and
      assignments that fall through to its prototype chain;
    - the items of the tool arguments have the types of the tools'
      [inputSchema]; the arguments object and its properties may be absent;
    - [this.memory] is a record while the tools run; [loadMemory] can leave a
      parsed value of any other shape there, and the model of the tools stops
      at such an instance ([Unshaped]);
    - a JSON text can spell a code unit above U+00FF or a number that is no
      integer a double holds exactly; [JSON.parse] is embedded for the other
      texts, and the model stops where the server has read such a text
      ([Unread]);
    - [async] methods are functions of an explicit [world] (memory, snapshot
      file, console, counters of clock readings and file writes) in a small
      exception monad; the clock and the outcome of file operations are read
      from an [oracle];
    - [JSON.stringify] with an indentation of two and [JSON.parse] are
      embedded as functions on texts, so that what is written can be read
      back by computation;
    - the object literals that the list handlers return are kept as JSON
      values; the message callback of the socket is followed on texts that
      do not parse and on texts that parse to a request of the typed shape. *)

From Stdlib Require Import String Ascii List Bool Arith NArith Lia DecimalString.
Import ListNotations.

Set Warnings "-register-all".

Open Scope list_scope.
Open Scope string_scope.

(** ** JavaScript strings *)

Module JS.

Definition dquote : ascii := "034"%char.
Definition backslash : ascii := "\"%char.
Definition newline : ascii := "010"%char.

Definition nl : string := String newline "".
Definition quoted (s : string) : string := String dquote (s ++ String dquote "").

(** [String.prototype.toLowerCase] on one code unit below U+0100: the ASCII
    capitals and the Latin-1 capitals U+00C0..U+00DE (the multiplication sign
    U+00D7 apart) move up by 32. *)
Definition lower_unit (c : ascii) : ascii :=
  let n := nat_of_ascii c in
  if (((65 <=? n) && (n <=? 90)) ||
      ((192 <=? n) && (n <=? 222) && negb (n =? 215)))%nat
  then ascii_of_nat (n + 32)
  else c.

Fixpoint toLowerCase (s : string) : string :=
  match s with
  | "" => ""
  | String c r => String (lower_unit c) (toLowerCase r)
  end.

(** [s.startsWith(p)] *)
Fixpoint startsWith (s p : string) {struct p} : bool :=
  match p, s with
  | "", _ => true
  | String _ _, "" => false
  | String a p', String b s' => Ascii.eqb a b && startsWith s' p'
  end.

(** [s.includes(q)]: [q] occurs in [s] at some position. *)
Fixpoint includes (s q : string) : bool :=
  startsWith s q ||
  match s with
  | "" => false
  | String _ r => includes r q
  end.

(** What [includes] decides. *)
Definition substring_of (q s : string) : Prop :=
  exists a b, s = a ++ q ++ b.

(** Template literals print a length in decimal. *)
Definition decimal (n : nat) : string :=
  NilEmpty.string_of_uint (Nat.to_uint n).

(** [Array.prototype.some] *)
Definition some {A} (f : A -> bool) (l : list A) : bool := existsb f l.

(** *** Own properties of a plain object, in engine order

    An own property key that is an array index (a canonical decimal numeral
    below 2^32 - 1) is listed before every other key, in ascending numeric
    order; the other keys follow in the order of their creation. *)

Definition is_digit (c : ascii) : bool :=
  let n := nat_of_ascii c in ((48 <=? n) && (n <=? 57))%nat.

Fixpoint digits_value (s : string) (acc : N) : option N :=
  match s with
  | "" => Some acc
  | String c r =>
      if is_digit c
      then digits_value r (acc * 10 + (N_of_ascii c - 48))%N
      else None
  end.

(** An array index is a canonical numeric string, one that printing its
    value gives back, with a value below 2^32 - 1. *)
Definition array_index (k : string) : option N :=
  match digits_value k 0 with
  | Some n =>
      if (n <? 4294967295)%N && (NilEmpty.string_of_uint (N.to_uint n) =? k)
      then Some n
      else None
  | None => None
  end.

Section Object.
Context {V : Type}.

Definition object := list (string * V).

Definition keys (o : object) : list string := map fst o.
Definition values (o : object) : list V := map snd o.

(** [Object.prototype.hasOwnProperty] and the own-property lookup. *)
Fixpoint getOwn (k : string) (o : object) : option V :=
  match o with
  | [] => None
  | (k', v) :: t => if String.eqb k k' then Some v else getOwn k t
  end.

Definition hasOwn (k : string) (o : object) : bool :=
  match getOwn k o with Some _ => true | None => false end.

(** Writing an existing own data property keeps its position. *)
Fixpoint replaceOwn (k : string) (v : V) (o : object) : object :=
  match o with
  | [] => []
  | (k', v') :: t =>
      if String.eqb k k' then (k', v) :: t else (k', v') :: replaceOwn k v t
  end.

(** A new index key goes before the first key that is no index or a greater
    one. *)
Fixpoint insertIndex (i : N) (k : string) (v : V) (o : object) : object :=
  match o with
  | [] => [(k, v)]
  | (k', v') :: t =>
      match array_index k' with
      | Some j => if (j <? i)%N then (k', v') :: insertIndex i k v t
                  else (k, v) :: o
      | None => (k, v) :: o
      end
  end.

(** [CreateDataProperty]: what an assignment [o[k] = v] does once it has
    reached the object itself. *)
Definition defineOwn (k : string) (v : V) (o : object) : object :=
  if hasOwn k o then replaceOwn k v o
  else match array_index k with
       | Some i => insertIndex i k v o
       | None => (o ++ [(k, v)])%list
       end.

(** The order the engine keeps: no key twice, index keys first and
    ascending. *)
Definition key_before (k k' : string) : Prop :=
  match array_index k, array_index k' with
  | Some i, Some j => (i < j)%N
  | Some _, None => True
  | None, Some _ => False
  | None, None => True
  end.

Fixpoint ordered (ks : list string) : Prop :=
  match ks with
  | [] => True
  | k :: t => ~ In k t /\ Forall (key_before k) t /\ ordered t
  end.
End Object.

Arguments object V : clear implicits.

(** The own property names of [Object.prototype]; every one of them holds a
    function, [__proto__] apart, which is an accessor. *)
Definition Object_prototype_keys : list string :=
  [ "constructor"; "__defineGetter__"; "__defineSetter__"; "hasOwnProperty";
    "__lookupGetter__"; "__lookupSetter__"; "isPrototypeOf";
    "propertyIsEnumerable"; "toString"; "valueOf"; "__proto__";
    "toLocaleString" ].

Definition in_Object_prototype (k : string) : bool :=
  existsb (String.eqb k) Object_prototype_keys.

End JS.

(** ** JSON text: [JSON.stringify(v, null, 2)] and [JSON.parse] *)

Module JSON.

(** A number is kept as the token that spells it.  The tokens that [parse]
    reads are the integers that a double holds exactly, in the spelling in
    which the engine prints them, so that a token stands for one number. *)
Inductive value : Type :=
| Null
| Bool (b : bool)
| Num (token : string)
| Str (s : string)
| Arr (elements : list value)
| Obj (members : JS.object value).

Definition of_nat (n : nat) : value := Num (JS.decimal n).

(** *** Printing *)

Definition hex_digit (n : nat) : ascii :=
  if (n <? 10)%nat then ascii_of_nat (48 + n) else ascii_of_nat (87 + n).

(** [QuoteJSONString], one code unit. *)
Definition quote_unit (c : ascii) : string :=
  let n := nat_of_ascii c in
  if (n =? 8)%nat then "\b"
  else if (n =? 9)%nat then "\t"
  else if (n =? 10)%nat then "\n"
  else if (n =? 12)%nat then "\f"
  else if (n =? 13)%nat then "\r"
  else if (n =? 34)%nat then String JS.backslash (String JS.dquote "")
  else if (n =? 92)%nat then "\\"
  else if (n <? 32)%nat
       then "\u00" ++ String (hex_digit (n / 16)) (String (hex_digit (n mod 16)) "")
       else String c "".

Fixpoint quote_units (s : string) : string :=
  match s with
  | "" => ""
  | String c r => quote_unit c ++ quote_units r
  end.

Definition quote (s : string) : string :=
  String JS.dquote (quote_units s ++ String JS.dquote "").

Definition gap : string := "  ".

(** The elements after the first, and the members after the first, each
    behind its separator. *)
Definition more_elements (print : value -> string) (inner : string)
  : list value -> string :=
  fix more (l : list value) : string :=
    match l with
    | [] => ""
    | y :: l' => "," ++ JS.nl ++ inner ++ print y ++ more l'
    end.

Definition more_members (print : value -> string) (inner : string)
  : JS.object value -> string :=
  fix more (l : JS.object value) : string :=
    match l with
    | [] => ""
    | (k, y) :: l' =>
        "," ++ JS.nl ++ inner ++ quote k ++ ": " ++ print y ++ more l'
    end.

(** [SerializeJSONProperty] with the gap of two spaces; [indent] is the
    indentation of the enclosing line. *)
Fixpoint stringify_at (indent : string) (v : value) : string :=
  match v with
  | Null => "null"
  | Bool true => "true"
  | Bool false => "false"
  | Num token => token       (* an integer is printed as [parse] read it *)
  | Str s => quote s
  | Arr [] => "[]"
  | Arr (x :: xs) =>
      let inner := indent ++ gap in
      "[" ++ JS.nl ++ inner ++ stringify_at inner x ++
      more_elements (stringify_at inner) inner xs ++
      JS.nl ++ indent ++ "]"
  | Obj [] => "{}"
  | Obj ((k, x) :: ms) =>
      let inner := indent ++ gap in
      "{" ++ JS.nl ++ inner ++ quote k ++ ": " ++ stringify_at inner x ++
      more_members (stringify_at inner) inner ms ++
      JS.nl ++ indent ++ "}"
  end.

Definition stringify (v : value) : string := stringify_at "" v.

(** *** Parsing

    A text can be JSON and still spell what this development does not hold:
    a code unit above U+00FF, written as an escape, or a number that the
    engine would round or print in another spelling.  The parsers therefore
    read in two ways.  The exact reading, with [lenient] off, gives up at
    such a spelling.  The lenient reading goes on, with a placeholder for
    the code unit and the token for the number; it accepts every JSON text,
    and what it returns is used only to tell whether the text is JSON
    ([grammatical]). *)

Definition is_ws (c : ascii) : bool :=
  let n := nat_of_ascii c in
  ((n =? 32) || (n =? 9) || (n =? 10) || (n =? 13))%nat.

Fixpoint skip_ws (s : string) : string :=
  match s with
  | "" => ""
  | String c r => if is_ws c then skip_ws r else s
  end.

Definition hex_value (c : ascii) : option nat :=
  let n := nat_of_ascii c in
  if ((48 <=? n) && (n <=? 57))%nat then Some (n - 48)
  else if ((97 <=? n) && (n <=? 102))%nat then Some (n - 87)
  else if ((65 <=? n) && (n <=? 70))%nat then Some (n - 55)
  else None.

Section Reading.
Variable lenient : bool.

(** The code unit of [\uXXXX].  Four hexadecimal digits are an escape in
    every JSON text; a unit above U+00FF is outside the strings of this
    development, where the exact reading gives up and the lenient reading
    puts a placeholder. *)
Definition unicode_escape (a b c d : ascii) : option ascii :=
  match hex_value a, hex_value b, hex_value c, hex_value d with
  | Some x, Some y, Some z, Some w =>
      if ((x =? 0) && (y =? 0))%nat then Some (ascii_of_nat (16 * z + w))
      else if lenient then Some "?"%char
      else None
  | _, _, _, _ => None
  end.

Definition simple_escape (e : ascii) : option ascii :=
  let n := nat_of_ascii e in
  if (n =? 34)%nat then Some JS.dquote
  else if (n =? 92)%nat then Some JS.backslash
  else if (n =? 47)%nat then Some "/"%char
  else if (n =? 98)%nat then Some "008"%char
  else if (n =? 102)%nat then Some "012"%char
  else if (n =? 110)%nat then Some "010"%char
  else if (n =? 114)%nat then Some "013"%char
  else if (n =? 116)%nat then Some "009"%char
  else None.

Definition cons_unit (c : ascii) (r : option (string * string)) : option (string * string) :=
  match r with
  | Some (s, rest) => Some (String c s, rest)
  | None => None
  end.

(** The characters of a string literal, the opening quote already read. *)
Fixpoint parse_units (s : string) : option (string * string) :=
  match s with
  | "" => None
  | String c r =>
      if Ascii.eqb c JS.dquote then Some ("", r)
      else if Ascii.eqb c JS.backslash then
        match r with
        | "" => None
        | String e r1 =>
            if Ascii.eqb e "u" then
              match r1 with
              | String h1 (String h2 (String h3 (String h4 r2))) =>
                  match unicode_escape h1 h2 h3 h4 with
                  | Some u => cons_unit u (parse_units r2)
                  | None => None
                  end
              | _ => None
              end
            else
              match simple_escape e with
              | Some u => cons_unit u (parse_units r1)
              | None => None
              end
        end
      else if (nat_of_ascii c <? 32)%nat then None
      else cons_unit c (parse_units r)
  end.

(** Numbers: the longest run of number characters, checked against the
    grammar [-? int frac? exp?]. *)
Definition number_char (c : ascii) : bool :=
  JS.is_digit c || Ascii.eqb c "-" || Ascii.eqb c "+" || Ascii.eqb c "." ||
  Ascii.eqb c "e" || Ascii.eqb c "E".

Fixpoint span_number (s : string) : string * string :=
  match s with
  | "" => ("", "")
  | String c r =>
      if number_char c
      then let (tok, rest) := span_number r in (String c tok, rest)
      else ("", s)
  end.

Fixpoint skip_digits (s : string) : string :=
  match s with
  | "" => ""
  | String c r => if JS.is_digit c then skip_digits r else s
  end.

Definition starts_with_digit (s : string) : bool :=
  match s with
  | "" => false
  | String c _ => JS.is_digit c
  end.

Definition valid_exp (s : string) : bool :=
  match s with
  | "" => true
  | String c r =>
      (Ascii.eqb c "e" || Ascii.eqb c "E") &&
      let digits :=
        match r with
        | String sign r' =>
            if Ascii.eqb sign "+" || Ascii.eqb sign "-" then r' else r
        | "" => r
        end in
      starts_with_digit digits && String.eqb (skip_digits digits) ""
  end.

Definition valid_frac (s : string) : bool :=
  match s with
  | String c r =>
      if Ascii.eqb c "." then starts_with_digit r && valid_exp (skip_digits r)
      else valid_exp s
  | "" => true
  end.

Definition valid_int (s : string) : bool :=
  match s with
  | "" => false
  | String c r =>
      if Ascii.eqb c "0" then valid_frac r
      else JS.is_digit c && valid_frac (skip_digits r)
  end.

Definition valid_number (s : string) : bool :=
  match s with
  | String c r => if Ascii.eqb c "-" then valid_int r else valid_int s
  | "" => false
  end.

(** The numbers that a double holds exactly and that [JSON.stringify] prints
    as they were read: the integers of magnitude up to 2^53 - 1, in decimal
    digits, minus zero apart, which is printed as [0]. *)
Definition safe_magnitude (digits : string) (nonzero : bool) : bool :=
  match JS.digits_value digits 0 with
  | Some n => (n <=? 9007199254740991)%N && (negb nonzero || negb (n =? 0)%N)
  | None => false
  end.

Definition safe_integer (tok : string) : bool :=
  valid_number tok &&
  match tok with
  | String c digits =>
      if Ascii.eqb c "-" then safe_magnitude digits true else safe_magnitude tok false
  | "" => false
  end.

Fixpoint strip_prefix (p s : string) {struct p} : option string :=
  match p with
  | "" => Some s
  | String a p' =>
      match s with
      | "" => None
      | String b s' => if Ascii.eqb a b then strip_prefix p' s' else None
      end
  end.

Definition parse_literal (word : string) (v : value) (s : string)
  : option (value * string) :=
  match strip_prefix word s with
  | Some rest => Some (v, rest)
  | None => None
  end.

(** An object is built member by member: a repeated key keeps its first
    position and its last value, index keys move to the front. *)
Definition build_object (ms : list (string * value)) : JS.object value :=
  fold_left (fun o m => JS.defineOwn (fst m) (snd m) o) ms [].

Fixpoint parse_value (fuel : nat) (s : string) {struct fuel}
  : option (value * string) :=
  match fuel with
  | O => None
  | S n =>
      match skip_ws s with
      | "" => None
      | String c r =>
          if Ascii.eqb c "{" then
            match skip_ws r with
            | "" => None
            | String c' r' =>
                if Ascii.eqb c' "}" then Some (Obj [], r')
                else match parse_members n (String c' r') with
                     | Some (ms, rest) => Some (Obj (build_object ms), rest)
                     | None => None
                     end
            end
          else if Ascii.eqb c "[" then
            match skip_ws r with
            | "" => None
            | String c' r' =>
                if Ascii.eqb c' "]" then Some (Arr [], r')
                else match parse_elements n (String c' r') with
                     | Some (vs, rest) => Some (Arr vs, rest)
                     | None => None
                     end
            end
          else if Ascii.eqb c JS.dquote then
            match parse_units r with
            | Some (str, rest) => Some (Str str, rest)
            | None => None
            end
          else if Ascii.eqb c "t" then parse_literal "true" (Bool true) (String c r)
          else if Ascii.eqb c "f" then parse_literal "false" (Bool false) (String c r)
          else if Ascii.eqb c "n" then parse_literal "null" Null (String c r)
          else
            let (tok, rest) := span_number (String c r) in
            if (if lenient then valid_number tok else safe_integer tok)
            then Some (Num tok, rest)
            else None
      end
  end

with parse_elements (fuel : nat) (s : string) {struct fuel}
  : option (list value * string) :=
  match fuel with
  | O => None
  | S n =>
      match parse_value n s with
      | None => None
      | Some (v, r) =>
          match skip_ws r with
          | "" => None
          | String c r' =>
              if Ascii.eqb c "," then
                match parse_elements n r' with
                | Some (vs, rest) => Some (v :: vs, rest)
                | None => None
                end
              else if Ascii.eqb c "]" then Some ([v], r')
              else None
          end
      end
  end

with parse_members (fuel : nat) (s : string) {struct fuel}
  : option (list (string * value) * string) :=
  match fuel with
  | O => None
  | S n =>
      match skip_ws s with
      | "" => None
      | String q r0 =>
          if Ascii.eqb q JS.dquote then
            match parse_units r0 with
            | None => None
            | Some (k, r1) =>
                match skip_ws r1 with
                | "" => None
                | String colon r2 =>
                    if Ascii.eqb colon ":" then
                      match parse_value n r2 with
                      | None => None
                      | Some (v, r3) =>
                          match skip_ws r3 with
                          | "" => None
                          | String c r4 =>
                              if Ascii.eqb c "," then
                                match parse_members n r4 with
                                | Some (ms, rest) => Some ((k, v) :: ms, rest)
                                | None => None
                                end
                              else if Ascii.eqb c "}" then Some ([(k, v)], r4)
                              else None
                          end
                      end
                    else None
                end
            end
          else None
      end
  end.

End Reading.

(** [JSON.parse], where the development holds the value: one value in the
    exact reading, then nothing but white space.  Every call of the three
    parsers reads a character before it calls another twice, so twice the
    length is fuel enough ([JSONFacts.parse_fuel_independent]). *)
Definition parse (s : string) : option value :=
  match parse_value false (2 * String.length s + 1) s with
  | Some (v, rest) => match skip_ws rest with "" => Some v | _ => None end
  | None => None
  end.

(** Whether a text is JSON; [JSON.parse] throws a [SyntaxError] exactly on the
    texts that are not.  A text that is JSON and has no exact reading is
    outside the development ([parse_grammatical], [grammatical_fuel] in
    [JSONFacts]). *)
Definition grammatical (s : string) : bool :=
  match parse_value true (2 * String.length s + 1) s with
  | Some (_, rest) => match skip_ws rest with "" => true | _ => false end
  | None => false
  end.

End JSON.

(** ** The data model *)

Module Entity.
Record t : Type := make
  { name : string;
    entityType : string;
    observations : list string;
    createdAt : string }.

Definition push (contents : list string) (e : t) : t :=
  {| name := name e; entityType := entityType e;
     observations := (observations e ++ contents)%list;
     createdAt := createdAt e |}.

Definition to_json (e : t) : JSON.value :=
  JSON.Obj [ ("name", JSON.Str (name e));
             ("entityType", JSON.Str (entityType e));
             ("observations", JSON.Arr (map JSON.Str (observations e)));
             ("createdAt", JSON.Str (createdAt e)) ].
End Entity.

Module Relation.
Record t : Type := make
  { from : string;
    to : string;
    relationType : string;
    createdAt : string }.

Definition to_json (r : t) : JSON.value :=
  JSON.Obj [ ("from", JSON.Str (from r));
             ("to", JSON.Str (to r));
             ("relationType", JSON.Str (relationType r));
             ("createdAt", JSON.Str (createdAt r)) ].
End Relation.

(** [this.memory].  [createEntities] files an entity under its [name]; a
    loaded file may hold it under another key.  [entities_proto] is the
    prototype of the [entities] object when an assignment to its [__proto__]
    has replaced [Object.prototype]; it is no own property and never reaches
    the file.  The root [observations] object is carried as it is. *)
Record graph : Type :=
  { entities : JS.object Entity.t;
    entities_proto : option Entity.t;
    relations : list Relation.t;
    observations : JS.object JSON.value }.

Definition empty_graph : graph :=
  {| entities := []; entities_proto := None; relations := []; observations := [] |}.

Definition set_entities (es : JS.object Entity.t) (g : graph) : graph :=
  {| entities := es; entities_proto := entities_proto g;
     relations := relations g; observations := observations g |}.

Definition set_entities_proto (p : Entity.t) (g : graph) : graph :=
  {| entities := entities g; entities_proto := Some p;
     relations := relations g; observations := observations g |}.

Definition set_relations (rs : list Relation.t) (g : graph) : graph :=
  {| entities := entities g; entities_proto := entities_proto g;
     relations := rs; observations := observations g |}.

(** The value [JSON.stringify] sees: own enumerable properties only. *)
Definition graph_to_json (g : graph) : JSON.value :=
  JSON.Obj
    [ ("entities", JSON.Obj (map (fun p => (fst p, Entity.to_json (snd p))) (entities g)));
      ("relations", JSON.Arr (map Relation.to_json (relations g)));
      ("observations", JSON.Obj (observations g)) ].

(** Reading a parsed value as a graph: the value must have exactly the
    properties the server writes, in the order it writes them. *)
Fixpoint strings_of_json (vs : list JSON.value) : option (list string) :=
  match vs with
  | [] => Some []
  | JSON.Str s :: r =>
      match strings_of_json r with Some l => Some (s :: l) | None => None end
  | _ :: _ => None
  end.

Definition entity_of_json (v : JSON.value) : option Entity.t :=
  match v with
  | JSON.Obj [ (k1, JSON.Str n); (k2, JSON.Str t); (k3, JSON.Arr os); (k4, JSON.Str c) ] =>
      if (k1 =? "name") && (k2 =? "entityType") && (k3 =? "observations") &&
         (k4 =? "createdAt")
      then match strings_of_json os with
           | Some l => Some (Entity.make n t l c)
           | None => None
           end
      else None
  | _ => None
  end.

Definition relation_of_json (v : JSON.value) : option Relation.t :=
  match v with
  | JSON.Obj [ (k1, JSON.Str f); (k2, JSON.Str t); (k3, JSON.Str ty); (k4, JSON.Str c) ] =>
      if (k1 =? "from") && (k2 =? "to") && (k3 =? "relationType") &&
         (k4 =? "createdAt")
      then Some (Relation.make f t ty c)
      else None
  | _ => None
  end.

Fixpoint entities_of_json (ms : JS.object JSON.value) : option (JS.object Entity.t) :=
  match ms with
  | [] => Some []
  | (k, v) :: r =>
      match entity_of_json v, entities_of_json r with
      | Some e, Some es => Some ((k, e) :: es)
      | _, _ => None
      end
  end.

Fixpoint relations_of_json (vs : list JSON.value) : option (list Relation.t) :=
  match vs with
  | [] => Some []
  | v :: r =>
      match relation_of_json v, relations_of_json r with
      | Some x, Some xs => Some (x :: xs)
      | _, _ => None
      end
  end.

Definition graph_of_json (v : JSON.value) : option graph :=
  match v with
  | JSON.Obj [ (k1, JSON.Obj es); (k2, JSON.Arr rs); (k3, JSON.Obj os) ] =>
      if (k1 =? "entities") && (k2 =? "relations") && (k3 =? "observations")
      then match entities_of_json es, relations_of_json rs with
           | Some es', Some rs' =>
               Some {| entities := es'; entities_proto := None;
                       relations := rs'; observations := os |}
           | _, _ => None
           end
      else None
  | _ => None
  end.

(** *** Tool arguments, typed by the tools' [inputSchema]

    [observations] of an entity item is [None] when the property is absent or
    [null]. *)
Module EntityItem.
Record t : Type := make
  { name : string;
    entityType : string;
    observations : option (list string) }.
End EntityItem.

Module RelationItem.
Record t : Type := make
  { from : string;
    to : string;
    relationType : string }.
End RelationItem.

Module ObservationItem.
Record t : Type := make
  { entityName : string;
    contents : list string }.
End ObservationItem.

(** [request.params.arguments]; a property that is absent is [None]. *)
Record arguments : Type :=
  { arg_entities : option (list EntityItem.t);
    arg_relations : option (list RelationItem.t);
    arg_observations : option (list ObservationItem.t);
    arg_query : option string }.

Definition no_arguments : arguments :=
  {| arg_entities := None; arg_relations := None;
     arg_observations := None; arg_query := None |}.

(** ** The world of a server instance *)

Inductive exn : Type :=
| Error (message : string)
| TypeError (message : string)
| SystemError (message : string).     (* raised by [fs]; the text is the system's *)

Definition message_of (e : exn) : string :=
  match e with
  | Error m => m
  | TypeError m => m
  | SystemError m => m
  end.

(** What [fs.writeFile] does to the file: it is rewritten, or the call fails
    and leaves the file in some state. *)
Inductive write_outcome : Type :=
| Written
| WriteFailed (residue : option string).

Record oracle : Type :=
  { now : nat -> string;                   (* n-th [new Date().toISOString()] *)
    writeFile_outcome : nat -> write_outcome;  (* n-th [fs.writeFile] *)
    readFile_fails : bool }.               (* I/O error on an existing file *)

Record world : Type :=
  { memory : graph;
    file : option string;        (* the text at [memoryFile], if the file exists *)
    console : list string;
    clock_reads : nat;
    file_writes : nat }.

Inductive completion (A : Type) : Type :=
| Return (a : A)
| Throw (e : exn).
Arguments Return {A} a.
Arguments Throw {A} e.

Definition M (A : Type) : Type := world -> completion A * world.

Definition ret {A} (a : A) : M A := fun w => (Return a, w).
Definition throw {A} (e : exn) : M A := fun w => (Throw e, w).

Definition bind {A B} (m : M A) (k : A -> M B) : M B :=
  fun w =>
    match m w with
    | (Return a, w') => k a w'
    | (Throw e, w') => (Throw e, w')
    end.

Definition try_catch {A} (body : M A) (handler : exn -> M A) : M A :=
  fun w =>
    match body w with
    | (Return a, w') => (Return a, w')
    | (Throw e, w') => handler e w'
    end.

Notation "x <- m ;; k" := (bind m (fun x => k))
  (at level 61, m at next level, right associativity).
Notation "m ;;; k" := (bind m (fun _ => k))
  (at level 61, right associativity).

(** [for (const x of xs) body]: an exception leaves the loop. *)
Fixpoint for_of {A} (xs : list A) (body : A -> M unit) : M unit :=
  match xs with
  | [] => ret tt
  | x :: r => body x ;;; for_of r body
  end.

(** Iterating [undefined] throws. *)
Definition iterable {A} (param : string) (xs : option (list A)) : M (list A) :=
  match xs with
  | Some l => ret l
  | None => throw (TypeError (param ++ " is not iterable"))
  end.

Definition get_memory : M graph := fun w => (Return (memory w), w).

Definition modify_memory (f : graph -> graph) : M unit :=
  fun w =>
    (Return tt,
     {| memory := f (memory w); file := file w; console := console w;
        clock_reads := clock_reads w; file_writes := file_writes w |}).

Definition console_log (line : string) : M unit :=
  fun w =>
    (Return tt,
     {| memory := memory w; file := file w;
        console := (console w ++ [line])%list;
        clock_reads := clock_reads w; file_writes := file_writes w |}).

Section Effects.
Variable E : oracle.

(** [new Date().toISOString()] *)
Definition new_Date : M string :=
  fun w =>
    (Return (now E (clock_reads w)),
     {| memory := memory w; file := file w; console := console w;
        clock_reads := S (clock_reads w); file_writes := file_writes w |}).

(** [fs.writeFile(this.memoryFile, data)] *)
Definition fs_writeFile (data : string) : M unit :=
  fun w =>
    match writeFile_outcome E (file_writes w) with
    | Written =>
        (Return tt,
         {| memory := memory w; file := Some data; console := console w;
            clock_reads := clock_reads w; file_writes := S (file_writes w) |})
    | WriteFailed residue =>
        (Throw (SystemError "EIO"),
         {| memory := memory w; file := residue; console := console w;
            clock_reads := clock_reads w; file_writes := S (file_writes w) |})
    end.

(** [fs.readFile(this.memoryFile, 'utf8')] *)
Definition fs_readFile : M string :=
  fun w =>
    match file w with
    | Some data =>
        if readFile_fails E then (Throw (SystemError "EIO"), w) else (Return data, w)
    | None => (Throw (SystemError "ENOENT"), w)
    end.
End Effects.

(** ** Lookups and assignments on [this.memory.entities] *)

(** What [this.memory.entities[key]] evaluates to.  A key that is no own
    property is looked up in the prototype chain: in the entity that an
    assignment to [__proto__] installed, if any, then in [Object.prototype]. *)
Inductive property : Type :=
| OwnEntity (e : Entity.t)
| PrototypeEntity (p : Entity.t)     (* [__proto__] read through its getter *)
| InheritedString (s : string)       (* a string field of the prototype entity *)
| InheritedObject                    (* an array or function found up the chain *)
| Undefined.

Definition get_entity (key : string) (g : graph) : property :=
  match JS.getOwn key (entities g) with
  | Some e => OwnEntity e
  | None =>
      match entities_proto g with
      | Some p =>
          if key =? "name" then InheritedString (Entity.name p)
          else if key =? "entityType" then InheritedString (Entity.entityType p)
          else if key =? "observations" then InheritedObject
          else if key =? "createdAt" then InheritedString (Entity.createdAt p)
          else if key =? "__proto__" then PrototypeEntity p
          else if JS.in_Object_prototype key then InheritedObject
          else Undefined
      | None => if JS.in_Object_prototype key then InheritedObject else Undefined
      end
  end.

(** [this.memory.entities[name] = e].  An own property is overwritten where
    it stands; otherwise the key [__proto__] reaches the setter of
    [Object.prototype], which makes [e] the prototype and adds no property;
    any other key becomes a new own property. *)
Definition assign_entity (name : string) (e : Entity.t) (g : graph) : graph :=
  if negb (JS.hasOwn name (entities g)) && (name =? "__proto__")
  then set_entities_proto e g
  else set_entities (JS.defineOwn name e (entities g)) g.

(** The results of a search, each tagged with its kind. *)
Inductive node : Type :=
| EntityNode (e : Entity.t)
| RelationNode (r : Relation.t).

Definition node_to_json (n : node) : JSON.value :=
  match n with
  | EntityNode e =>
      match Entity.to_json e with
      | JSON.Obj ms => JSON.Obj (("type", JSON.Str "entity") :: ms)
      | v => v
      end
  | RelationNode r =>
      match Relation.to_json r with
      | JSON.Obj ms => JSON.Obj (("type", JSON.Str "relation") :: ms)
      | v => v
      end
  end.

(** The tests of [searchNodes], on an entry of [Object.entries] and on a
    relation. *)
Definition entity_matches (lowerQuery : string) (entry : string * Entity.t) : bool :=
  let (name, entity) := entry in
  JS.includes (JS.toLowerCase name) lowerQuery ||
  JS.includes (JS.toLowerCase (Entity.entityType entity)) lowerQuery ||
  JS.some (fun obs => JS.includes (JS.toLowerCase obs) lowerQuery)
          (Entity.observations entity).

Definition relation_matches (lowerQuery : string) (relation : Relation.t) : bool :=
  JS.includes (JS.toLowerCase (Relation.from relation)) lowerQuery ||
  JS.includes (JS.toLowerCase (Relation.to relation)) lowerQuery ||
  JS.includes (JS.toLowerCase (Relation.relationType relation)) lowerQuery.

(** The first loop of [searchNodes], shared by both classes. *)
Definition search_entities (lowerQuery : string) (g : graph) (results : list node)
  : list node :=
  fold_left
    (fun results entry =>
       if entity_matches lowerQuery entry
       then (results ++ [EntityNode (snd entry)])%list
       else results)
    (entities g) results.

Definition search_relations (lowerQuery : string) (g : graph) (results : list node)
  : list node :=
  fold_left
    (fun results relation =>
       if relation_matches lowerQuery relation
       then (results ++ [RelationNode relation])%list
       else results)
    (relations g) results.

Definition found_text (results : list node) : string :=
  "Found " ++ JS.decimal (length results) ++ " matching nodes:" ++ JS.nl ++ JS.nl ++
  JSON.stringify (JSON.Arr (map node_to_json results)).

(** The statistics of [readGraph]. *)
Record stats : Type :=
  { stat_entities : nat;
    stat_relations : nat;
    stat_totalObservations : nat }.

Definition stats_to_json (s : stats) : JSON.value :=
  JSON.Obj [ ("entities", JSON.of_nat (stat_entities s));
             ("relations", JSON.of_nat (stat_relations s));
             ("totalObservations", JSON.of_nat (stat_totalObservations s)) ].

Definition graph_stats (g : graph) : stats :=
  {| stat_entities := length (JS.keys (entities g));
     stat_relations := length (relations g);
     stat_totalObservations :=
       fold_left (fun sum entity => sum + length (Entity.observations entity))
                 (JS.values (entities g)) 0 |}.

Definition graph_text (g : graph) : string :=
  "Knowledge Graph Contents:" ++ JS.nl ++ JS.nl ++ "Statistics:" ++ JS.nl ++
  JSON.stringify (stats_to_json (graph_stats g)) ++ JS.nl ++ JS.nl ++
  "Full Graph:" ++ JS.nl ++ JSON.stringify (graph_to_json g).

Definition undefined_property (prop : string) : exn :=
  TypeError ("Cannot read properties of undefined (reading '" ++ prop ++ "')").

(** How the constructor and [loadMemory] leave an instance: serving a graph,
    or holding a parsed value [v] of another shape in [this.memory], or
    holding a value that the development does not have, parsed from a file
    that spells a code unit or a number outside it.  The model of the tools
    ends at the last two. *)
Inductive booted : Type :=
| Serving (w : world)
| Unshaped (v : JSON.value) (file : option string) (console : list string)
| Unread (file : option string) (console : list string).

Definition memory_value (b : booted) : option JSON.value :=
  match b with
  | Serving w => Some (graph_to_json (memory w))
  | Unshaped v _ _ => Some v
  | Unread _ _ => None
  end.

(** ** class CloudMemoryServer *)

Module CloudMemoryServer.
Section Instance.
Variable E : oracle.

Definition saveMemory : M unit :=
  try_catch
    (g <- get_memory ;;
     fs_writeFile E (JSON.stringify (graph_to_json g)) ;;;
     console_log "Memory saved successfully")
    (fun error => console_log "Failed to save memory:").

(** The [catch] block of [loadMemory]. *)
Definition startFresh : M unit :=
  console_log "No existing memory file, starting fresh" ;;; saveMemory.

Definition loadMemory (w : world) : booted :=
  match fs_readFile E w with
  | (Return data, w1) =>
      match JSON.parse data with
      | Some v =>
          match graph_of_json v with
          | Some g =>
              Serving (snd ((modify_memory (fun _ => g) ;;;
                             console_log "Memory loaded successfully") w1))
          | None =>
              Unshaped v (file w1) (console w1 ++ ["Memory loaded successfully"])%list
          end
      | None =>
          if JSON.grammatical data
          then Unread (file w1) (console w1 ++ ["Memory loaded successfully"])%list
          else Serving (snd (startFresh w1))     (* [SyntaxError] *)
      end
  | (Throw _, w1) => Serving (snd (startFresh w1))
  end.

(** [new CloudMemoryServer()] next to a file system where the snapshot file
    holds [snapshot]. *)
Definition constructor (snapshot : option string) : booted :=
  loadMemory {| memory := empty_graph; file := snapshot; console := [];
                clock_reads := 0; file_writes := 0 |}.

Definition createEntities (entities : option (list EntityItem.t)) : M string :=
  list <- iterable "entities" entities ;;
  for_of list (fun entity =>
    createdAt <- new_Date E ;;
    modify_memory
      (assign_entity (EntityItem.name entity)
         {| Entity.name := EntityItem.name entity;
            Entity.entityType := EntityItem.entityType entity;
            Entity.observations :=
              match EntityItem.observations entity with
              | Some observations => observations
              | None => []
              end;
            Entity.createdAt := createdAt |})) ;;;
  saveMemory ;;;
  ret ("Created " ++ JS.decimal (length list) ++ " entities successfully").

Definition createRelations (relations_ : option (list RelationItem.t)) : M string :=
  list <- iterable "relations" relations_ ;;
  for_of list (fun relation =>
    createdAt <- new_Date E ;;
    modify_memory (fun g =>
      set_relations
        (relations g ++
           [ {| Relation.from := RelationItem.from relation;
                Relation.to := RelationItem.to relation;
                Relation.relationType := RelationItem.relationType relation;
                Relation.createdAt := createdAt |} ])%list
        g)) ;;;
  saveMemory ;;;
  ret ("Created " ++ JS.decimal (length list) ++ " relations successfully").

Definition addObservations (observations_ : option (list ObservationItem.t)) : M string :=
  list <- iterable "observations" observations_ ;;
  for_of list (fun obs =>
    let entityName := ObservationItem.entityName obs in
    let contents := ObservationItem.contents obs in
    g <- get_memory ;;
    match get_entity entityName g with
    | OwnEntity e =>
        modify_memory (fun g =>
          set_entities (JS.replaceOwn entityName (Entity.push contents e) (entities g)) g)
    | PrototypeEntity p =>
        modify_memory (set_entities_proto (Entity.push contents p))
    | InheritedString s =>
        if s =? "" then ret tt else throw (undefined_property "push")
    | InheritedObject => throw (undefined_property "push")
    | Undefined => ret tt
    end) ;;;
  saveMemory ;;;
  ret ("Added observations to " ++ JS.decimal (length list) ++ " entities successfully").

Definition searchNodes (query : option string) : M string :=
  match query with
  | None => throw (undefined_property "toLowerCase")
  | Some query =>
      let lowerQuery := JS.toLowerCase query in
      g <- get_memory ;;
      let results := search_entities lowerQuery g [] in
      let results := search_relations lowerQuery g results in
      ret (found_text results)
  end.

Definition readGraph : M string :=
  g <- get_memory ;;
  ret (graph_text g).

(** The handler of [CallToolRequestSchema]; the result is the [text] of the
    one content item it returns. *)
Definition argument {A} (args : option arguments) (prop : string)
           (get : arguments -> A) : M A :=
  match args with
  | Some a => ret (get a)
  | None => throw (undefined_property prop)
  end.

Definition CallTool (name : string) (args : option arguments) : M string :=
  try_catch
    (if name =? "create_entities" then
       a <- argument args "entities" arg_entities ;; createEntities a
     else if name =? "create_relations" then
       a <- argument args "relations" arg_relations ;; createRelations a
     else if name =? "add_observations" then
       a <- argument args "observations" arg_observations ;; addObservations a
     else if name =? "search_nodes" then
       a <- argument args "query" arg_query ;; searchNodes a
     else if name =? "read_graph" then readGraph
     else throw (Error ("Unknown tool: " ++ name)))
    (fun error => ret ("Error executing " ++ name ++ ": " ++ message_of error)).

Definition tools : list string :=
  [ "create_entities"; "create_relations"; "add_observations";
    "search_nodes"; "read_graph" ].
End Instance.
End CloudMemoryServer.

(** ** class SimpleMemoryServer *)

Inductive response : Type :=
| Content (text : string)                 (* [{content: [{type: 'text', text}]}] *)
| Tools (names : list string)             (* the answer to [tools/list] *)
| Initialized                             (* the answer to [initialize] *)
| Failed (message : string).              (* [{error: {message}}] *)

Record tool_call : Type :=
  { call_name : string;
    call_arguments : option arguments }.

Record request : Type :=
  { method : string;
    params : option tool_call }.

Module SimpleMemoryServer.
Section Instance.
Variable E : oracle.

(** [loadMemory] and [saveMemory] repeat those of [CloudMemoryServer]
    statement by statement. *)
Definition saveMemory : M unit := CloudMemoryServer.saveMemory E.
Definition loadMemory : world -> booted := CloudMemoryServer.loadMemory E.

Definition constructor (snapshot : option string) : booted :=
  loadMemory {| memory := empty_graph; file := snapshot; console := [];
                clock_reads := 0; file_writes := 0 |}.

Definition createEntities (entities : option (list EntityItem.t)) : M response :=
  list <- iterable "entities" entities ;;
  for_of list (fun entity =>
    createdAt <- new_Date E ;;
    modify_memory
      (assign_entity (EntityItem.name entity)
         {| Entity.name := EntityItem.name entity;
            Entity.entityType := EntityItem.entityType entity;
            Entity.observations :=
              match EntityItem.observations entity with
              | Some observations => observations
              | None => []
              end;
            Entity.createdAt := createdAt |})) ;;;
  saveMemory ;;;
  ret (Content ("Created " ++ JS.decimal (length list) ++ " entities successfully")).

Definition searchNodes (query : option string) : M response :=
  match query with
  | None => throw (undefined_property "toLowerCase")
  | Some query =>
      let lowerQuery := JS.toLowerCase query in
      g <- get_memory ;;
      let results := search_entities lowerQuery g [] in
      ret (Content (found_text results))
  end.

Definition readGraph : M response :=
  g <- get_memory ;;
  ret (Content (graph_text g)).

Definition handleToolCall (params : option tool_call) : M response :=
  match params with
  | None =>
      throw (TypeError
        "Cannot destructure property 'name' of 'params' as it is undefined.")
  | Some call =>
      let name := call_name call in
      let args := call_arguments call in
      if name =? "create_entities" then
        a <- CloudMemoryServer.argument args "entities" arg_entities ;; createEntities a
      else if name =? "search_nodes" then
        a <- CloudMemoryServer.argument args "query" arg_query ;; searchNodes a
      else if name =? "read_graph" then readGraph
      else throw (Error ("Unknown tool: " ++ name))
  end.

Definition tools : list string :=
  [ "create_entities"; "search_nodes"; "read_graph" ].

Definition handleRequest (r : request) : M response :=
  try_catch
    (if method r =? "tools/list" then ret (Tools tools)
     else if method r =? "tools/call" then handleToolCall (params r)
     else if method r =? "initialize" then ret Initialized
     else throw (Error ("Unknown method: " ++ method r)))
    (fun error => ret (Failed (message_of error))).
End Instance.
End SimpleMemoryServer.

(** ** The run loop

    Requests are handled one after the other; an exception that leaves a
    handler ends the run. *)
Fixpoint serve {R A} (handler : R -> M A) (requests : list R) : M (list A) :=
  match requests with
  | [] => ret []
  | r :: rest =>
      a <- handler r ;;
      answers <- serve handler rest ;;
      ret (a :: answers)
  end.

(** ** The other handlers of [CloudMemoryServer] *)

(** The schemas of the tools are object literals; they are kept as the JSON
    values that the transport sends. *)
Module Schema.

Definition string : JSON.value := JSON.Obj [ ("type", JSON.Str "string") ].

Definition array (items : JSON.value) : JSON.value :=
  JSON.Obj [ ("type", JSON.Str "array"); ("items", items) ].

Definition object (properties : JS.object JSON.value) (required : list String.string)
  : JSON.value :=
  JSON.Obj [ ("type", JSON.Str "object");
             ("properties", JSON.Obj properties);
             ("required", JSON.Arr (map JSON.Str required)) ].

Definition tool (name description : String.string) (inputSchema : JSON.value)
  : JSON.value :=
  JSON.Obj [ ("name", JSON.Str name);
             ("description", JSON.Str description);
             ("inputSchema", inputSchema) ].

End Schema.

Module CloudHandlers.

Definition create_entities : JSON.value :=
  Schema.tool "create_entities" "Create entities in the knowledge graph memory"
    (Schema.object
       [ ("entities",
          Schema.array
            (Schema.object
               [ ("name", Schema.string);
                 ("entityType", Schema.string);
                 ("observations", Schema.array Schema.string) ]
               [ "name"; "entityType"; "observations" ])) ]
       [ "entities" ]).

Definition create_relations : JSON.value :=
  Schema.tool "create_relations" "Create relations between entities"
    (Schema.object
       [ ("relations",
          Schema.array
            (Schema.object
               [ ("from", Schema.string);
                 ("to", Schema.string);
                 ("relationType", Schema.string) ]
               [ "from"; "to"; "relationType" ])) ]
       [ "relations" ]).

Definition add_observations : JSON.value :=
  Schema.tool "add_observations" "Add observations to existing entities"
    (Schema.object
       [ ("observations",
          Schema.array
            (Schema.object
               [ ("entityName", Schema.string);
                 ("contents", Schema.array Schema.string) ]
               [ "entityName"; "contents" ])) ]
       [ "observations" ]).

Definition search_nodes : JSON.value :=
  Schema.tool "search_nodes" "Search for nodes in the knowledge graph"
    (Schema.object [ ("query", Schema.string) ] [ "query" ]).

Definition read_graph : JSON.value :=
  Schema.tool "read_graph" "Read the entire knowledge graph"
    (JSON.Obj [ ("type", JSON.Str "object"); ("properties", JSON.Obj []) ]).

(** The handler of [ListToolsRequestSchema]. *)
Definition ListTools : JSON.value :=
  JSON.Obj
    [ ("tools",
       JSON.Arr [ create_entities; create_relations; add_observations;
                  search_nodes; read_graph ]) ].

(** The handler of [ListResourcesRequestSchema]. *)
Definition ListResources : JSON.value :=
  JSON.Obj
    [ ("resources",
       JSON.Arr
         [ JSON.Obj [ ("uri", JSON.Str "memory://graph");
                      ("name", JSON.Str "Knowledge Graph");
                      ("description", JSON.Str "Complete knowledge graph memory");
                      ("mimeType", JSON.Str "application/json") ] ]) ].

(** The one item of [contents] that [ReadResource] returns. *)
Record contents : Type :=
  { uri : string;
    mimeType : string;
    text : string }.

(** The handler of [ReadResourceRequestSchema]; it has no [catch]. *)
Definition ReadResource (uri : string) : M contents :=
  if uri =? "memory://graph" then
    g <- get_memory ;;
    ret {| uri := uri; mimeType := "application/json";
           text := JSON.stringify (graph_to_json g) |}
  else throw (Error ("Unknown resource: " ++ uri)).

End CloudHandlers.

(** ** The message callback of [SimpleMemoryServer] *)

Module SimpleMain.

(** The answer to [tools/list], item by item. *)
Definition tools_list : JSON.value :=
  JSON.Obj
    [ ("tools",
       JSON.Arr
         [ Schema.tool "create_entities" "Create entities in the knowledge graph memory"
             (Schema.object
                [ ("entities",
                   Schema.array
                     (Schema.object
                        [ ("name", Schema.string);
                          ("entityType", Schema.string);
                          ("observations", Schema.array Schema.string) ]
                        [ "name"; "entityType"; "observations" ])) ]
                [ "entities" ]);
           Schema.tool "search_nodes" "Search for nodes in the knowledge graph"
             (Schema.object [ ("query", Schema.string) ] [ "query" ]);
           Schema.tool "read_graph" "Read the entire knowledge graph"
             (JSON.Obj [ ("type", JSON.Str "object"); ("properties", JSON.Obj []) ]) ]) ].

(** Reading a parsed message as a request of the typed shape.  A property
    that is absent is [None]; a property of another type than the tools
    expect makes the message untyped. *)
Definition property_of (key : string) (v : JSON.value) : option JSON.value :=
  match v with
  | JSON.Obj members => JS.getOwn key members
  | _ => None
  end.

Definition entity_item_of_json (v : JSON.value) : option EntityItem.t :=
  match v with
  | JSON.Obj _ =>
      match property_of "name" v, property_of "entityType" v with
      | Some (JSON.Str name), Some (JSON.Str entityType) =>
          match property_of "observations" v with
          | None => Some (EntityItem.make name entityType None)
          | Some JSON.Null => Some (EntityItem.make name entityType None)
          | Some (JSON.Arr l) =>
              match strings_of_json l with
              | Some observations => Some (EntityItem.make name entityType (Some observations))
              | None => None
              end
          | Some _ => None
          end
      | _, _ => None
      end
  | _ => None
  end.

Fixpoint entity_items_of_json (vs : list JSON.value) : option (list EntityItem.t) :=
  match vs with
  | [] => Some []
  | v :: r =>
      match entity_item_of_json v, entity_items_of_json r with
      | Some item, Some items => Some (item :: items)
      | _, _ => None
      end
  end.

(** [handleToolCall] reads [entities] and [query] of the arguments and
    nothing else. *)
Definition arguments_of_json (v : JSON.value) : option arguments :=
  match v with
  | JSON.Obj _ =>
      let entities :=
        match property_of "entities" v with
        | None => Some None
        | Some (JSON.Arr l) =>
            match entity_items_of_json l with
            | Some items => Some (Some items)
            | None => None
            end
        | Some _ => None
        end in
      let query :=
        match property_of "query" v with
        | None => Some None
        | Some (JSON.Str q) => Some (Some q)
        | Some _ => None
        end in
      match entities, query with
      | Some e, Some q =>
          Some {| arg_entities := e; arg_relations := None;
                  arg_observations := None; arg_query := q |}
      | _, _ => None
      end
  | _ => None
  end.

Definition tool_call_of_json (v : JSON.value) : option tool_call :=
  match v with
  | JSON.Obj _ =>
      match property_of "name" v with
      | Some (JSON.Str name) =>
          match property_of "arguments" v with
          | None => Some {| call_name := name; call_arguments := None |}
          | Some a =>
              match arguments_of_json a with
              | Some args => Some {| call_name := name; call_arguments := Some args |}
              | None => None
              end
          end
      | _ => None
      end
  | _ => None
  end.

(** The request and its [id]. *)
Definition request_of_json (v : JSON.value) : option (option JSON.value * request) :=
  match v with
  | JSON.Obj _ =>
      match property_of "method" v with
      | Some (JSON.Str method) =>
          match property_of "params" v with
          | None => Some (property_of "id" v, {| method := method; params := None |})
          | Some p =>
              match tool_call_of_json p with
              | Some call =>
                  Some (property_of "id" v, {| method := method; params := Some call |})
              | None => None
              end
          end
      | _ => None
      end
  | _ => None
  end.

(** What [ws.send] is given in the [try] block: [{jsonrpc: '2.0', id, result}],
    before [JSON.stringify]. *)
Record frame : Type :=
  { frame_id : option JSON.value;
    frame_result : response }.

(** How the callback ends on a message: it has sent one frame, or its promise
    is rejected and nothing was sent, or the message is JSON of another shape
    than the typed one, or JSON that spells a code unit or a number outside
    the development; the model stops at the last two. *)
Inductive reaction : Type :=
| Replied (sent : frame) (w : world)
| Rejected (reason : string) (w : world)
| Untyped (v : JSON.value)
| Outside.

(** The [catch] block: it logs, then reads [request], which was declared in
    the [try] block and is not in scope here, so the evaluation of the
    argument of [ws.send] throws before anything is sent. *)
Definition caught (w : world) : reaction :=
  Rejected "ReferenceError: request is not defined"
           (snd (console_log "Error handling request:" w)).

Section Connection.
Variable E : oracle.

(** The callback of [ws.on('message', ...)], on an open socket. *)
Definition on_message (data : string) (w : world) : reaction :=
  match JSON.parse data with
  | None => if JSON.grammatical data then Outside else caught w   (* [SyntaxError] *)
  | Some v =>
      match request_of_json v with
      | None => Untyped v
      | Some (id, r) =>
          let w1 := snd (console_log ("Received request: " ++ method r) w) in
          match SimpleMemoryServer.handleRequest E r w1 with
          | (Return response, w2) =>
              Replied {| frame_id := id; frame_result := response |} w2
          | (Throw _, w2) => caught w2
          end
      end
  end.
End Connection.

End SimpleMain.

(** * Vocabulary of the statements *)

(** ** JSON values and texts *)

Module JSONSpec.

(** Induction over values, with the hypotheses for the elements of an array
    and the members of an object. *)
Section Induction.
Variable P : JSON.value -> Prop.
Hypothesis HNull : P JSON.Null.
Hypothesis HBool : forall b, P (JSON.Bool b).
Hypothesis HNum : forall t, P (JSON.Num t).
Hypothesis HStr : forall s, P (JSON.Str s).
Hypothesis HArr : forall l, Forall P l -> P (JSON.Arr l).
Hypothesis HObj : forall ms, Forall (fun m => P (snd m)) ms -> P (JSON.Obj ms).

Fixpoint value_induction (v : JSON.value) : P v :=
  match v with
  | JSON.Null => HNull
  | JSON.Bool b => HBool b
  | JSON.Num t => HNum t
  | JSON.Str s => HStr s
  | JSON.Arr l =>
      HArr l ((fix all (l : list JSON.value) : Forall P l :=
                 match l with
                 | [] => Forall_nil P
                 | x :: r => Forall_cons x (value_induction x) (all r)
                 end) l)
  | JSON.Obj ms =>
      HObj ms ((fix all (ms : JS.object JSON.value)
                  : Forall (fun m => P (snd m)) ms :=
                  match ms with
                  | [] => Forall_nil _
                  | m :: r => Forall_cons m (value_induction (snd m)) (all r)
                  end) ms)
  end.
End Induction.

(** A text of white space only. *)
Definition blank (s : string) : Prop :=
  forall c, In c (list_ascii_of_string s) -> JSON.is_ws c = true.

(** A text of number characters only. *)
Fixpoint number_chars (s : string) : bool :=
  match s with
  | "" => true
  | String c r => JSON.number_char c && number_chars r
  end.

(** What may follow a number: the end of the text or a character that no
    number holds. *)
Definition delimited (rest : string) : Prop :=
  match rest with
  | "" => True
  | String c _ => JSON.number_char c = false
  end.

(** The values that the development holds as the engine does: the numbers
    are integers that a double holds exactly, in the spelling in which they
    are printed, and the objects keep their keys in the engine's order. *)
Inductive printable : JSON.value -> Prop :=
| printable_Null : printable JSON.Null
| printable_Bool b : printable (JSON.Bool b)
| printable_Num tok : JSON.safe_integer tok = true -> printable (JSON.Num tok)
| printable_Str s : printable (JSON.Str s)
| printable_Arr l : Forall printable l -> printable (JSON.Arr l)
| printable_Obj ms :
    JS.ordered (JS.keys ms) -> Forall (fun m => printable (snd m)) ms ->
    printable (JSON.Obj ms).

Definition elements_size (size : JSON.value -> nat) : list JSON.value -> nat :=
  fix go (l : list JSON.value) : nat :=
    match l with
    | [] => 0
    | x :: r => S (size x + go r)
    end.

Definition members_size (size : JSON.value -> nat) : JS.object JSON.value -> nat :=
  fix go (l : JS.object JSON.value) : nat :=
    match l with
    | [] => 0
    | m :: r => S (size (snd m) + go r)
    end.

(** Fuel that parsing the text of a value takes. *)
Fixpoint size (v : JSON.value) : nat :=
  match v with
  | JSON.Arr l => S (elements_size size l)
  | JSON.Obj ms => S (members_size size ms)
  | _ => 1
  end.

(** The text of a value, behind white space and before a delimiter, is read
    back as the value by any parse with fuel for it. *)
Definition reads_back (v : JSON.value) : Prop :=
  forall indent ws rest fuel,
    blank indent -> blank ws -> delimited rest -> size v <= fuel ->
    JSON.parse_value false fuel (ws ++ JSON.stringify_at indent v ++ rest) = Some (v, rest).

End JSONSpec.

(** The part of a graph that the file keeps. *)
Definition persisted (g : graph) : graph :=
  {| entities := entities g; entities_proto := None;
     relations := relations g; observations := observations g |}.

(** The order of the keys that the engine keeps, and a root [observations]
    object that a parse could have built. *)
Definition well_formed (g : graph) : Prop :=
  JS.ordered (JS.keys (entities g)) /\
  JSONSpec.printable (JSON.Obj (observations g)).

(** The entity that [createEntities] builds from an item. *)
Definition entity_of_item (item : EntityItem.t) (createdAt : string) : Entity.t :=
  {| Entity.name := EntityItem.name item;
     Entity.entityType := EntityItem.entityType item;
     Entity.observations :=
       match EntityItem.observations item with
       | Some observations => observations
       | None => []
       end;
     Entity.createdAt := createdAt |}.

Definition relation_of_item (item : RelationItem.t) (createdAt : string) : Relation.t :=
  {| Relation.from := RelationItem.from item;
     Relation.to := RelationItem.to item;
     Relation.relationType := RelationItem.relationType item;
     Relation.createdAt := createdAt |}.

Definition with_memory (g : graph) (w : world) : world :=
  {| memory := g; file := file w; console := console w;
     clock_reads := clock_reads w; file_writes := file_writes w |}.

(** One turn of each loop. *)
Definition create_step (E : oracle) (w : world) (item : EntityItem.t) : world :=
  {| memory := assign_entity (EntityItem.name item)
                 (entity_of_item item (now E (clock_reads w))) (memory w);
     file := file w; console := console w;
     clock_reads := S (clock_reads w); file_writes := file_writes w |}.

Definition relate_step (E : oracle) (w : world) (item : RelationItem.t) : world :=
  {| memory := set_relations
                 (relations (memory w) ++
                  [relation_of_item item (now E (clock_reads w))])%list (memory w);
     file := file w; console := console w;
     clock_reads := S (clock_reads w); file_writes := file_writes w |}.

Definition observe (item : ObservationItem.t) (g : graph) : completion unit * graph :=
  let entityName := ObservationItem.entityName item in
  let contents := ObservationItem.contents item in
  match get_entity entityName g with
  | OwnEntity e =>
      (Return tt,
       set_entities (JS.replaceOwn entityName (Entity.push contents e) (entities g)) g)
  | PrototypeEntity p => (Return tt, set_entities_proto (Entity.push contents p) g)
  | InheritedString s =>
      if s =? "" then (Return tt, g) else (Throw (undefined_property "push"), g)
  | InheritedObject => (Throw (undefined_property "push"), g)
  | Undefined => (Return tt, g)
  end.

Fixpoint observe_loop (items : list ObservationItem.t) (g : graph)
  : completion unit * graph :=
  match items with
  | [] => (Return tt, g)
  | item :: rest =>
      match observe item g with
      | (Return _, g') => observe_loop rest g'
      | (Throw e, g') => (Throw e, g')
      end
  end.

(** The world after [saveMemory]. *)
Definition saved (E : oracle) (w : world) : world :=
  match writeFile_outcome E (file_writes w) with
  | Written =>
      {| memory := memory w;
         file := Some (JSON.stringify (graph_to_json (memory w)));
         console := (console w ++ ["Memory saved successfully"])%list;
         clock_reads := clock_reads w; file_writes := S (file_writes w) |}
  | WriteFailed residue =>
      {| memory := memory w; file := residue;
         console := (console w ++ ["Failed to save memory:"])%list;
         clock_reads := clock_reads w; file_writes := S (file_writes w) |}
  end.

Definition list_prefix {A} (l l' : list A) : Prop := exists r, l' = (l ++ r)%list.

(** An entity that only gained observations. *)
Definition entity_grows (e e' : Entity.t) : Prop :=
  Entity.name e' = Entity.name e /\
  Entity.entityType e' = Entity.entityType e /\
  Entity.createdAt e' = Entity.createdAt e /\
  list_prefix (Entity.observations e) (Entity.observations e').

(** A graph that only gained relations, entities and observations. *)
Definition graph_grows (g g' : graph) : Prop :=
  list_prefix (relations g) (relations g') /\
  observations g' = observations g /\
  forall k e, JS.getOwn k (entities g) = Some e ->
              exists e', JS.getOwn k (entities g') = Some e' /\ entity_grows e e'.

(** A graph whose entities were kept, those under [names] apart, which may
    have been replaced. *)
Definition graph_keeps (names : list string) (g g' : graph) : Prop :=
  relations g' = relations g /\
  observations g' = observations g /\
  forall k e, JS.getOwn k (entities g) = Some e ->
              exists e', JS.getOwn k (entities g') = Some e' /\
                         (~ In k names -> e' = e).

(** What [addObservations] is meant to do with one item. *)
Definition append_observations (g : graph) (item : ObservationItem.t) : graph :=
  match JS.getOwn (ObservationItem.entityName item) (entities g) with
  | Some e =>
      set_entities
        (JS.replaceOwn (ObservationItem.entityName item)
           (Entity.push (ObservationItem.contents item) e) (entities g)) g
  | None => g
  end.

(** A name that is safe to look up: an own key, or a key that
    [Object.prototype] does not hold. *)
Definition plain_name (g : graph) (name : string) : Prop :=
  JS.hasOwn name (entities g) = true \/ JS.in_Object_prototype name = false.

(** The oracle that differs from [E] only in that every write succeeds. *)
Definition writes_succeed (E : oracle) : oracle :=
  {| now := now E; writeFile_outcome := fun _ => Written;
     readFile_fails := readFile_fails E |}.

(** The items that a tool call hands to [createEntities]. *)
Definition created_by (name : string) (args : option arguments)
  : option (list EntityItem.t) :=
  if name =? "create_entities"
  then match args with Some a => arg_entities a | None => None end
  else None.

Definition request_creates (r : request) : option (list EntityItem.t) :=
  if method r =? "tools/call"
  then match params r with
       | Some call => created_by (call_name call) (call_arguments call)
       | None => None
       end
  else None.

(** The memory after a request: untouched, or run through one of the three
    loops; through the loop of [createEntities] only with the items of the
    request. *)
Inductive effect (E : oracle) (w : world) (created : option (list EntityItem.t))
          (g' : graph) : Prop :=
| effect_none : g' = memory w -> effect E w created g'
| effect_create items :
    created = Some items ->
    g' = memory (fold_left (create_step E) items w) -> effect E w created g'
| effect_relate items :
    g' = memory (fold_left (relate_step E) items w) -> effect E w created g'
| effect_observe items :
    g' = snd (observe_loop items (memory w)) -> effect E w created g'.

(** The world in which the constructor calls [loadMemory]. *)
Definition initial (snapshot : option string) : world :=
  {| memory := empty_graph; file := snapshot; console := [];
     clock_reads := 0; file_writes := 0 |}.

(** The world after the [catch] block of [loadMemory]. *)
Definition started_fresh (E : oracle) (w : world) : world :=
  saved E {| memory := memory w; file := file w;
             console := (console w ++ ["No existing memory file, starting fresh"])%list;
             clock_reads := clock_reads w; file_writes := file_writes w |}.

(** ** Worlds used as examples *)

Module Examples.

Definition clock (n : nat) : string := "2024-01-01T00:00:0" ++ JS.decimal n ++ ".000Z".

(** Every write succeeds. *)
Definition calm : oracle :=
  {| now := clock; writeFile_outcome := fun _ => Written; readFile_fails := false |}.

(** Every write fails and leaves no file behind. *)
Definition broken_disk : oracle :=
  {| now := clock; writeFile_outcome := fun _ => WriteFailed None;
     readFile_fails := false |}.

Definition fresh : world :=
  {| memory := empty_graph; file := None; console := [];
     clock_reads := 0; file_writes := 0 |}.

Definition entity_A : Entity.t := Entity.make "A" "T1" ["x"] "2023-12-31T00:00:00.000Z".

Definition graph_A : graph :=
  {| entities := [("A", entity_A)]; entities_proto := None;
     relations := []; observations := [] |}.

Definition world_A : world := with_memory graph_A fresh.

Definition item_A : EntityItem.t := EntityItem.make "A" "T2" (Some ["y"]).

Definition create_A : arguments :=
  {| arg_entities := Some [item_A]; arg_relations := None;
     arg_observations := None; arg_query := None |}.

(** Observations for an entity named like a method of every object. *)
Definition observe_constructor : ObservationItem.t :=
  ObservationItem.make "constructor" ["x"].

Definition observe_A : ObservationItem.t := ObservationItem.make "A" ["z"].

Definition add_to (items : list ObservationItem.t) : arguments :=
  {| arg_entities := None; arg_relations := None;
     arg_observations := Some items; arg_query := None |}.

(** A snapshot that names an entity with the code unit U+0100, escaped. *)
Definition beyond_snapshot : string :=
  "{" ++ JS.quoted "entities" ++ ": {" ++
  JS.quoted (String JS.backslash "u0100") ++ ": {}}, " ++
  JS.quoted "relations" ++ ": [], " ++ JS.quoted "observations" ++ ": {}}".

(** Two entities holding three and one observations, four relations. *)
Definition graph_2_4 : graph :=
  {| entities :=
       [ ("a", Entity.make "a" "T" ["o1"; "o2"; "o3"] "t");
         ("b", Entity.make "b" "T" ["o4"] "t") ];
     entities_proto := None;
     relations :=
       [ Relation.make "a" "b" "r" "t"; Relation.make "b" "a" "r" "t";
         Relation.make "a" "a" "r" "t"; Relation.make "b" "c" "r" "t" ];
     observations := [] |}.

End Examples.

(** ** Vocabulary of the further properties *)

(** The relations that [createRelations] pushes when the clock has been read
    [t] times. *)
Fixpoint stamped (E : oracle) (t : nat) (items : list RelationItem.t)
  : list Relation.t :=
  match items with
  | [] => []
  | item :: rest => relation_of_item item (now E t) :: stamped E (S t) rest
  end.

(** The properties that [createEntities] files for items of new names when
    the clock has been read [t] times. *)
Fixpoint filed (E : oracle) (t : nat) (items : list EntityItem.t)
  : JS.object Entity.t :=
  match items with
  | [] => []
  | item :: rest =>
      (EntityItem.name item, entity_of_item item (now E t)) :: filed E (S t) rest
  end.

(** The nodes that [CloudMemoryServer.searchNodes] finds for a query. *)
Definition search_results (query : string) (g : graph) : list node :=
  search_relations (JS.toLowerCase query) g
    (search_entities (JS.toLowerCase query) g []).

(** Whether a tool call reaches [saveMemory]: a mutating tool, its list
    present, and no throw in the loop. *)
Definition reaches_save (name : string) (args : option arguments) (g : graph) : bool :=
  match args with
  | None => false
  | Some a =>
      if name =? "create_entities" then
        match arg_entities a with Some _ => true | None => false end
      else if name =? "create_relations" then
        match arg_relations a with Some _ => true | None => false end
      else if name =? "add_observations" then
        match arg_observations a with
        | Some items =>
            match fst (observe_loop items g) with
            | Return _ => true
            | Throw _ => false
            end
        | None => false
        end
      else false
  end.

(** The observations that a batch adds: those of the items whose entity
    exists. *)
Definition added_observations (g : graph) (items : list ObservationItem.t) : nat :=
  list_sum
    (map (fun item =>
            if JS.hasOwn (ObservationItem.entityName item) (entities g)
            then length (ObservationItem.contents item)
            else 0)
         items).

(** Every entity is filed under its own name. *)
Definition keyed_by_name (g : graph) : Prop :=
  forall k e, JS.getOwn k (entities g) = Some e -> Entity.name e = k.

(** Reading the descriptors of [ListTools]. *)
Definition listed (answer : JSON.value) : list JSON.value :=
  match answer with
  | JSON.Obj [ (_, JSON.Arr items) ] => items
  | _ => []
  end.

Definition name_of (descriptor : JSON.value) : string :=
  match SimpleMain.property_of "name" descriptor with
  | Some (JSON.Str name) => name
  | _ => ""
  end.

Definition uri_of (descriptor : JSON.value) : string :=
  match SimpleMain.property_of "uri" descriptor with
  | Some (JSON.Str uri) => uri
  | _ => ""
  end.

Definition required_of (descriptor : JSON.value) : list string :=
  match SimpleMain.property_of "inputSchema" descriptor with
  | Some schema =>
      match SimpleMain.property_of "required" schema with
      | Some (JSON.Arr names) =>
          match strings_of_json names with Some l => l | None => [] end
      | _ => []
      end
  | None => []
  end.

(** Whether the arguments of a call hold the property of a name. *)
Definition holds_argument (prop : string) (args : option arguments) : bool :=
  match args with
  | None => false
  | Some a =>
      if prop =? "entities" then
        match arg_entities a with Some _ => true | None => false end
      else if prop =? "relations" then
        match arg_relations a with Some _ => true | None => false end
      else if prop =? "observations" then
        match arg_observations a with Some _ => true | None => false end
      else if prop =? "query" then
        match arg_query a with Some _ => true | None => false end
      else true
  end.

(** A [tools/call] request. *)
Definition call_request (name : string) (args : option arguments) : request :=
  {| method := "tools/call";
     params := Some {| call_name := name; call_arguments := args |} |}.

(** Further examples. *)
Module MoreExamples.

Definition item_proto : EntityItem.t := EntityItem.make "__proto__" "T" (Some ["p"]).

Definition item_B : EntityItem.t := EntityItem.make "B" "T" None.

Definition item_C : EntityItem.t := EntityItem.make "C" "T" (Some ["c1"; "c2"]).

Definition create (items : list EntityItem.t) : arguments :=
  {| arg_entities := Some items; arg_relations := None;
     arg_observations := None; arg_query := None |}.

(** A [tools/call] of [read_graph] with the [id] 7. *)
Definition message : string :=
  "{" ++ JS.quoted "id" ++ ": 7, " ++ JS.quoted "method" ++ ": " ++
  JS.quoted "tools/call" ++ ", " ++ JS.quoted "params" ++ ": {" ++
  JS.quoted "name" ++ ": " ++ JS.quoted "read_graph" ++ "}}".

(** An [initialize] request with a property that spells the code unit
    U+0100. *)
Definition message_beyond : string :=
  "{" ++ JS.quoted "id" ++ ": 1, " ++ JS.quoted "method" ++ ": " ++
  JS.quoted "initialize" ++ ", " ++ JS.quoted "x" ++ ": " ++
  JS.quoted (String JS.backslash "u0100") ++ "}".

End MoreExamples.

(** * Facts *)

(** ** Strings *)

Module StringFacts.

Lemma append_nil_r (s : string) : s ++ "" = s.
Proof. induction s as [|c s IH]; simpl; [reflexivity | now rewrite IH]. Qed.

Lemma append_assoc (a b c : string) : (a ++ b) ++ c = a ++ (b ++ c).
Proof. induction a as [|x a IH]; simpl; [reflexivity | now rewrite IH]. Qed.

Lemma length_append (a b : string) :
  String.length (a ++ b) = String.length a + String.length b.
Proof. induction a as [|x a IH]; simpl; [reflexivity | now rewrite IH]. Qed.

Lemma startsWith_iff (s p : string) :
  JS.startsWith s p = true <-> exists r, s = p ++ r.
Proof.
  revert s; induction p as [|a p IH]; intros s; simpl.
  - split; [intros _; now exists s | reflexivity].
  - destruct s as [|b s].
    + split; [discriminate | intros [r H]; discriminate].
    + rewrite andb_true_iff, Ascii.eqb_eq, IH. split.
      * intros [-> [r ->]]. now exists r.
      * intros [r H]. injection H as -> ->. split; [reflexivity | now exists r].
Qed.

Lemma startsWith_append (p r : string) : JS.startsWith (p ++ r) p = true.
Proof. apply startsWith_iff. now exists r. Qed.

(** [includes] is the substring test. *)
Lemma includes_iff (s q : string) :
  JS.includes s q = true <-> JS.substring_of q s.
Proof.
  unfold JS.substring_of. induction s as [|c s IH].
  - simpl. rewrite orb_false_r, startsWith_iff. split.
    + intros [r H]. exists "", r. exact H.
    + intros [a [b H]]. destruct a; [| discriminate]. now exists b.
  - cbn [JS.includes]. rewrite orb_true_iff, startsWith_iff, IH. split.
    + intros [[r H] | [a [b H]]].
      * exists "", r. exact H.
      * exists (String c a), b. simpl. now rewrite H.
    + intros [a [b H]]. destruct a as [|x a].
      * left. now exists b.
      * right. simpl in H. injection H as _ H. now exists a, b.
Qed.

Lemma includes_empty (s : string) : JS.includes s "" = true.
Proof. apply includes_iff. exists "", s. reflexivity. Qed.

Lemma includes_refl (s : string) : JS.includes s s = true.
Proof. apply includes_iff. exists "", "". simpl. now rewrite append_nil_r. Qed.

Lemma toLowerCase_append (a b : string) :
  JS.toLowerCase (a ++ b) = JS.toLowerCase a ++ JS.toLowerCase b.
Proof. induction a as [|c a IH]; simpl; [reflexivity | now rewrite IH]. Qed.

Lemma lower_unit_idem (c : ascii) : JS.lower_unit (JS.lower_unit c) = JS.lower_unit c.
Proof. destruct c as [[] [] [] [] [] [] [] []]; reflexivity. Qed.

Lemma toLowerCase_idem (s : string) :
  JS.toLowerCase (JS.toLowerCase s) = JS.toLowerCase s.
Proof.
  induction s as [|c s IH]; simpl; [reflexivity |].
  now rewrite lower_unit_idem, IH.
Qed.

End StringFacts.

(** ** Objects in engine order *)

Module ObjectFacts.
Section WithValues.
Context {V : Type}.
Implicit Types (o : JS.object V) (k : string) (v : V).

Lemma array_index_inj k k' i :
  JS.array_index k = Some i -> JS.array_index k' = Some i -> k = k'.
Proof.
  unfold JS.array_index. intros H H'.
  destruct (JS.digits_value k 0) as [n|]; [| discriminate].
  destruct (JS.digits_value k' 0) as [n'|]; [| discriminate].
  destruct ((n <? 4294967295)%N && _) eqn:C; [| discriminate].
  destruct ((n' <? 4294967295)%N && _) eqn:C'; [| discriminate].
  apply andb_true_iff in C as [_ C], C' as [_ C'].
  apply String.eqb_eq in C, C'. congruence.
Qed.

Lemma hasOwn_In k o : JS.hasOwn k o = true <-> In k (JS.keys o).
Proof.
  unfold JS.hasOwn. induction o as [|[k' v'] t IH]; simpl.
  - split; [discriminate | tauto].
  - destruct (String.eqb_spec k k') as [->|N].
    + split; auto.
    + rewrite IH. split; [tauto | intros [H|H]; [congruence | assumption]].
Qed.

Lemma hasOwn_false k o : JS.hasOwn k o = false <-> ~ In k (JS.keys o).
Proof.
  rewrite <- hasOwn_In. destruct (JS.hasOwn k o); split; congruence.
Qed.

Lemma getOwn_None k o : JS.getOwn k o = None <-> ~ In k (JS.keys o).
Proof.
  rewrite <- hasOwn_false. unfold JS.hasOwn.
  destruct (JS.getOwn k o); split; congruence.
Qed.

Lemma getOwn_In k o x : JS.getOwn k o = Some x -> In (k, x) o.
Proof.
  induction o as [|[k' v'] t IH]; simpl; [discriminate |].
  destruct (String.eqb_spec k k') as [->|N].
  - intros [= ->]. now left.
  - intros H. right. auto.
Qed.

Lemma keys_replaceOwn k v o : JS.keys (JS.replaceOwn k v o) = JS.keys o.
Proof.
  induction o as [|[k' v'] t IH]; simpl; [reflexivity |].
  destruct (String.eqb k k'); simpl; [reflexivity | now rewrite IH].
Qed.

Lemma getOwn_replaceOwn k v o k' :
  JS.getOwn k' (JS.replaceOwn k v o) =
  if (k' =? k) && JS.hasOwn k o then Some v else JS.getOwn k' o.
Proof.
  unfold JS.hasOwn. induction o as [|[k0 v0] t IH]; simpl.
  - now rewrite andb_false_r.
  - destruct (String.eqb_spec k k0) as [Ek|Nk]; simpl.
    + subst k0. destruct (String.eqb k' k); reflexivity.
    + rewrite IH. destruct (String.eqb_spec k' k) as [Ek'|Nk']; simpl.
      * subst k'. destruct (String.eqb_spec k k0); [contradiction | reflexivity].
      * reflexivity.
Qed.

Lemma keys_insertIndex_In i k v o x :
  In x (JS.keys (JS.insertIndex i k v o)) <-> x = k \/ In x (JS.keys o).
Proof.
  induction o as [|[k' v'] t IH]; simpl.
  - split; intros [H|H]; auto.
  - destruct (JS.array_index k') as [j|]; [destruct (j <? i)%N |]; simpl.
    + rewrite IH. tauto.
    + split; intros [H|H]; auto.
    + split; intros [H|H]; auto.
Qed.

Lemma getOwn_insertIndex i k v o k' :
  ~ In k (JS.keys o) ->
  JS.getOwn k' (JS.insertIndex i k v o) =
  if k' =? k then Some v else JS.getOwn k' o.
Proof.
  induction o as [|[k0 v0] t IH]; simpl; intros NI.
  - reflexivity.
  - destruct (JS.array_index k0) as [j|]; [destruct (j <? i)%N |]; simpl;
      try reflexivity.
    rewrite IH by tauto.
    destruct (String.eqb_spec k' k0) as [->|]; [| reflexivity].
    destruct (String.eqb_spec k0 k) as [->|]; [tauto | reflexivity].
Qed.

Lemma getOwn_app k o o' :
  JS.getOwn k (o ++ o')%list =
  match JS.getOwn k o with Some x => Some x | None => JS.getOwn k o' end.
Proof.
  induction o as [|[k0 v0] t IH]; simpl; [reflexivity |].
  destruct (String.eqb k k0); [reflexivity | apply IH].
Qed.

(** Reading after an assignment. *)
Lemma getOwn_defineOwn k v o k' :
  JS.getOwn k' (JS.defineOwn k v o) =
  if k' =? k then Some v else JS.getOwn k' o.
Proof.
  unfold JS.defineOwn. destruct (JS.hasOwn k o) eqn:H.
  - rewrite getOwn_replaceOwn, H, andb_true_r. reflexivity.
  - apply hasOwn_false in H.
    destruct (JS.array_index k) as [i|].
    + now apply getOwn_insertIndex.
    + rewrite getOwn_app. simpl.
      destruct (String.eqb_spec k' k) as [->|N].
      * apply getOwn_None in H. now rewrite H.
      * now destruct (JS.getOwn k' o).
Qed.

Lemma keys_defineOwn_In k v o x :
  In x (JS.keys (JS.defineOwn k v o)) <-> x = k \/ In x (JS.keys o).
Proof.
  unfold JS.defineOwn. destruct (JS.hasOwn k o) eqn:H.
  - rewrite keys_replaceOwn. apply hasOwn_In in H.
    split; [tauto | intros [->|]; assumption].
  - destruct (JS.array_index k) as [i|].
    + apply keys_insertIndex_In.
    + unfold JS.keys. rewrite map_app, in_app_iff. simpl. intuition.
Qed.

Lemma ordered_app_one ks k :
  JS.ordered ks -> ~ In k ks -> Forall (fun a => JS.key_before a k) ks ->
  JS.ordered (ks ++ [k])%list.
Proof.
  induction ks as [|a t IH]; simpl; intros O NI F.
  - repeat split; auto.
  - destruct O as (Na & Fa & Ot). inversion F as [|? ? Hak Ft]; subst.
    repeat split.
    + rewrite in_app_iff. simpl. intuition.
    + apply Forall_app. split; [assumption | now constructor].
    + apply IH; tauto.
Qed.

Lemma ordered_insertIndex i k v o :
  JS.array_index k = Some i -> ~ In k (JS.keys o) ->
  JS.ordered (JS.keys o) -> JS.ordered (JS.keys (JS.insertIndex i k v o)).
Proof.
  intros Hk. induction o as [|[k' v'] t IH]; simpl; intros NI O.
  - repeat split; auto.
  - destruct O as (N' & F' & Ot).
    assert (Hall : Forall (JS.key_before k') (JS.keys t) ->
                   forall j, JS.array_index k' = Some j -> (i < j)%N ->
                   Forall (JS.key_before k) (JS.keys t)).
    { intros F j Hj Lt. eapply Forall_impl; [| exact F].
      intros a. unfold JS.key_before. rewrite Hk, Hj.
      destruct (JS.array_index a); [lia | tauto]. }
    destruct (JS.array_index k') as [j|] eqn:Hj.
    + destruct (N.ltb_spec j i) as [Lt|Ge]; simpl.
      * repeat split.
        -- rewrite keys_insertIndex_In. intuition.
        -- apply Forall_forall. intros x Hx.
           apply keys_insertIndex_In in Hx as [->|Hx].
           ++ unfold JS.key_before. now rewrite Hj, Hk.
           ++ rewrite Forall_forall in F'. auto.
        -- apply IH; tauto.
      * assert (i <> j).
        { intros ->. apply NI. left. eapply array_index_inj; eassumption. }
        repeat split; auto.
        constructor.
        -- unfold JS.key_before. rewrite Hk, Hj. lia.
        -- apply (Hall F' j eq_refl). lia.
    + simpl. repeat split; auto.
      constructor.
      * unfold JS.key_before. now rewrite Hk, Hj.
      * eapply Forall_impl; [| exact F'].
        intros a. unfold JS.key_before. rewrite Hk, Hj.
        destruct (JS.array_index a); tauto.
Qed.

(** An assignment keeps the engine's order. *)
Lemma ordered_defineOwn k v o :
  JS.ordered (JS.keys o) -> JS.ordered (JS.keys (JS.defineOwn k v o)).
Proof.
  intros O. unfold JS.defineOwn. destruct (JS.hasOwn k o) eqn:H.
  - now rewrite keys_replaceOwn.
  - apply hasOwn_false in H. destruct (JS.array_index k) as [i|] eqn:Hk.
    + now apply ordered_insertIndex.
    + unfold JS.keys. rewrite map_app. simpl.
      apply ordered_app_one; auto.
      (* a key that is no index goes after every key *)
      apply Forall_forall. intros a _. unfold JS.key_before. rewrite Hk.
      destruct (JS.array_index a); exact I.
Qed.

Lemma insertIndex_last i k v o :
  JS.array_index k = Some i ->
  Forall (fun a => JS.key_before a k) (JS.keys o) ->
  JS.insertIndex i k v o = (o ++ [(k, v)])%list.
Proof.
  intros Hk. induction o as [|[k' v'] t IH]; simpl; intros F; [reflexivity |].
  inversion F as [|? ? Hb Ft]; subst.
  unfold JS.key_before in Hb. rewrite Hk in Hb.
  destruct (JS.array_index k') as [j|]; [| contradiction].
  apply N.ltb_lt in Hb. rewrite Hb. now rewrite IH.
Qed.

Lemma ordered_app_inv ks k :
  JS.ordered (ks ++ [k])%list ->
  JS.ordered ks /\ ~ In k ks /\ Forall (fun a => JS.key_before a k) ks.
Proof.
  induction ks as [|a t IH]; simpl.
  - intros _. repeat split; auto.
  - intros (Na & Fa & Ot). apply IH in Ot as (Ot & Nk & Fk).
    rewrite in_app_iff in Na. apply Forall_app in Fa as [Fa Fk'].
    inversion Fk'; subst. simpl in Na.
    repeat split; auto.
    intros [->|H]; tauto.
Qed.

Lemma defineOwn_last k v o :
  JS.ordered (JS.keys o ++ [k])%list ->
  JS.defineOwn k v o = (o ++ [(k, v)])%list.
Proof.
  intros O. apply ordered_app_inv in O as (_ & NI & F).
  unfold JS.defineOwn. apply hasOwn_false in NI. rewrite NI.
  destruct (JS.array_index k) eqn:Hk; [| reflexivity].
  now apply insertIndex_last.
Qed.

Lemma ordered_prefix ks ks' : JS.ordered (ks ++ ks')%list -> JS.ordered ks.
Proof.
  induction ks as [|a t IH]; simpl; [tauto |].
  intros (Na & Fa & Ot). rewrite in_app_iff in Na.
  apply Forall_app in Fa as [Fa _]. repeat split; auto.
Qed.

(** Defining the members of an ordered object one by one rebuilds it. *)
Lemma fold_defineOwn_ordered (ms acc : JS.object V) :
  JS.ordered (JS.keys (acc ++ ms)%list) ->
  fold_left (fun o m => JS.defineOwn (fst m) (snd m) o) ms acc = (acc ++ ms)%list.
Proof.
  revert acc. induction ms as [|[k v] t IH]; intros acc O; simpl.
  - now rewrite app_nil_r.
  - assert (E : (acc ++ (k, v) :: t = (acc ++ [(k, v)]) ++ t)%list)
      by now rewrite <- app_assoc.
    rewrite E in O |- *.
    rewrite defineOwn_last.
    + now apply IH.
    + unfold JS.keys in O. rewrite !map_app in O. simpl in O.
      apply ordered_prefix in O. exact O.
Qed.

Lemma fold_defineOwn_keeps_order (ms acc : JS.object V) :
  JS.ordered (JS.keys acc) ->
  JS.ordered (JS.keys (fold_left (fun o m => JS.defineOwn (fst m) (snd m) o) ms acc)).
Proof.
  revert acc. induction ms as [|m t IH]; intros acc O; simpl; [assumption |].
  apply IH. now apply ordered_defineOwn.
Qed.
End WithValues.
End ObjectFacts.

(** ** JSON text *)

Module JSONFacts.
Import JSONSpec StringFacts ObjectFacts.

(** *** White space *)

Lemma blank_empty : blank "".
Proof. intros c []. Qed.

Lemma blank_cons c s : JSON.is_ws c = true -> blank s -> blank (String c s).
Proof. intros H B x [<-|I]; auto. Qed.

Lemma blank_append a b : blank a -> blank b -> blank (a ++ b).
Proof.
  induction a as [|c a IH]; simpl; intros A B; [assumption |].
  apply blank_cons.
  - apply A. now left.
  - apply IH; [| assumption]. intros x I. apply A. now right.
Qed.

Lemma blank_nl : blank JS.nl.
Proof. apply blank_cons; [reflexivity | apply blank_empty]. Qed.

Lemma blank_gap : blank JSON.gap.
Proof. repeat (apply blank_cons; [reflexivity |]). apply blank_empty. Qed.

Lemma skip_ws_blank b s : blank b -> JSON.skip_ws (b ++ s) = JSON.skip_ws s.
Proof.
  induction b as [|c b IH]; simpl; intros B; [reflexivity |].
  rewrite (B c) by now left.
  apply IH. intros x I. apply B. now right.
Qed.

Lemma skip_ws_stop c s : JSON.is_ws c = false -> JSON.skip_ws (String c s) = String c s.
Proof. intros H. simpl. now rewrite H. Qed.

(** *** String literals *)

Lemma parse_quote_unit c r :
  JSON.parse_units false (JSON.quote_unit c ++ r) = JSON.cons_unit c (JSON.parse_units false r).
Proof.
  destruct c as [[] [] [] [] [] [] [] []]; reflexivity.
Qed.

Lemma parse_quote_units s rest :
  JSON.parse_units false (JSON.quote_units s ++ String JS.dquote rest) = Some (s, rest).
Proof.
  induction s as [|c s IH]; simpl.
  - reflexivity.
  - now rewrite append_assoc, parse_quote_unit, IH.
Qed.

Lemma quote_append s rest :
  JSON.quote s ++ rest = String JS.dquote (JSON.quote_units s ++ String JS.dquote rest).
Proof. unfold JSON.quote. simpl. now rewrite append_assoc. Qed.

(** *** Numbers *)

Lemma span_number_token tok rest :
  number_chars tok = true -> delimited rest ->
  JSON.span_number (tok ++ rest) = (tok, rest).
Proof.
  induction tok as [|c tok IH]; simpl; intros T D.
  - destruct rest as [|c r]; simpl in *; [reflexivity | now rewrite D].
  - apply andb_true_iff in T as [C T]. now rewrite C, IH.
Qed.

Lemma span_number_chars s : number_chars (fst (JSON.span_number s)) = true.
Proof.
  induction s as [|c s IH]; simpl; [reflexivity |].
  destruct (JSON.number_char c) eqn:C; [| reflexivity].
  destruct (JSON.span_number s) as [tok rest]. simpl in *. now rewrite C, IH.
Qed.

Lemma span_number_append s : fst (JSON.span_number s) ++ snd (JSON.span_number s) = s.
Proof.
  induction s as [|c s IH]; simpl; [reflexivity |].
  destruct (JSON.number_char c); [| reflexivity].
  destruct (JSON.span_number s) as [tok rest]. simpl in *. now rewrite IH.
Qed.

Lemma valid_number_head tok :
  JSON.valid_number tok = true ->
  exists c r, tok = String c r /\ (Ascii.eqb c "-" || JS.is_digit c = true).
Proof.
  destruct tok as [|c r]; simpl; [discriminate |].
  intros H. exists c, r. split; [reflexivity |].
  destruct (Ascii.eqb c "-"); [reflexivity |]. simpl in *.
  destruct (Ascii.eqb c "0") eqn:Z.
  - apply Ascii.eqb_eq in Z. now subst c.
  - now apply andb_true_iff in H as [H _].
Qed.

Lemma safe_integer_valid tok : JSON.safe_integer tok = true -> JSON.valid_number tok = true.
Proof. unfold JSON.safe_integer. intros H. now apply andb_true_iff in H as [V _]. Qed.

Lemma digits_number_chars s : forall acc n,
  JS.digits_value s acc = Some n -> number_chars s = true.
Proof.
  induction s as [|c s IH]; intros acc n; simpl; [reflexivity |].
  unfold JSON.number_char. destruct (JS.is_digit c); [| discriminate].
  simpl. apply IH.
Qed.

Lemma safe_magnitude_chars s nonzero :
  JSON.safe_magnitude s nonzero = true -> number_chars s = true.
Proof.
  unfold JSON.safe_magnitude.
  destruct (JS.digits_value s 0) as [n|] eqn:D; [| discriminate].
  intros _. now apply digits_number_chars with 0%N n.
Qed.

Lemma safe_integer_chars tok : JSON.safe_integer tok = true -> number_chars tok = true.
Proof.
  unfold JSON.safe_integer. intros H. apply andb_true_iff in H as [_ H].
  destruct tok as [|c digits]; [reflexivity |].
  destruct (Ascii.eqb c "-") eqn:M.
  - apply Ascii.eqb_eq in M. subst c. simpl.
    now apply safe_magnitude_chars with true.
  - now apply safe_magnitude_chars with false.
Qed.

(** The first character of a number sends [parse_value] to the number
    branch. *)
Lemma number_head_dispatch c :
  Ascii.eqb c "-" || JS.is_digit c = true ->
  JSON.is_ws c = false /\ Ascii.eqb c "{" = false /\ Ascii.eqb c "[" = false /\
  Ascii.eqb c JS.dquote = false /\ Ascii.eqb c "t" = false /\
  Ascii.eqb c "f" = false /\ Ascii.eqb c "n" = false /\
  Ascii.eqb c "]" = false /\ Ascii.eqb c "}" = false.
Proof.
  destruct c as [[] [] [] [] [] [] [] []]; intros H;
    first [discriminate H | repeat split; reflexivity].
Qed.

(** *** Values that the printer and the parser agree on *)

(** The text of a value never starts with white space nor with a closing
    bracket. *)
Lemma stringify_head v indent :
  printable v ->
  exists c r, JSON.stringify_at indent v = String c r /\
              JSON.is_ws c = false /\ Ascii.eqb c "]" = false.
Proof.
  intros P. destruct P as [|b|tok V|s|l F|ms O F].
  - now exists "n"%char, "ull".
  - destruct b; simpl; eexists _, _; repeat split.
  - apply safe_integer_valid, valid_number_head in V as (c & r & -> & H).
    apply number_head_dispatch in H. exists c, r. simpl. tauto.
  - unfold JSON.stringify_at, JSON.quote. eexists _, _; repeat split.
  - destruct l; simpl; eexists _, _; repeat split.
  - destruct ms as [|[k x] ms]; simpl; eexists _, _; repeat split.
Qed.

(** *** Reading back what was printed *)

Lemma delimited_comma s : delimited ("," ++ s).
Proof. reflexivity. Qed.

Lemma delimited_nl s : delimited (JS.nl ++ s).
Proof. reflexivity. Qed.

Lemma more_elements_delimited print inner xs tail :
  delimited (JSON.more_elements print inner xs ++ JS.nl ++ tail).
Proof. destruct xs; reflexivity. Qed.

Lemma more_members_delimited print inner ms tail :
  delimited (JSON.more_members print inner ms ++ JS.nl ++ tail).
Proof. destruct ms as [|[k x] ms]; reflexivity. Qed.

Lemma strip_prefix_append p s : JSON.strip_prefix p (p ++ s) = Some s.
Proof.
  induction p as [|c p IH]; simpl; [reflexivity |].
  now rewrite Ascii.eqb_refl.
Qed.

Lemma parse_value_array n ws R :
  blank ws ->
  JSON.parse_value false (S n) (ws ++ String "[" R) =
  match JSON.skip_ws R with
  | "" => None
  | String c' r' =>
      if Ascii.eqb c' "]" then Some (JSON.Arr [], r')
      else match JSON.parse_elements false n (String c' r') with
           | Some (vs, rest) => Some (JSON.Arr vs, rest)
           | None => None
           end
  end.
Proof. intros B. simpl. now rewrite skip_ws_blank. Qed.

Lemma parse_value_object n ws R :
  blank ws ->
  JSON.parse_value false (S n) (ws ++ String "{" R) =
  match JSON.skip_ws R with
  | "" => None
  | String c' r' =>
      if Ascii.eqb c' "}" then Some (JSON.Obj [], r')
      else match JSON.parse_members false n (String c' r') with
           | Some (ms, rest) => Some (JSON.Obj (JSON.build_object ms), rest)
           | None => None
           end
  end.
Proof. intros B. simpl. now rewrite skip_ws_blank. Qed.

Lemma parse_value_string n ws R :
  blank ws ->
  JSON.parse_value false (S n) (ws ++ String JS.dquote R) =
  match JSON.parse_units false R with
  | Some (str, rest) => Some (JSON.Str str, rest)
  | None => None
  end.
Proof. intros B. simpl. now rewrite skip_ws_blank. Qed.

Lemma parse_value_number n ws c r :
  blank ws -> Ascii.eqb c "-" || JS.is_digit c = true ->
  JSON.parse_value false (S n) (ws ++ String c r) =
  let (tok, rest) := JSON.span_number (String c r) in
  if JSON.safe_integer tok then Some (JSON.Num tok, rest) else None.
Proof.
  intros B H. apply number_head_dispatch in H as (W & H1 & H2 & H3 & H4 & H5 & H6 & _).
  simpl. rewrite skip_ws_blank by assumption. simpl.
  now rewrite W, H1, H2, H3, H4, H5, H6.
Qed.

Lemma parse_members_S n ws R :
  blank ws ->
  JSON.parse_members false (S n) (ws ++ String JS.dquote R) =
  match JSON.parse_units false R with
  | None => None
  | Some (k, r1) =>
      match JSON.skip_ws r1 with
      | "" => None
      | String colon r2 =>
          if Ascii.eqb colon ":" then
            match JSON.parse_value false n r2 with
            | None => None
            | Some (v, r3) =>
                match JSON.skip_ws r3 with
                | "" => None
                | String c r4 =>
                    if Ascii.eqb c "," then
                      match JSON.parse_members false n r4 with
                      | Some (ms, rest) => Some ((k, v) :: ms, rest)
                      | None => None
                      end
                    else if Ascii.eqb c "}" then Some ([(k, v)], r4)
                    else None
                end
            end
          else None
      end
  end.
Proof. intros B. simpl. now rewrite skip_ws_blank. Qed.

Ltac fuel_succ fuel n :=
  destruct fuel as [|n]; [simpl in *; lia |].

Lemma parse_elements_back inner indent rest :
  blank inner -> blank indent ->
  forall xs x, reads_back x -> Forall reads_back xs ->
  forall ws fuel, blank ws ->
    elements_size size (x :: xs) <= fuel ->
    JSON.parse_elements false fuel
      (ws ++ JSON.stringify_at inner x ++
       JSON.more_elements (JSON.stringify_at inner) inner xs ++
       JS.nl ++ indent ++ String "]" rest)
    = Some (x :: xs, rest).
Proof.
  intros Bin Bind. induction xs as [|y l IH]; intros x Hx Hl ws fuel Bws Hf.
  - fuel_succ fuel n. simpl JSON.more_elements.
    cbn [JSON.parse_elements]. rewrite (Hx inner ws); auto; [| reflexivity | simpl in Hf; lia].
    change ("" ++ ?s) with s.
    rewrite skip_ws_blank by apply blank_nl.
    rewrite skip_ws_blank by assumption.
    reflexivity.
  - fuel_succ fuel n. inversion Hl as [|? ? Hy Hl']; subst.
    cbn [JSON.parse_elements]. rewrite (Hx inner ws); auto;
      [| apply more_elements_delimited | simpl in Hf; lia].
    cbn [JSON.more_elements].
    change ("," ++ ?s) with (String "," s). rewrite ?append_assoc.
    change (String "," ?a ++ ?b) with (String "," (a ++ b)).
    rewrite skip_ws_stop by reflexivity.
    change (Ascii.eqb "," ",") with true. cbv iota.
    rewrite ?append_assoc.
    rewrite <- (append_assoc JS.nl inner).
    rewrite IH; auto.
    + apply blank_append; [apply blank_nl | assumption].
    + simpl in Hf |- *. lia.
Qed.

Lemma parse_members_back inner indent rest :
  blank inner -> blank indent ->
  forall ms k x, reads_back x -> Forall (fun m => reads_back (snd m)) ms ->
  forall ws fuel, blank ws ->
    members_size size ((k, x) :: ms) <= fuel ->
    JSON.parse_members false fuel
      (ws ++ JSON.quote k ++ ": " ++ JSON.stringify_at inner x ++
       JSON.more_members (JSON.stringify_at inner) inner ms ++
       JS.nl ++ indent ++ String "}" rest)
    = Some ((k, x) :: ms, rest).
Proof.
  intros Bin Bind. induction ms as [|[k' y] l IH]; intros k x Hx Hl ws fuel Bws Hf.
  - fuel_succ fuel n. cbn [JSON.more_members].
    rewrite quote_append, parse_members_S, parse_quote_units by assumption.
    change (": " ++ ?s) with (String ":" (" " ++ s)).
    rewrite skip_ws_stop by reflexivity.
    change (Ascii.eqb ":" ":") with true. cbv iota.
    rewrite (Hx inner " ");
      [| assumption | apply blank_cons; [reflexivity | apply blank_empty]
       | reflexivity | simpl in Hf; lia].
    change ("" ++ ?s) with s.
    rewrite skip_ws_blank by apply blank_nl.
    rewrite skip_ws_blank by assumption.
    reflexivity.
  - fuel_succ fuel n. inversion Hl as [|? ? Hy Hl']; subst. simpl in Hy.
    cbn [JSON.more_members].
    rewrite quote_append, parse_members_S, parse_quote_units by assumption.
    change (": " ++ ?s) with (String ":" (" " ++ s)).
    rewrite skip_ws_stop by reflexivity.
    change (Ascii.eqb ":" ":") with true. cbv iota.
    rewrite (Hx inner " ");
      [| assumption | apply blank_cons; [reflexivity | apply blank_empty]
       | | simpl in Hf; lia].
    2:{ change (delimited (JSON.more_members (JSON.stringify_at inner) inner ((k', y) :: l)
                           ++ JS.nl ++ indent ++ String "}" rest)).
        apply more_members_delimited. }
    change ("," ++ ?s) with (String "," s). rewrite ?append_assoc.
    change (String "," ?a ++ ?b) with (String "," (a ++ b)).
    rewrite skip_ws_stop by reflexivity.
    change (Ascii.eqb "," ",") with true. cbv iota.
    rewrite ?append_assoc.
    rewrite <- (append_assoc JS.nl inner).
    rewrite IH; auto.
    + apply blank_append; [apply blank_nl | assumption].
    + simpl in Hf |- *. lia.
Qed.

Lemma blank_inner indent : blank indent -> blank (indent ++ JSON.gap).
Proof. intros B. apply blank_append; [assumption | apply blank_gap]. Qed.

(** Printing a value and parsing the text gives the value back. *)
Theorem parse_stringify_at v : printable v -> reads_back v.
Proof.
  induction v as [|b|tok|s|l IH|ms IH] using value_induction;
    intros P indent ws rest fuel Bi Bw D Hf; fuel_succ fuel n.
  - simpl JSON.stringify_at. 
    change ("null" ++ rest) with (String "n" ("ull" ++ rest)).
    simpl. rewrite skip_ws_blank by assumption. reflexivity.
  - destruct b; simpl; rewrite skip_ws_blank by assumption; reflexivity.
  - inversion P as [| |? Safe| | |]; subst.
    pose proof (safe_integer_chars _ Safe) as C.
    destruct (valid_number_head _ (safe_integer_valid _ Safe)) as (c & r & -> & H).
    cbn [JSON.stringify_at].
    change (String c r ++ rest) with (String c (r ++ rest)).
    rewrite parse_value_number by assumption.
    change (String c (r ++ rest)) with (String c r ++ rest).
    rewrite span_number_token by assumption. now rewrite Safe.
  - cbn [JSON.stringify_at].
    rewrite quote_append, parse_value_string, parse_quote_units by assumption.
    reflexivity.
  - inversion P as [| | | |? F|]; subst.
    assert (R : Forall reads_back l).
    { rewrite Forall_forall in *. auto. }
    destruct l as [|x xs].
    + simpl JSON.stringify_at. change ("[]" ++ rest) with (String "[" (String "]" rest)).
      rewrite parse_value_array by assumption. reflexivity.
    + inversion R as [|? ? Rx Rxs]; subst. inversion F as [|? ? Px Pxs]; subst.
      cbn [JSON.stringify_at]. cbv zeta.
      change ("[" ++ ?s) with (String "[" s). rewrite ?append_assoc.
      change (String "[" ?a ++ ?b) with (String "[" (a ++ b)).
      rewrite parse_value_array by assumption.
      rewrite ?append_assoc.
      rewrite skip_ws_blank by apply blank_nl.
      rewrite skip_ws_blank by assumption.
      rewrite skip_ws_blank by apply blank_gap.
      destruct (stringify_head x (indent ++ JSON.gap) Px) as (c & r & Hc & W & Hb).
      rewrite Hc at 1.
      change (String c r ++ ?s) with (String c (r ++ s)).
      rewrite skip_ws_stop, Hb by assumption.
      change (String c (r ++ ?s)) with ("" ++ String c r ++ s).
      rewrite <- Hc.
      change ("]" ++ rest) with (String "]" rest).
      rewrite parse_elements_back; auto.
      * now apply blank_inner.
      * apply blank_empty.
      * simpl in Hf |- *. lia.
  - inversion P as [| | | | |? O F]; subst.
    assert (R : Forall (fun m => reads_back (snd m)) ms).
    { rewrite Forall_forall in *. auto. }
    destruct ms as [|[k x] ms'].
    + simpl JSON.stringify_at. change ("{}" ++ rest) with (String "{" (String "}" rest)).
      rewrite parse_value_object by assumption. reflexivity.
    + inversion R as [|? ? Rx Rxs]; subst. simpl in Rx.
      cbn [JSON.stringify_at]. cbv zeta.
      change ("{" ++ ?s) with (String "{" s). rewrite ?append_assoc.
      change (String "{" ?a ++ ?b) with (String "{" (a ++ b)).
      rewrite parse_value_object by assumption.
      rewrite ?append_assoc.
      rewrite skip_ws_blank by apply blank_nl.
      rewrite skip_ws_blank by assumption.
      rewrite skip_ws_blank by apply blank_gap.
      rewrite quote_append.
      rewrite skip_ws_stop by reflexivity.
      change (Ascii.eqb JS.dquote "}") with false. cbv iota.
      rewrite <- quote_append.
      change (JSON.quote k ++ ?s) with ("" ++ JSON.quote k ++ s).
      change ("}" ++ rest) with (String "}" rest).
      rewrite parse_members_back; auto.
      * unfold JSON.build_object.
        rewrite (ObjectFacts.fold_defineOwn_ordered _ []) by exact O.
        reflexivity.
      * now apply blank_inner.
      * apply blank_empty.
      * simpl in Hf |- *. lia.
Qed.

Lemma more_elements_size inner xs :
  Forall (fun v => forall indent, size v <= 2 * String.length (JSON.stringify_at indent v) + 1) xs ->
  elements_size size xs <=
  2 * String.length (JSON.more_elements (JSON.stringify_at inner) inner xs).
Proof.
  induction 1 as [|y l Hy _ IH]; [simpl; lia |].
  cbn [JSON.more_elements elements_size].
  rewrite !length_append. specialize (Hy inner). simpl in Hy, IH |- *. lia.
Qed.

Lemma more_members_size inner ms :
  Forall (fun m => forall indent,
            size (snd m) <= 2 * String.length (JSON.stringify_at indent (snd m)) + 1) ms ->
  members_size size ms <=
  2 * String.length (JSON.more_members (JSON.stringify_at inner) inner ms).
Proof.
  induction 1 as [|[k y] l Hy _ IH]; [simpl; lia |].
  cbn [JSON.more_members members_size snd].
  rewrite !length_append. specialize (Hy inner). simpl in Hy, IH |- *. lia.
Qed.

Lemma size_bound v :
  forall indent, size v <= 2 * String.length (JSON.stringify_at indent v) + 1.
Proof.
  induction v as [|b|tok|s|l IH|ms IH] using value_induction; intros indent;
    try (simpl; lia).
  - destruct l as [|x xs]; [simpl; lia |].
    inversion IH as [|? ? Hx Hxs]; subst.
    apply (more_elements_size (indent ++ JSON.gap)) in Hxs.
    specialize (Hx (indent ++ JSON.gap)).
    cbn [JSON.stringify_at size elements_size]. cbv zeta.
    rewrite !length_append. simpl String.length. 
    lia.
  - destruct ms as [|[k x] ms']; [simpl; lia |].
    inversion IH as [|? ? Hx Hxs]; subst.
    apply (more_members_size (indent ++ JSON.gap)) in Hxs.
    specialize (Hx (indent ++ JSON.gap)). simpl in Hx.
    cbn [JSON.stringify_at size members_size]. cbv zeta.
    rewrite !length_append. simpl String.length.
    simpl snd. lia.
Qed.

Theorem parse_stringify v : printable v -> JSON.parse (JSON.stringify v) = Some v.
Proof.
  intros P. unfold JSON.parse, JSON.stringify.
  pose proof (parse_stringify_at v P "" "" "" (2 * String.length (JSON.stringify_at "" v) + 1)
                blank_empty blank_empty I (size_bound v "")) as H.
  simpl append in H. rewrite append_nil_r in H. now rewrite H.
Qed.

(** *** What the parser builds *)

Lemma replaceOwn_In {V} k v (o : JS.object V) m :
  In m (JS.replaceOwn k v o) -> m = (k, v) \/ In m o.
Proof.
  induction o as [|[k' v'] t IH]; simpl; [intros [] |].
  destruct (String.eqb_spec k k') as [->|]; simpl; intuition.
Qed.

Lemma insertIndex_In {V} i k v (o : JS.object V) m :
  In m (JS.insertIndex i k v o) -> m = (k, v) \/ In m o.
Proof.
  induction o as [|[k' v'] t IH]; simpl; [intuition |].
  destruct (JS.array_index k') as [j|]; [destruct (j <? i)%N |]; simpl; intuition.
Qed.

Lemma defineOwn_In {V} k v (o : JS.object V) m :
  In m (JS.defineOwn k v o) -> m = (k, v) \/ In m o.
Proof.
  unfold JS.defineOwn. destruct (JS.hasOwn k o).
  - apply replaceOwn_In.
  - destruct (JS.array_index k) as [i|].
    + apply insertIndex_In.
    + rewrite in_app_iff. simpl. intuition.
Qed.

Lemma build_object_Forall {V} (P : string * V -> Prop) ms : forall acc,
  Forall P ms -> Forall P acc ->
  Forall P (fold_left (fun o m => JS.defineOwn (fst m) (snd m) o) ms acc).
Proof.
  induction ms as [|[k v] t IH]; intros acc Hm Ha; simpl; [assumption |].
  inversion Hm; subst. apply IH; [assumption |].
  apply Forall_forall. intros m I. apply defineOwn_In in I as [->|I]; [assumption |].
  rewrite Forall_forall in Ha. auto.
Qed.

Lemma parse_literal_value word v s r x :
  JSON.parse_literal word v s = Some (x, r) -> x = v.
Proof. unfold JSON.parse_literal. destruct (JSON.strip_prefix word s); congruence. Qed.

Lemma parsed_printable fuel :
  (forall s v r, JSON.parse_value false fuel s = Some (v, r) -> printable v) /\
  (forall s vs r, JSON.parse_elements false fuel s = Some (vs, r) -> Forall printable vs) /\
  (forall s ms r, JSON.parse_members false fuel s = Some (ms, r) ->
                  Forall (fun m => printable (snd m)) ms).
Proof.
  induction fuel as [|n (IHv & IHe & IHm)]; [repeat split; discriminate |].
  repeat split.
  - intros s v r H. cbn [JSON.parse_value] in H.
    destruct (JSON.skip_ws s) as [|c t]; [discriminate |].
    destruct (Ascii.eqb c "{").
    { destruct (JSON.skip_ws t) as [|c' t']; [discriminate |].
      destruct (Ascii.eqb c' "}").
      - injection H as <- _. constructor; [exact I | constructor].
      - destruct (JSON.parse_members false n (String c' t')) as [[ms rest]|] eqn:Hm; [| discriminate].
        injection H as <- _. apply IHm in Hm. constructor.
        + apply (fold_defineOwn_keeps_order ms []). exact I.
        + now apply build_object_Forall. }
    destruct (Ascii.eqb c "[").
    { destruct (JSON.skip_ws t) as [|c' t']; [discriminate |].
      destruct (Ascii.eqb c' "]").
      - injection H as <- _. constructor. constructor.
      - destruct (JSON.parse_elements false n (String c' t')) as [[vs rest]|] eqn:He; [| discriminate].
        injection H as <- _. constructor. eapply IHe; eassumption. }
    destruct (Ascii.eqb c JS.dquote).
    { destruct (JSON.parse_units false t) as [[str rest]|]; [| discriminate].
      injection H as <- _. constructor. }
    destruct (Ascii.eqb c "t").
    { apply parse_literal_value in H as ->. constructor. }
    destruct (Ascii.eqb c "f").
    { apply parse_literal_value in H as ->. constructor. }
    destruct (Ascii.eqb c "n").
    { apply parse_literal_value in H as ->. constructor. }
    destruct (JSON.span_number (String c t)) as [tok rest].
    destruct (JSON.safe_integer tok) eqn:V; [| discriminate].
    injection H as <- _. now constructor.
  - intros s vs r H. cbn [JSON.parse_elements] in H.
    destruct (JSON.parse_value false n s) as [[v r1]|] eqn:Hv; [| discriminate].
    apply IHv in Hv.
    destruct (JSON.skip_ws r1) as [|c t]; [discriminate |].
    destruct (Ascii.eqb c ",").
    + destruct (JSON.parse_elements false n t) as [[vs' r2]|] eqn:He; [| discriminate].
      injection H as <- _. constructor; [assumption | eapply IHe; eassumption].
    + destruct (Ascii.eqb c "]"); [| discriminate].
      injection H as <- _. now repeat constructor.
  - intros s ms r H. cbn [JSON.parse_members] in H.
    destruct (JSON.skip_ws s) as [|q t]; [discriminate |].
    destruct (Ascii.eqb q JS.dquote); [| discriminate].
    destruct (JSON.parse_units false t) as [[k r1]|]; [| discriminate].
    destruct (JSON.skip_ws r1) as [|colon r2]; [discriminate |].
    destruct (Ascii.eqb colon ":"); [| discriminate].
    destruct (JSON.parse_value false n r2) as [[v r3]|] eqn:Hv; [| discriminate].
    apply IHv in Hv.
    destruct (JSON.skip_ws r3) as [|c r4]; [discriminate |].
    destruct (Ascii.eqb c ",").
    + destruct (JSON.parse_members false n r4) as [[ms' r5]|] eqn:Hm; [| discriminate].
      injection H as <- _. constructor; [assumption | eapply IHm; eassumption].
    + destruct (Ascii.eqb c "}"); [| discriminate].
      injection H as <- _. now repeat constructor.
Qed.

Theorem parse_printable s v : JSON.parse s = Some v -> printable v.
Proof.
  unfold JSON.parse. intros H.
  destruct (JSON.parse_value false _ s) as [[x r]|] eqn:P; [| discriminate].
  destruct (JSON.skip_ws r); [| discriminate].
  injection H as <-. eapply parsed_printable. eassumption.
Qed.

(** *** The fuel of [JSON.parse] is enough *)

Lemma skip_ws_length s : String.length (JSON.skip_ws s) <= String.length s.
Proof.
  induction s as [|c s IH]; simpl; [lia |].
  destruct (JSON.is_ws c); simpl; lia.
Qed.

Lemma skip_ws_tail s c t :
  JSON.skip_ws s = String c t -> String.length t < String.length s.
Proof. intros H. pose proof (skip_ws_length s) as L. rewrite H in L. simpl in L. lia. Qed.

Lemma cons_unit_inv c o k r :
  JSON.cons_unit c o = Some (k, r) -> exists k', o = Some (k', r).
Proof. destruct o as [[k' r']|]; simpl; [| discriminate]. intros [= _ ->]. now exists k'. Qed.

Section Fuel.
Variable lenient : bool.

Lemma parse_units_length n : forall s k r,
  String.length s <= n -> JSON.parse_units lenient s = Some (k, r) ->
  String.length r < String.length s.
Proof.
  induction n as [|n IH]; intros s k r L H.
  - destruct s; [discriminate | simpl in L; lia].
  - destruct s as [|c s]; [discriminate |]. simpl in L. cbn [JSON.parse_units] in H.
    destruct (Ascii.eqb c JS.dquote).
    { injection H as _ <-. simpl. lia. }
    destruct (Ascii.eqb c JS.backslash).
    { destruct s as [|e r1]; [discriminate |].
      destruct (Ascii.eqb e "u").
      - destruct r1 as [|h1 [|h2 [|h3 [|h4 r2]]]]; try discriminate.
        destruct (JSON.unicode_escape lenient h1 h2 h3 h4); [| discriminate].
        apply cons_unit_inv in H as [k' H]. apply IH in H; simpl in *; lia.
      - destruct (JSON.simple_escape e); [| discriminate].
        apply cons_unit_inv in H as [k' H]. apply IH in H; simpl in *; lia. }
    destruct (nat_of_ascii c <? 32)%nat; [discriminate |].
    apply cons_unit_inv in H as [k' H]. apply IH in H; simpl in *; lia.
Qed.

Lemma parse_units_shorter s k r :
  JSON.parse_units lenient s = Some (k, r) -> String.length r < String.length s.
Proof. now apply parse_units_length with (String.length s). Qed.

Lemma strip_prefix_length p : forall s r,
  JSON.strip_prefix p s = Some r -> String.length s = String.length p + String.length r.
Proof.
  induction p as [|a p IH]; simpl; intros s r H.
  - now injection H as ->.
  - destruct s as [|b s]; [discriminate |].
    destruct (Ascii.eqb a b); [| discriminate]. simpl. now rewrite (IH s r H).
Qed.

Lemma parse_literal_shorter word v s x r :
  word <> "" -> JSON.parse_literal word v s = Some (x, r) ->
  String.length r < String.length s.
Proof.
  unfold JSON.parse_literal. intros N H.
  destruct (JSON.strip_prefix word s) as [rest|] eqn:S; [| discriminate].
  injection H as _ <-. apply strip_prefix_length in S.
  destruct word; [contradiction | simpl in S; lia].
Qed.

Lemma span_number_shorter s tok rest :
  JSON.span_number s = (tok, rest) -> tok <> "" ->
  String.length rest < String.length s.
Proof.
  intros H V. pose proof (span_number_append s) as A. rewrite H in A. simpl in A.
  rewrite <- A, length_append. destruct tok; [contradiction | simpl; lia].
Qed.

(** A parse that succeeds with some fuel reads at least one character and
    succeeds with the fuel of [JSON.parse]. *)
Lemma fuel_enough fuel :
  (forall s v r, JSON.parse_value lenient fuel s = Some (v, r) ->
     String.length r < String.length s /\
     forall f, 2 * String.length s + 1 <= f -> JSON.parse_value lenient f s = Some (v, r)) /\
  (forall s vs r, JSON.parse_elements lenient fuel s = Some (vs, r) ->
     String.length r < String.length s /\
     forall f, 2 * String.length s + 2 <= f -> JSON.parse_elements lenient f s = Some (vs, r)) /\
  (forall s ms r, JSON.parse_members lenient fuel s = Some (ms, r) ->
     String.length r < String.length s /\
     forall f, 2 * String.length s + 2 <= f -> JSON.parse_members lenient f s = Some (ms, r)).
Proof.
  induction fuel as [|n (IHv & IHe & IHm)]; [repeat split; discriminate |].
  split; [| split].
  - intros s v r H. cbn [JSON.parse_value] in H.
    destruct (JSON.skip_ws s) as [|c t] eqn:W; [discriminate |].
    pose proof (skip_ws_tail s c t W) as Lt.
    assert (Step : forall f, 2 * String.length s + 1 <= f -> exists m, f = S m /\
                              2 * String.length s <= m).
    { intros [|m] Hf; [lia |]. exists m. split; [reflexivity | lia]. }
    destruct (Ascii.eqb c "{") eqn:C1.
    { destruct (JSON.skip_ws t) as [|c' t'] eqn:W'; [discriminate |].
      pose proof (skip_ws_tail t c' t' W') as Lt'.
      destruct (Ascii.eqb c' "}") eqn:C2.
      - injection H as <- <-. split; [lia |].
        intros f Hf. destruct (Step f Hf) as (m & -> & _).
        cbn [JSON.parse_value]. now rewrite W, C1, W', C2.
      - destruct (JSON.parse_members lenient n (String c' t')) as [[ms rest]|] eqn:Hm; [| discriminate].
        injection H as <- <-. apply IHm in Hm as [L Hm]. simpl in L. split; [lia |].
        intros f Hf. destruct (Step f Hf) as (m & -> & Hm').
        cbn [JSON.parse_value]. rewrite W, C1, W', C2, Hm; [reflexivity |]. simpl. lia. }
    destruct (Ascii.eqb c "[") eqn:C2.
    { destruct (JSON.skip_ws t) as [|c' t'] eqn:W'; [discriminate |].
      pose proof (skip_ws_tail t c' t' W') as Lt'.
      destruct (Ascii.eqb c' "]") eqn:C3.
      - injection H as <- <-. split; [lia |].
        intros f Hf. destruct (Step f Hf) as (m & -> & _).
        cbn [JSON.parse_value]. now rewrite W, C1, C2, W', C3.
      - destruct (JSON.parse_elements lenient n (String c' t')) as [[vs rest]|] eqn:He; [| discriminate].
        injection H as <- <-. apply IHe in He as [L He]. simpl in L. split; [lia |].
        intros f Hf. destruct (Step f Hf) as (m & -> & Hm').
        cbn [JSON.parse_value]. rewrite W, C1, C2, W', C3, He; [reflexivity |]. simpl. lia. }
    destruct (Ascii.eqb c JS.dquote) eqn:C3.
    { destruct (JSON.parse_units lenient t) as [[str rest]|] eqn:U; [| discriminate].
      injection H as <- <-. apply parse_units_shorter in U as L. split; [lia |].
      intros f Hf. destruct (Step f Hf) as (m & -> & _).
      cbn [JSON.parse_value]. now rewrite W, C1, C2, C3, U. }
    destruct (Ascii.eqb c "t") eqn:C4.
    { pose proof (parse_literal_shorter "true" _ _ _ _ ltac:(discriminate) H) as L.
      simpl in L. split; [lia |].
      intros f Hf. destruct (Step f Hf) as (m & -> & _).
      cbn [JSON.parse_value]. now rewrite W, C1, C2, C3, C4. }
    destruct (Ascii.eqb c "f") eqn:C5.
    { pose proof (parse_literal_shorter "false" _ _ _ _ ltac:(discriminate) H) as L.
      simpl in L. split; [lia |].
      intros f Hf. destruct (Step f Hf) as (m & -> & _).
      cbn [JSON.parse_value]. now rewrite W, C1, C2, C3, C4, C5. }
    destruct (Ascii.eqb c "n") eqn:C6.
    { pose proof (parse_literal_shorter "null" _ _ _ _ ltac:(discriminate) H) as L.
      simpl in L. split; [lia |].
      intros f Hf. destruct (Step f Hf) as (m & -> & _).
      cbn [JSON.parse_value]. now rewrite W, C1, C2, C3, C4, C5, C6. }
    destruct (JSON.span_number (String c t)) as [tok rest] eqn:Sp.
    destruct (if lenient then JSON.valid_number tok else JSON.safe_integer tok) eqn:V;
      [| discriminate].
    assert (N : tok <> "") by (intros ->; destruct lenient; discriminate V).
    injection H as <- <-. pose proof (span_number_shorter _ _ _ Sp N) as L.
    simpl in L. split; [lia |].
    intros f Hf. destruct (Step f Hf) as (m & -> & _).
    cbn [JSON.parse_value]. now rewrite W, C1, C2, C3, C4, C5, C6, Sp, V.
  - intros s vs r H. cbn [JSON.parse_elements] in H.
    destruct (JSON.parse_value lenient n s) as [[v r1]|] eqn:Hv; [| discriminate].
    apply IHv in Hv as [L1 Hv].
    destruct (JSON.skip_ws r1) as [|c t] eqn:W; [discriminate |].
    pose proof (skip_ws_tail r1 c t W) as Lt.
    destruct (Ascii.eqb c ",") eqn:C1.
    + destruct (JSON.parse_elements lenient n t) as [[vs' r2]|] eqn:He; [| discriminate].
      injection H as <- <-. apply IHe in He as [L2 He]. split; [lia |].
      intros [|m] Hf; [lia |]. cbn [JSON.parse_elements].
      rewrite Hv by lia. rewrite W, C1, He; [reflexivity | lia].
    + destruct (Ascii.eqb c "]") eqn:C2; [| discriminate].
      injection H as <- <-. split; [lia |].
      intros [|m] Hf; [lia |]. cbn [JSON.parse_elements].
      rewrite Hv by lia. now rewrite W, C1, C2.
  - intros s ms r H. cbn [JSON.parse_members] in H.
    destruct (JSON.skip_ws s) as [|q t] eqn:W0; [discriminate |].
    pose proof (skip_ws_tail s q t W0) as L0.
    destruct (Ascii.eqb q JS.dquote) eqn:Q; [| discriminate].
    destruct (JSON.parse_units lenient t) as [[k r1]|] eqn:U; [| discriminate].
    apply parse_units_shorter in U as L1.
    destruct (JSON.skip_ws r1) as [|colon r2] eqn:W1; [discriminate |].
    pose proof (skip_ws_tail r1 colon r2 W1) as L2.
    destruct (Ascii.eqb colon ":") eqn:Co; [| discriminate].
    destruct (JSON.parse_value lenient n r2) as [[v r3]|] eqn:Hv; [| discriminate].
    apply IHv in Hv as [L3 Hv].
    destruct (JSON.skip_ws r3) as [|c r4] eqn:W3; [discriminate |].
    pose proof (skip_ws_tail r3 c r4 W3) as L4.
    destruct (Ascii.eqb c ",") eqn:C1.
    + destruct (JSON.parse_members lenient n r4) as [[ms' r5]|] eqn:Hm; [| discriminate].
      injection H as <- <-. apply IHm in Hm as [L5 Hm]. split; [lia |].
      intros [|m] Hf; [lia |]. cbn [JSON.parse_members].
      rewrite W0, Q, U, W1, Co, Hv by lia. rewrite W3, C1, Hm; [reflexivity | lia].
    + destruct (Ascii.eqb c "}") eqn:C2; [| discriminate].
      injection H as <- <-. split; [lia |].
      intros [|m] Hf; [lia |]. cbn [JSON.parse_members].
      rewrite W0, Q, U, W1, Co, Hv by lia. now rewrite W3, C1, C2.
Qed.

End Fuel.

(** [JSON.parse] fails only on texts that no amount of fuel would let the
    parser read, and so does [JSON.grammatical]. *)
Theorem parse_fuel_independent s fuel v rest :
  JSON.parse_value false fuel s = Some (v, rest) -> JSON.skip_ws rest = "" ->
  JSON.parse s = Some v.
Proof.
  intros H W. unfold JSON.parse.
  destruct (fuel_enough false fuel) as (Hv & _). apply Hv in H as [_ H].
  rewrite (H (2 * String.length s + 1)) by lia. now rewrite W.
Qed.

Theorem grammatical_fuel s fuel v rest :
  JSON.parse_value true fuel s = Some (v, rest) -> JSON.skip_ws rest = "" ->
  JSON.grammatical s = true.
Proof.
  intros H W. unfold JSON.grammatical.
  destruct (fuel_enough true fuel) as (Hv & _). apply Hv in H as [_ H].
  rewrite (H (2 * String.length s + 1)) by lia. now rewrite W.
Qed.

(** *** What is read exactly is read leniently *)

Lemma unicode_escape_lenient a b c d u :
  JSON.unicode_escape false a b c d = Some u -> JSON.unicode_escape true a b c d = Some u.
Proof.
  unfold JSON.unicode_escape.
  destruct (JSON.hex_value a), (JSON.hex_value b), (JSON.hex_value c), (JSON.hex_value d);
    try discriminate.
  destruct (_ && _)%nat; [trivial | discriminate].
Qed.

Lemma parse_units_lenient n : forall s x,
  String.length s <= n ->
  JSON.parse_units false s = Some x -> JSON.parse_units true s = Some x.
Proof.
  induction n as [|n IH]; intros s x L H.
  - destruct s; [discriminate | simpl in L; lia].
  - destruct s as [|c s]; [discriminate |]. simpl in L.
    cbn [JSON.parse_units] in *.
    destruct (Ascii.eqb c JS.dquote); [assumption |].
    destruct (Ascii.eqb c JS.backslash).
    { destruct s as [|e r1]; [discriminate |].
      destruct (Ascii.eqb e "u").
      - destruct r1 as [|h1 [|h2 [|h3 [|h4 r2]]]]; try discriminate.
        destruct (JSON.unicode_escape false h1 h2 h3 h4) as [u|] eqn:U; [| discriminate].
        rewrite (unicode_escape_lenient _ _ _ _ _ U).
        destruct (JSON.parse_units false r2) as [y|] eqn:P; [| discriminate].
        rewrite (IH r2 y); [assumption | simpl in L; lia | assumption].
      - destruct (JSON.simple_escape e); [| discriminate].
        destruct (JSON.parse_units false r1) as [y|] eqn:P; [| discriminate].
        rewrite (IH r1 y); [assumption | simpl in L; lia | assumption]. }
    destruct (nat_of_ascii c <? 32)%nat; [discriminate |].
    destruct (JSON.parse_units false s) as [y|] eqn:P; [| discriminate].
    rewrite (IH s y); [assumption | lia | assumption].
Qed.

Lemma parse_lenient fuel :
  (forall s x, JSON.parse_value false fuel s = Some x ->
               JSON.parse_value true fuel s = Some x) /\
  (forall s x, JSON.parse_elements false fuel s = Some x ->
               JSON.parse_elements true fuel s = Some x) /\
  (forall s x, JSON.parse_members false fuel s = Some x ->
               JSON.parse_members true fuel s = Some x).
Proof.
  induction fuel as [|n (IHv & IHe & IHm)]; [repeat split; discriminate |].
  split; [| split].
  - intros s x H. cbn [JSON.parse_value] in *.
    destruct (JSON.skip_ws s) as [|c t]; [discriminate |].
    destruct (Ascii.eqb c "{").
    { destruct (JSON.skip_ws t) as [|c' t']; [discriminate |].
      destruct (Ascii.eqb c' "}"); [assumption |].
      destruct (JSON.parse_members false n (String c' t')) as [y|] eqn:Hm; [| discriminate].
      now rewrite (IHm _ _ Hm). }
    destruct (Ascii.eqb c "[").
    { destruct (JSON.skip_ws t) as [|c' t']; [discriminate |].
      destruct (Ascii.eqb c' "]"); [assumption |].
      destruct (JSON.parse_elements false n (String c' t')) as [y|] eqn:He; [| discriminate].
      now rewrite (IHe _ _ He). }
    destruct (Ascii.eqb c JS.dquote).
    { destruct (JSON.parse_units false t) as [y|] eqn:U; [| discriminate].
      now rewrite (parse_units_lenient (String.length t) t y (le_n _) U). }
    destruct (Ascii.eqb c "t"); [assumption |].
    destruct (Ascii.eqb c "f"); [assumption |].
    destruct (Ascii.eqb c "n"); [assumption |].
    destruct (JSON.span_number (String c t)) as [tok rest].
    destruct (JSON.safe_integer tok) eqn:V; [| discriminate].
    now rewrite (safe_integer_valid _ V).
  - intros s x H. cbn [JSON.parse_elements] in *.
    destruct (JSON.parse_value false n s) as [[v r1]|] eqn:Hv; [| discriminate].
    rewrite (IHv _ _ Hv).
    destruct (JSON.skip_ws r1) as [|c t]; [discriminate |].
    destruct (Ascii.eqb c ","); [| assumption].
    destruct (JSON.parse_elements false n t) as [y|] eqn:He; [| discriminate].
    now rewrite (IHe _ _ He).
  - intros s x H. cbn [JSON.parse_members] in *.
    destruct (JSON.skip_ws s) as [|q t]; [discriminate |].
    destruct (Ascii.eqb q JS.dquote); [| discriminate].
    destruct (JSON.parse_units false t) as [[k r1]|] eqn:U; [| discriminate].
    rewrite (parse_units_lenient (String.length t) t _ (le_n _) U).
    destruct (JSON.skip_ws r1) as [|colon r2]; [discriminate |].
    destruct (Ascii.eqb colon ":"); [| discriminate].
    destruct (JSON.parse_value false n r2) as [[v r3]|] eqn:Hv; [| discriminate].
    rewrite (IHv _ _ Hv).
    destruct (JSON.skip_ws r3) as [|c r4]; [discriminate |].
    destruct (Ascii.eqb c ","); [| assumption].
    destruct (JSON.parse_members false n r4) as [y|] eqn:Hm; [| discriminate].
    now rewrite (IHm _ _ Hm).
Qed.

(** A text with an exact reading is JSON; a text that is not JSON has no
    exact reading. *)
Theorem parse_grammatical s v : JSON.parse s = Some v -> JSON.grammatical s = true.
Proof.
  unfold JSON.parse, JSON.grammatical. intros H.
  destruct (JSON.parse_value false _ s) as [[x rest]|] eqn:P; [| discriminate].
  destruct (parse_lenient (2 * String.length s + 1)) as (Hv & _).
  rewrite (Hv _ _ P). now destruct (JSON.skip_ws rest).
Qed.

Corollary not_grammatical s : JSON.grammatical s = false -> JSON.parse s = None.
Proof.
  intros G. destruct (JSON.parse s) as [v|] eqn:P; [| reflexivity].
  apply parse_grammatical in P. congruence.
Qed.

End JSONFacts.

(** ** Graphs as JSON values *)

Module CodecFacts.
Import JSONSpec ObjectFacts JSONFacts.

Lemma strings_of_json_map l : strings_of_json (map JSON.Str l) = Some l.
Proof. induction l as [|s l IH]; simpl; [reflexivity | now rewrite IH]. Qed.

Lemma strings_of_json_inv vs l : strings_of_json vs = Some l -> vs = map JSON.Str l.
Proof.
  revert l. induction vs as [|v vs IH]; simpl; intros l H.
  - now injection H as <-.
  - destruct v; try discriminate.
    destruct (strings_of_json vs) as [l'|]; [| discriminate].
    injection H as <-. simpl. now rewrite (IH l' eq_refl).
Qed.

Lemma entity_of_to_json e : entity_of_json (Entity.to_json e) = Some e.
Proof. destruct e. simpl. now rewrite strings_of_json_map. Qed.

Lemma relation_of_to_json r : relation_of_json (Relation.to_json r) = Some r.
Proof. now destruct r. Qed.

Lemma entity_of_json_inv v e : entity_of_json v = Some e -> Entity.to_json e = v.
Proof.
  unfold entity_of_json. intros H.
  destruct v as [| | | | |ms]; try discriminate.
  destruct ms as [|[k1 [| | |n| |]] ms]; try discriminate.
  destruct ms as [|[k2 [| | |t| |]] ms]; try discriminate.
  destruct ms as [|[k3 [| | | |os|]] ms]; try discriminate.
  destruct ms as [|[k4 [| | |c| |]] ms]; try discriminate.
  destruct ms; try discriminate.
  destruct (_ && _) eqn:K; [| discriminate].
  repeat (apply andb_true_iff in K as [K ?]).
  repeat match goal with Hk : (_ =? _) = true |- _ => apply String.eqb_eq in Hk; subst end.
  destruct (strings_of_json os) as [l|] eqn:S; [| discriminate].
  injection H as <-. apply strings_of_json_inv in S. subst os. reflexivity.
Qed.

Lemma relation_of_json_inv v r : relation_of_json v = Some r -> Relation.to_json r = v.
Proof.
  unfold relation_of_json. intros H.
  destruct v as [| | | | |ms]; try discriminate.
  destruct ms as [|[k1 [| | |n| |]] ms]; try discriminate.
  destruct ms as [|[k2 [| | |t| |]] ms]; try discriminate.
  destruct ms as [|[k3 [| | |ty| |]] ms]; try discriminate.
  destruct ms as [|[k4 [| | |c| |]] ms]; try discriminate.
  destruct ms; try discriminate.
  destruct (_ && _) eqn:K; [| discriminate].
  repeat (apply andb_true_iff in K as [K ?]).
  repeat match goal with Hk : (_ =? _) = true |- _ => apply String.eqb_eq in Hk; subst end.
  injection H as <-. reflexivity.
Qed.

Lemma entities_of_to_json es :
  entities_of_json (map (fun p => (fst p, Entity.to_json (snd p))) es) = Some es.
Proof.
  induction es as [|[k e] es IH]; cbn [map entities_of_json fst snd]; [reflexivity |].
  now rewrite entity_of_to_json, IH.
Qed.

Lemma entities_of_json_inv ms es :
  entities_of_json ms = Some es ->
  map (fun p => (fst p, Entity.to_json (snd p))) es = ms.
Proof.
  revert es. induction ms as [|[k v] ms IH]; simpl; intros es H.
  - now injection H as <-.
  - destruct (entity_of_json v) as [e|] eqn:He; [| discriminate].
    destruct (entities_of_json ms) as [es'|]; [| discriminate].
    injection H as <-. simpl. apply entity_of_json_inv in He.
    now rewrite He, (IH es' eq_refl).
Qed.

Lemma relations_of_to_json rs : relations_of_json (map Relation.to_json rs) = Some rs.
Proof.
  induction rs as [|r rs IH]; cbn [map relations_of_json]; [reflexivity |].
  now rewrite relation_of_to_json, IH.
Qed.

Lemma relations_of_json_inv vs rs :
  relations_of_json vs = Some rs -> map Relation.to_json rs = vs.
Proof.
  revert rs. induction vs as [|v vs IH]; simpl; intros rs H.
  - now injection H as <-.
  - destruct (relation_of_json v) as [r|] eqn:Hr; [| discriminate].
    destruct (relations_of_json vs) as [rs'|]; [| discriminate].
    injection H as <-. simpl. apply relation_of_json_inv in Hr.
    now rewrite Hr, (IH rs' eq_refl).
Qed.

(** Reading the value of a graph gives the graph, its persisted part. *)
Lemma graph_of_to_json g : graph_of_json (graph_to_json g) = Some (persisted g).
Proof.
  unfold graph_of_json, graph_to_json. simpl.
  now rewrite entities_of_to_json, relations_of_to_json.
Qed.

(** A value read as a graph is the value of that graph: nothing is lost or
    reordered. *)
Lemma graph_of_json_inv v g : graph_of_json v = Some g -> graph_to_json g = v.
Proof.
  unfold graph_of_json. intros H.
  destruct v as [| | | | |ms]; try discriminate.
  destruct ms as [|[k1 [| | | | |es]] ms]; try discriminate.
  destruct ms as [|[k2 [| | | |rs|]] ms]; try discriminate.
  destruct ms as [|[k3 [| | | | |os]] ms]; try discriminate.
  destruct ms; try discriminate.
  destruct (_ && _) eqn:K; [| discriminate].
  repeat (apply andb_true_iff in K as [K ?]).
  repeat match goal with Hk : (_ =? _) = true |- _ => apply String.eqb_eq in Hk; subst end.
  destruct (entities_of_json es) as [es'|] eqn:He; [| discriminate].
  destruct (relations_of_json rs) as [rs'|] eqn:Hr; [| discriminate].
  injection H as <-. unfold graph_to_json. simpl.
  apply entities_of_json_inv in He. apply relations_of_json_inv in Hr.
  now rewrite He, Hr.
Qed.

Lemma graph_of_json_proto v g : graph_of_json v = Some g -> entities_proto g = None.
Proof.
  intros H. pose proof (graph_of_json_inv v g H) as <-.
  rewrite graph_of_to_json in H. injection H as H. now rewrite <- H.
Qed.

Lemma keys_to_json (es : JS.object Entity.t) :
  JS.keys (map (fun p => (fst p, Entity.to_json (snd p))) es) = JS.keys es.
Proof. unfold JS.keys. rewrite map_map. reflexivity. Qed.

Lemma printable_entity e : printable (Entity.to_json e).
Proof.
  constructor.
  - simpl. repeat split; try (intros H; simpl in H; intuition discriminate);
      repeat constructor.
  - repeat constructor. simpl. apply Forall_forall. intros x I.
    apply in_map_iff in I as (s & <- & _). constructor.
Qed.

Lemma printable_relation r : printable (Relation.to_json r).
Proof.
  constructor.
  - simpl. repeat split; try (intros H; simpl in H; intuition discriminate);
      repeat constructor.
  - repeat constructor.
Qed.

(** The value of a well-formed graph prints and parses back. *)
Lemma printable_graph g : well_formed g -> printable (graph_to_json g).
Proof.
  intros [O P]. constructor.
  - simpl. repeat split; try (intros H; simpl in H; intuition discriminate);
      repeat constructor.
  - constructor; [| constructor; [| constructor; [exact P | constructor]]]; simpl.
    + constructor.
      * now rewrite keys_to_json.
      * apply Forall_forall. intros m I. apply in_map_iff in I as (p & <- & _).
        apply printable_entity.
    + constructor. apply Forall_forall. intros m I.
      apply in_map_iff in I as (p & <- & _). apply printable_relation.
Qed.

Lemma well_formed_of_printable g : printable (graph_to_json g) -> well_formed g.
Proof.
  intros P. inversion P as [| | | | |? _ F]; subst.
  inversion F as [|? ? Pe F1]; subst. inversion F1 as [|? ? _ F2]; subst.
  inversion F2 as [|? ? Po _]; subst. simpl in Pe, Po.
  split; [| exact Po].
  inversion Pe as [| | | | |? O _]; subst. now rewrite keys_to_json in O.
Qed.

End CodecFacts.

(** ** Running the methods *)

Module Run.

Lemma world_eta w : with_memory (memory w) w = w.
Proof. now destruct w. Qed.

Lemma bind_Return {A B} (m : M A) (k : A -> M B) w a w' :
  m w = (Return a, w') -> bind m k w = k a w'.
Proof. unfold bind. now intros ->. Qed.

Lemma bind_Throw {A B} (m : M A) (k : A -> M B) w e w' :
  m w = (Throw e, w') -> bind m k w = (Throw e, w').
Proof. unfold bind. now intros ->. Qed.

(** A loop whose body never throws is a fold. *)
Lemma for_of_fold {A} (body : A -> M unit) (step : world -> A -> world) :
  (forall x w, body x w = (Return tt, step w x)) ->
  forall l w, for_of l body w = (Return tt, fold_left step l w).
Proof.
  intros H. induction l as [|x l IH]; intros w; simpl; [reflexivity |].
  erewrite bind_Return by apply H. apply IH.
Qed.

Lemma saveMemory_run E w :
  CloudMemoryServer.saveMemory E w = (Return tt, saved E w).
Proof.
  unfold CloudMemoryServer.saveMemory, saved, try_catch, bind, get_memory,
    fs_writeFile, console_log.
  now destruct (writeFile_outcome E (file_writes w)).
Qed.

Lemma memory_saved E w : memory (saved E w) = memory w.
Proof. unfold saved. now destruct (writeFile_outcome E (file_writes w)). Qed.

Lemma clock_saved E w : clock_reads (saved E w) = clock_reads w.
Proof. unfold saved. now destruct (writeFile_outcome E (file_writes w)). Qed.

Lemma writes_saved E w : file_writes (saved E w) = S (file_writes w).
Proof. unfold saved. now destruct (writeFile_outcome E (file_writes w)). Qed.

Lemma createEntities_run E items w :
  CloudMemoryServer.createEntities E (Some items) w =
  (Return ("Created " ++ JS.decimal (length items) ++ " entities successfully"),
   saved E (fold_left (create_step E) items w)).
Proof.
  unfold CloudMemoryServer.createEntities, iterable.
  erewrite bind_Return by reflexivity.
  erewrite bind_Return by (apply for_of_fold; reflexivity).
  erewrite bind_Return by apply saveMemory_run.
  reflexivity.
Qed.

Lemma Simple_createEntities_run E items w :
  SimpleMemoryServer.createEntities E (Some items) w =
  (Return (Content ("Created " ++ JS.decimal (length items) ++ " entities successfully")),
   saved E (fold_left (create_step E) items w)).
Proof.
  unfold SimpleMemoryServer.createEntities, iterable.
  erewrite bind_Return by reflexivity.
  erewrite bind_Return by (apply for_of_fold; reflexivity).
  erewrite bind_Return by apply saveMemory_run.
  reflexivity.
Qed.

Lemma createRelations_run E items w :
  CloudMemoryServer.createRelations E (Some items) w =
  (Return ("Created " ++ JS.decimal (length items) ++ " relations successfully"),
   saved E (fold_left (relate_step E) items w)).
Proof.
  unfold CloudMemoryServer.createRelations, iterable.
  erewrite bind_Return by reflexivity.
  erewrite bind_Return by (apply for_of_fold; reflexivity).
  erewrite bind_Return by apply saveMemory_run.
  reflexivity.
Qed.

Lemma observe_loop_run items w (body := fun obs : ObservationItem.t =>
      let entityName := ObservationItem.entityName obs in
      let contents := ObservationItem.contents obs in
      g <- get_memory ;;
      match get_entity entityName g with
      | OwnEntity e =>
          modify_memory (fun g =>
            set_entities (JS.replaceOwn entityName (Entity.push contents e) (entities g)) g)
      | PrototypeEntity p =>
          modify_memory (set_entities_proto (Entity.push contents p))
      | InheritedString s =>
          if s =? "" then ret tt else throw (undefined_property "push")
      | InheritedObject => throw (undefined_property "push")
      | Undefined => ret tt
      end) :
  for_of items body w =
  (fst (observe_loop items (memory w)),
   with_memory (snd (observe_loop items (memory w))) w).
Proof.
  revert w. induction items as [|item rest IH]; intros w; simpl.
  - now rewrite world_eta.
  - assert (H : body item w =
                (fst (observe item (memory w)), with_memory (snd (observe item (memory w))) w)).
    { unfold body, observe, bind, get_memory, modify_memory, ret, throw, with_memory.
      cbv zeta.
      destruct (get_entity (ObservationItem.entityName item) (memory w)) as [e|p|s| |];
        simpl; try reflexivity; try (now destruct w).
      destruct (s =? ""); simpl; now destruct w. }
    unfold bind at 1. rewrite H.
    destruct (observe item (memory w)) as [[[]|e] g']; simpl.
    + rewrite IH. reflexivity.
    + reflexivity.
Qed.

Lemma addObservations_run E items w :
  CloudMemoryServer.addObservations E (Some items) w =
  match observe_loop items (memory w) with
  | (Return _, g) =>
      (Return ("Added observations to " ++ JS.decimal (length items) ++
               " entities successfully"),
       saved E (with_memory g w))
  | (Throw e, g) => (Throw e, with_memory g w)
  end.
Proof.
  unfold CloudMemoryServer.addObservations, iterable.
  erewrite bind_Return by reflexivity.
  unfold bind at 1. rewrite observe_loop_run.
  destruct (observe_loop items (memory w)) as [[[]|e] g]; simpl; [| reflexivity].
  erewrite bind_Return by apply saveMemory_run.
  reflexivity.
Qed.

End Run.

(** ** Assigning entities *)

Module CreateFacts.
Import ObjectFacts.

Lemma getOwn_assign_entity k n e g :
  JS.getOwn k (entities (assign_entity n e g)) =
  if (k =? n) && (JS.hasOwn n (entities g) || negb (n =? "__proto__"))
  then Some e
  else JS.getOwn k (entities g).
Proof.
  unfold assign_entity.
  destruct (JS.hasOwn n (entities g)) eqn:H; simpl.
  - rewrite getOwn_defineOwn. now rewrite andb_true_r.
  - destruct (n =? "__proto__"); simpl.
    + now rewrite andb_false_r.
    + rewrite getOwn_defineOwn. now rewrite andb_true_r.
Qed.

Lemma hasOwn_assign_entity k n e g :
  JS.hasOwn k (entities g) = true ->
  JS.hasOwn k (entities (assign_entity n e g)) = true.
Proof.
  unfold JS.hasOwn. rewrite getOwn_assign_entity.
  destruct (_ && _); [reflexivity | trivial].
Qed.

Lemma relations_assign_entity n e g : relations (assign_entity n e g) = relations g.
Proof. unfold assign_entity. now destruct (_ && _). Qed.

Lemma observations_assign_entity n e g :
  observations (assign_entity n e g) = observations g.
Proof. unfold assign_entity. now destruct (_ && _). Qed.

Section Fold.
Variable E : oracle.

Lemma clock_create items w : clock_reads (fold_left (create_step E) items w) = clock_reads w + length items.
Proof.
  revert w. induction items as [|x l IH]; intros w; simpl; [lia |].
  rewrite IH. simpl. lia.
Qed.

Lemma frame_create items w :
  file (fold_left (create_step E) items w) = file w /\ console (fold_left (create_step E) items w) = console w /\
  file_writes (fold_left (create_step E) items w) = file_writes w /\
  relations (memory (fold_left (create_step E) items w)) = relations (memory w) /\
  observations (memory (fold_left (create_step E) items w)) = observations (memory w).
Proof.
  revert w. induction items as [|x l IH]; intros w; simpl; [tauto |].
  destruct (IH (create_step E w x)) as (F & C & W & R & O).
  rewrite F, C, W, R, O. simpl.
  now rewrite relations_assign_entity, observations_assign_entity.
Qed.

Lemma hasOwn_create items w k :
  JS.hasOwn k (entities (memory w)) = true ->
  JS.hasOwn k (entities (memory (fold_left (create_step E) items w))) = true.
Proof.
  revert w. induction items as [|x l IH]; intros w H; simpl; [assumption |].
  apply IH. simpl. now apply hasOwn_assign_entity.
Qed.

(** Items of other names leave the entity of a name alone. *)
Lemma getOwn_create_others items w n :
  (forall item, In item items -> EntityItem.name item <> n) ->
  JS.getOwn n (entities (memory (fold_left (create_step E) items w))) = JS.getOwn n (entities (memory w)).
Proof.
  revert w. induction items as [|x l IH]; intros w H; simpl; [reflexivity |].
  rewrite IH by (intros; apply H; now right). simpl.
  rewrite getOwn_assign_entity.
  destruct (String.eqb_spec n (EntityItem.name x)) as [Eq|]; [| reflexivity].
  exfalso. apply (H x); [now left | auto].
Qed.

(** The last item of a name that the graph holds decides the entity. *)
Lemma getOwn_create_last items : forall w n,
  JS.hasOwn n (entities (memory w)) = true ->
  (exists item, In item items /\ EntityItem.name item = n) ->
  exists i item,
    nth_error items i = Some item /\ EntityItem.name item = n /\
    (forall j item', i < j -> nth_error items j = Some item' ->
                     EntityItem.name item' <> n) /\
    JS.getOwn n (entities (memory (fold_left (create_step E) items w)))
    = Some (entity_of_item item (now E (clock_reads w + i))).
Proof.
  induction items as [|x l IH]; intros w n Own [item [I Hn]].
  - destruct I.
  - destruct (existsb (fun it => EntityItem.name it =? n) l) eqn:Later.
    + apply existsb_exists in Later as (it & Il & Hit). apply String.eqb_eq in Hit.
      destruct (IH (create_step E w x) n) as (i & it' & Hnth & Hname & Hlast & Hget).
      * simpl. now apply hasOwn_assign_entity.
      * now exists it.
      * exists (S i), it'. simpl. repeat split; auto.
        -- intros [|j] item' Lt Hj; [lia |]. simpl in Hj. apply (Hlast j); [lia | auto].
        -- rewrite Hget. simpl. do 3 f_equal. lia.
    + assert (None_later : forall it, In it l -> EntityItem.name it <> n).
      { intros it Il Hit.
        assert (existsb (fun it => EntityItem.name it =? n) l = true) as C.
        { apply existsb_exists. exists it. split; [assumption |]. now apply String.eqb_eq. }
        congruence. }
      assert (x = item) as ->.
      { destruct I as [|I]; [assumption |]. now apply None_later in I. }
      exists 0, item. simpl. repeat split; auto.
      * intros [|j] item' Lt Hj; [lia |]. simpl in Hj.
        apply None_later. eapply nth_error_In. eassumption.
      * rewrite getOwn_create_others by assumption. simpl.
        rewrite getOwn_assign_entity, Hn, String.eqb_refl, Own. simpl.
        now rewrite Nat.add_0_r.
Qed.
End Fold.
End CreateFacts.

(** ** Searching, reading, dispatching *)

Module ReadFacts.
Import StringFacts.

Lemma search_entities_filter q g acc :
  search_entities q g acc =
  (acc ++ map (fun entry => EntityNode (snd entry))
              (filter (entity_matches q) (entities g)))%list.
Proof.
  unfold search_entities. generalize (entities g) as l. intros l. revert acc.
  induction l as [|entry l IH]; intros acc; simpl.
  - now rewrite app_nil_r.
  - destruct (entity_matches q entry); simpl; rewrite IH; [| reflexivity].
    now rewrite <- app_assoc.
Qed.

Lemma search_relations_filter q g acc :
  search_relations q g acc =
  (acc ++ map RelationNode (filter (relation_matches q) (relations g)))%list.
Proof.
  unfold search_relations. generalize (relations g) as l. intros l. revert acc.
  induction l as [|r l IH]; intros acc; simpl.
  - now rewrite app_nil_r.
  - destruct (relation_matches q r); simpl; rewrite IH; [| reflexivity].
    now rewrite <- app_assoc.
Qed.

Lemma entity_matches_iff q name e :
  entity_matches q (name, e) = true <->
  JS.substring_of q (JS.toLowerCase name) \/
  JS.substring_of q (JS.toLowerCase (Entity.entityType e)) \/
  exists obs, In obs (Entity.observations e) /\ JS.substring_of q (JS.toLowerCase obs).
Proof.
  unfold entity_matches, JS.some.
  rewrite !orb_true_iff, !includes_iff, existsb_exists.
  setoid_rewrite includes_iff. tauto.
Qed.

Lemma relation_matches_iff q r :
  relation_matches q r = true <->
  JS.substring_of q (JS.toLowerCase (Relation.from r)) \/
  JS.substring_of q (JS.toLowerCase (Relation.to r)) \/
  JS.substring_of q (JS.toLowerCase (Relation.relationType r)).
Proof.
  unfold relation_matches. rewrite !orb_true_iff, !includes_iff. tauto.
Qed.

Lemma fold_sum {A} (f : A -> nat) (l : list A) (a : nat) :
  fold_left (fun sum x => sum + f x) l a = a + list_sum (map f l).
Proof.
  revert a. induction l as [|x l IH]; intros a; simpl; [lia |].
  rewrite IH. lia.
Qed.

(** A [try] whose [catch] block returns never throws. *)
Lemma try_catch_returns {A} (body : M A) (h : exn -> A) w :
  exists a w', try_catch body (fun e => ret (h e)) w = (Return a, w').
Proof.
  unfold try_catch, ret. destruct (body w) as [[a|e] w']; eauto.
Qed.

Lemma serve_answers {R A} (handler : R -> M A) :
  (forall r w, exists a w', handler r w = (Return a, w')) ->
  forall requests w, exists answers w',
    serve handler requests w = (Return answers, w') /\
    length answers = length requests.
Proof.
  intros H. induction requests as [|r rest IH]; intros w; simpl.
  - exists [], w. split; reflexivity.
  - destruct (H r w) as (a & w1 & Ha).
    destruct (IH w1) as (answers & w2 & Hs & Hl).
    exists (a :: answers), w2. unfold bind. rewrite Ha, Hs. simpl.
    split; [reflexivity | now rewrite Hl].
Qed.

Lemma not_in_cons_eqb name k (l : list string) :
  ~ In name (k :: l) -> (name =? k) = false /\ ~ In name l.
Proof.
  intros H. split.
  - apply String.eqb_neq. intros ->. apply H. now left.
  - intros I. apply H. now right.
Qed.

End ReadFacts.

(** ** Growth of the graph *)

Module GrowthFacts.
Import ObjectFacts CreateFacts.

Lemma list_prefix_refl {A} (l : list A) : list_prefix l l.
Proof. exists []. now rewrite app_nil_r. Qed.

Lemma list_prefix_trans {A} (a b c : list A) :
  list_prefix a b -> list_prefix b c -> list_prefix a c.
Proof. intros [r ->] [r' ->]. exists (r ++ r')%list. now rewrite app_assoc. Qed.

Lemma entity_grows_refl e : entity_grows e e.
Proof. repeat split. apply list_prefix_refl. Qed.

Lemma entity_grows_trans a b c : entity_grows a b -> entity_grows b c -> entity_grows a c.
Proof.
  intros (N & T & C & P) (N' & T' & C' & P'). repeat split; try congruence.
  eapply list_prefix_trans; eassumption.
Qed.

Lemma entity_grows_push contents e : entity_grows e (Entity.push contents e).
Proof. repeat split. now exists contents. Qed.

Lemma graph_grows_refl g : graph_grows g g.
Proof.
  repeat split; [apply list_prefix_refl |].
  intros k e H. exists e. split; [assumption | apply entity_grows_refl].
Qed.

Lemma graph_grows_trans a b c : graph_grows a b -> graph_grows b c -> graph_grows a c.
Proof.
  intros (R & O & H) (R' & O' & H'). repeat split.
  - eapply list_prefix_trans; eassumption.
  - congruence.
  - intros k e G. destruct (H k e G) as (e1 & G1 & Gr1).
    destruct (H' k e1 G1) as (e2 & G2 & Gr2).
    exists e2. split; [assumption | eapply entity_grows_trans; eassumption].
Qed.

Lemma get_entity_own k g e :
  get_entity k g = OwnEntity e <-> JS.getOwn k (entities g) = Some e.
Proof.
  unfold get_entity. destruct (JS.getOwn k (entities g)) as [x|].
  - split; congruence.
  - split; [| discriminate].
    destruct (entities_proto g);
      repeat match goal with |- context [if ?b then _ else _] => destruct b end;
      discriminate.
Qed.

Lemma graph_grows_push k e contents g :
  JS.getOwn k (entities g) = Some e ->
  graph_grows g (set_entities (JS.replaceOwn k (Entity.push contents e) (entities g)) g).
Proof.
  intros G. repeat split; [apply list_prefix_refl |].
  intros k' e' G'. simpl. rewrite getOwn_replaceOwn.
  unfold JS.hasOwn. rewrite G, andb_true_r.
  destruct (String.eqb_spec k' k) as [->|].
  - exists (Entity.push contents e). split; [reflexivity |].
    assert (e' = e) as -> by congruence. apply entity_grows_push.
  - exists e'. split; [assumption | apply entity_grows_refl].
Qed.

(** One turn of the loop of [addObservations] only lets the graph grow,
    also when it throws. *)
Lemma observe_grows item g : graph_grows g (snd (observe item g)).
Proof.
  unfold observe. cbv zeta.
  destruct (get_entity (ObservationItem.entityName item) g) as [e|p|s| |] eqn:L; simpl.
  - apply get_entity_own in L. now apply graph_grows_push.
  - repeat split; [apply list_prefix_refl |].
    intros k e G. exists e. split; [assumption | apply entity_grows_refl].
  - destruct (s =? ""); apply graph_grows_refl.
  - apply graph_grows_refl.
  - apply graph_grows_refl.
Qed.

Lemma observe_loop_grows items g : graph_grows g (snd (observe_loop items g)).
Proof.
  revert g. induction items as [|item rest IH]; intros g; simpl.
  - apply graph_grows_refl.
  - pose proof (observe_grows item g) as H.
    destruct (observe item g) as [[[]|e] g']; simpl in *; [| assumption].
    eapply graph_grows_trans; [eassumption | apply IH].
Qed.

Lemma relate_fold_grows E items w :
  graph_grows (memory w) (memory (fold_left (relate_step E) items w)) /\
  entities (memory (fold_left (relate_step E) items w)) = entities (memory w).
Proof.
  revert w. induction items as [|item rest IH]; intros w; simpl.
  - split; [apply graph_grows_refl | reflexivity].
  - destruct (IH (relate_step E w item)) as [G Eq]. split.
    + eapply graph_grows_trans; [| exact G].
      repeat split; simpl.
      * eexists. reflexivity.
      * intros k e H. exists e. split; [assumption | apply entity_grows_refl].
    + now rewrite Eq.
Qed.

Lemma graph_keeps_refl names g : graph_keeps names g g.
Proof. repeat split. intros k e H. now exists e. Qed.

Lemma create_fold_keeps E items w :
  graph_keeps (map EntityItem.name items) (memory w)
              (memory (fold_left (create_step E) items w)).
Proof.
  destruct (frame_create E items w) as (_ & _ & _ & R & O).
  repeat split; [assumption | assumption |].
  intros k e G.
  assert (Own : JS.hasOwn k (entities (memory (fold_left (create_step E) items w))) = true).
  { apply hasOwn_create. unfold JS.hasOwn. now rewrite G. }
  unfold JS.hasOwn in Own.
  destruct (JS.getOwn k (entities (memory (fold_left (create_step E) items w))))
    as [e'|] eqn:G'; [| discriminate].
  exists e'. split; [reflexivity |].
  intros NI. rewrite getOwn_create_others in G'.
  - congruence.
  - intros item I Hn. apply NI. rewrite <- Hn. now apply in_map.
Qed.

(** On names that [Object.prototype] does not know, the loop does what it is
    meant to do and never throws. *)
Lemma observe_plain item g :
  entities_proto g = None -> plain_name g (ObservationItem.entityName item) ->
  observe item g = (Return tt, append_observations g item).
Proof.
  intros P Pl. unfold observe, append_observations, get_entity. cbv zeta.
  destruct (JS.getOwn (ObservationItem.entityName item) (entities g)) as [e|] eqn:G;
    [reflexivity |].
  rewrite P. destruct Pl as [Own|No].
  - unfold JS.hasOwn in Own. now rewrite G in Own.
  - now rewrite No.
Qed.

Lemma append_observations_frame g item :
  entities_proto (append_observations g item) = entities_proto g /\
  JS.keys (entities (append_observations g item)) = JS.keys (entities g).
Proof.
  unfold append_observations.
  destruct (JS.getOwn _ _); simpl; [| tauto].
  now rewrite keys_replaceOwn.
Qed.

Lemma observe_loop_plain items : forall g,
  entities_proto g = None ->
  (forall item, In item items -> plain_name g (ObservationItem.entityName item)) ->
  observe_loop items g = (Return tt, fold_left append_observations items g).
Proof.
  induction items as [|item rest IH]; intros g P Pl; simpl; [reflexivity |].
  rewrite observe_plain by (auto; apply Pl; now left).
  destruct (append_observations_frame g item) as [P' K'].
  apply IH; [congruence |].
  intros it I. destruct (Pl it (or_intror I)) as [Own|No]; [left | now right].
  apply hasOwn_In. rewrite K'. now apply hasOwn_In.
Qed.

End GrowthFacts.

(** ** What a request can do to the memory *)

Module DispatchFacts.
Import Run.

Lemma createEntities_any E input w :
  exists c,
    fst (CloudMemoryServer.createEntities E input w) = c /\
    fst (CloudMemoryServer.createEntities (writes_succeed E) input w) = c /\
    memory (snd (CloudMemoryServer.createEntities (writes_succeed E) input w))
    = memory (snd (CloudMemoryServer.createEntities E input w)) /\
    match input with
    | Some items =>
        c = Return ("Created " ++ JS.decimal (length items) ++ " entities successfully") /\
        memory (snd (CloudMemoryServer.createEntities E input w))
        = memory (fold_left (create_step E) items w)
    | None =>
        c = Throw (TypeError "entities is not iterable") /\
        snd (CloudMemoryServer.createEntities E input w) = w
    end.
Proof.
  destruct input as [items|].
  - rewrite !createEntities_run. eexists. simpl. rewrite !memory_saved.
    repeat split; reflexivity.
  - eexists. repeat split; reflexivity.
Qed.

Lemma Simple_createEntities_any E input w :
  exists c,
    fst (SimpleMemoryServer.createEntities E input w) = c /\
    fst (SimpleMemoryServer.createEntities (writes_succeed E) input w) = c /\
    memory (snd (SimpleMemoryServer.createEntities (writes_succeed E) input w))
    = memory (snd (SimpleMemoryServer.createEntities E input w)) /\
    match input with
    | Some items =>
        c = Return (Content ("Created " ++ JS.decimal (length items) ++
                             " entities successfully")) /\
        memory (snd (SimpleMemoryServer.createEntities E input w))
        = memory (fold_left (create_step E) items w)
    | None =>
        c = Throw (TypeError "entities is not iterable") /\
        snd (SimpleMemoryServer.createEntities E input w) = w
    end.
Proof.
  destruct input as [items|].
  - rewrite !Simple_createEntities_run. eexists. simpl. rewrite !memory_saved.
    repeat split; reflexivity.
  - eexists. repeat split; reflexivity.
Qed.

Lemma createRelations_any E input w :
  exists c,
    fst (CloudMemoryServer.createRelations E input w) = c /\
    fst (CloudMemoryServer.createRelations (writes_succeed E) input w) = c /\
    memory (snd (CloudMemoryServer.createRelations (writes_succeed E) input w))
    = memory (snd (CloudMemoryServer.createRelations E input w)) /\
    match input with
    | Some items =>
        c = Return ("Created " ++ JS.decimal (length items) ++ " relations successfully") /\
        memory (snd (CloudMemoryServer.createRelations E input w))
        = memory (fold_left (relate_step E) items w)
    | None =>
        c = Throw (TypeError "relations is not iterable") /\
        snd (CloudMemoryServer.createRelations E input w) = w
    end.
Proof.
  destruct input as [items|].
  - rewrite !createRelations_run. eexists. simpl. rewrite !memory_saved.
    repeat split; reflexivity.
  - eexists. repeat split; reflexivity.
Qed.

Lemma addObservations_any E input w :
  exists c,
    fst (CloudMemoryServer.addObservations E input w) = c /\
    fst (CloudMemoryServer.addObservations (writes_succeed E) input w) = c /\
    memory (snd (CloudMemoryServer.addObservations (writes_succeed E) input w))
    = memory (snd (CloudMemoryServer.addObservations E input w)) /\
    match input with
    | Some items =>
        c = match fst (observe_loop items (memory w)) with
            | Return _ =>
                Return ("Added observations to " ++ JS.decimal (length items) ++
                        " entities successfully")
            | Throw e => Throw e
            end /\
        memory (snd (CloudMemoryServer.addObservations E input w))
        = snd (observe_loop items (memory w))
    | None =>
        c = Throw (TypeError "observations is not iterable") /\
        snd (CloudMemoryServer.addObservations E input w) = w
    end.
Proof.
  destruct input as [items|].
  - rewrite !addObservations_run.
    destruct (observe_loop items (memory w)) as [[[]|e] g]; eexists; simpl;
      rewrite ?memory_saved; repeat split; reflexivity.
  - eexists. repeat split; reflexivity.
Qed.

Ltac split_name name :=
  repeat match goal with
         | |- context [name =? ?k] => destruct (name =? k)
         end.

(** A tool call answers the same and leaves the same memory whether the
    write succeeds or not, and its effect on the memory is one of four. *)
Lemma CallTool_any E name args w :
  fst (CloudMemoryServer.CallTool (writes_succeed E) name args w)
  = fst (CloudMemoryServer.CallTool E name args w) /\
  memory (snd (CloudMemoryServer.CallTool (writes_succeed E) name args w))
  = memory (snd (CloudMemoryServer.CallTool E name args w)) /\
  effect E w (created_by name args)
         (memory (snd (CloudMemoryServer.CallTool E name args w))).
Proof.
  unfold CloudMemoryServer.CallTool, try_catch, bind, CloudMemoryServer.argument,
    created_by.
  split_name name.
  - destruct args as [a|]; simpl; [| repeat split; now apply effect_none].
    destruct (createEntities_any E (arg_entities a) w) as (c & H1 & H2 & H3 & H4).
    destruct (CloudMemoryServer.createEntities E (arg_entities a) w) as [c1 w1].
    destruct (CloudMemoryServer.createEntities (writes_succeed E) (arg_entities a) w)
      as [c2 w2].
    simpl in *. subst c1 c2.
    destruct (arg_entities a) as [items|]; destruct H4 as [-> H4]; simpl.
    + repeat split; auto. now apply effect_create with items.
    + subst w1. repeat split; auto. now apply effect_none.
  - destruct args as [a|]; simpl; [| repeat split; now apply effect_none].
    destruct (createRelations_any E (arg_relations a) w) as (c & H1 & H2 & H3 & H4).
    destruct (CloudMemoryServer.createRelations E (arg_relations a) w) as [c1 w1].
    destruct (CloudMemoryServer.createRelations (writes_succeed E) (arg_relations a) w)
      as [c2 w2].
    simpl in *. subst c1 c2.
    destruct (arg_relations a) as [items|]; destruct H4 as [-> H4]; simpl.
    + repeat split; auto. now apply effect_relate with items.
    + subst w1. repeat split; auto. now apply effect_none.
  - destruct args as [a|]; simpl; [| repeat split; now apply effect_none].
    destruct (addObservations_any E (arg_observations a) w) as (c & H1 & H2 & H3 & H4).
    destruct (CloudMemoryServer.addObservations E (arg_observations a) w) as [c1 w1].
    destruct (CloudMemoryServer.addObservations (writes_succeed E) (arg_observations a) w)
      as [c2 w2].
    simpl in *. subst c1 c2.
    destruct (arg_observations a) as [items|]; destruct H4 as [-> H4]; simpl.
    + destruct (fst (observe_loop items (memory w))); simpl;
        repeat split; auto; now apply effect_observe with items.
    + subst w1. repeat split; auto. now apply effect_none.
  - destruct args as [a|]; simpl; [| repeat split; now apply effect_none].
    destruct (arg_query a); simpl; repeat split; now apply effect_none.
  - simpl. repeat split; now apply effect_none.
  - simpl. repeat split; now apply effect_none.
Qed.

Lemma handleRequest_any E r w :
  fst (SimpleMemoryServer.handleRequest (writes_succeed E) r w)
  = fst (SimpleMemoryServer.handleRequest E r w) /\
  memory (snd (SimpleMemoryServer.handleRequest (writes_succeed E) r w))
  = memory (snd (SimpleMemoryServer.handleRequest E r w)) /\
  effect E w (request_creates r)
         (memory (snd (SimpleMemoryServer.handleRequest E r w))).
Proof.
  unfold SimpleMemoryServer.handleRequest, try_catch, request_creates, created_by.
  destruct (method r =? "tools/list"); [simpl; repeat split; now apply effect_none |].
  destruct (method r =? "tools/call").
  2:{ destruct (method r =? "initialize"); simpl; repeat split; now apply effect_none. }
  unfold SimpleMemoryServer.handleToolCall.
  destruct (params r) as [call|]; [| simpl; repeat split; now apply effect_none].
  cbv zeta. unfold bind, CloudMemoryServer.argument.
  split_name (call_name call).
  - destruct (call_arguments call) as [a|]; simpl; [| repeat split; now apply effect_none].
    destruct (Simple_createEntities_any E (arg_entities a) w) as (c & H1 & H2 & H3 & H4).
    destruct (SimpleMemoryServer.createEntities E (arg_entities a) w) as [c1 w1].
    destruct (SimpleMemoryServer.createEntities (writes_succeed E) (arg_entities a) w)
      as [c2 w2].
    simpl in *. subst c1 c2.
    destruct (arg_entities a) as [items|]; destruct H4 as [-> H4]; simpl.
    + repeat split; auto. now apply effect_create with items.
    + subst w1. repeat split; auto. now apply effect_none.
  - destruct (call_arguments call) as [a|]; simpl; [| repeat split; now apply effect_none].
    destruct (arg_query a); simpl; repeat split; now apply effect_none.
  - simpl. repeat split; now apply effect_none.
  - simpl. repeat split; now apply effect_none.
Qed.

End DispatchFacts.

(** ** Starting an instance *)

Module LoadFacts.
Import JSONSpec Run CodecFacts JSONFacts.

Lemma startFresh_run E w :
  CloudMemoryServer.startFresh E w = (Return tt, started_fresh E w).
Proof.
  unfold CloudMemoryServer.startFresh, started_fresh, bind, console_log.
  now rewrite saveMemory_run.
Qed.

Lemma loadMemory_missing E w :
  file w = None -> CloudMemoryServer.loadMemory E w = Serving (started_fresh E w).
Proof.
  intros H. unfold CloudMemoryServer.loadMemory, fs_readFile. rewrite H.
  now rewrite startFresh_run.
Qed.

Lemma loadMemory_unreadable E w :
  readFile_fails E = true -> CloudMemoryServer.loadMemory E w = Serving (started_fresh E w).
Proof.
  intros H. unfold CloudMemoryServer.loadMemory, fs_readFile. rewrite H.
  destruct (file w); now rewrite startFresh_run.
Qed.

Lemma loadMemory_corrupt E w text :
  file w = Some text -> JSON.grammatical text = false ->
  CloudMemoryServer.loadMemory E w = Serving (started_fresh E w).
Proof.
  intros H G. unfold CloudMemoryServer.loadMemory, fs_readFile. rewrite H.
  destruct (readFile_fails E); rewrite ?(not_grammatical _ G), ?G;
    now rewrite startFresh_run.
Qed.

Lemma loadMemory_unread E w text :
  file w = Some text -> readFile_fails E = false ->
  JSON.parse text = None -> JSON.grammatical text = true ->
  CloudMemoryServer.loadMemory E w =
  Unread (Some text) (console w ++ ["Memory loaded successfully"])%list.
Proof.
  intros H R P G. unfold CloudMemoryServer.loadMemory, fs_readFile.
  rewrite H, R, P, G. now rewrite H.
Qed.

Lemma loadMemory_graph E w text v g :
  file w = Some text -> readFile_fails E = false ->
  JSON.parse text = Some v -> graph_of_json v = Some g ->
  CloudMemoryServer.loadMemory E w =
  Serving {| memory := g; file := Some text;
             console := (console w ++ ["Memory loaded successfully"])%list;
             clock_reads := clock_reads w; file_writes := file_writes w |}.
Proof.
  intros H R P G. unfold CloudMemoryServer.loadMemory, fs_readFile.
  rewrite H, R, P, G. unfold bind, modify_memory, console_log. simpl.
  now rewrite H.
Qed.

Lemma loadMemory_other E w text v :
  file w = Some text -> readFile_fails E = false ->
  JSON.parse text = Some v -> graph_of_json v = None ->
  CloudMemoryServer.loadMemory E w =
  Unshaped v (Some text) (console w ++ ["Memory loaded successfully"])%list.
Proof.
  intros H R P G. unfold CloudMemoryServer.loadMemory, fs_readFile.
  rewrite H, R, P, G. now rewrite H.
Qed.

End LoadFacts.

(** ** The graphs that an instance can hold are well formed *)

Module InvariantFacts.
Import JSONSpec ObjectFacts JSONFacts CodecFacts CreateFacts GrowthFacts Run LoadFacts.

Lemma well_formed_empty : well_formed empty_graph.
Proof.
  split; [exact I |]. constructor; [exact I | constructor].
Qed.

Lemma well_formed_assign n e g : well_formed g -> well_formed (assign_entity n e g).
Proof.
  intros [O P]. unfold assign_entity. destruct (_ && _); split; simpl; auto.
  now apply ordered_defineOwn.
Qed.

Lemma well_formed_create E items w :
  well_formed (memory w) -> well_formed (memory (fold_left (create_step E) items w)).
Proof.
  revert w. induction items as [|x l IH]; intros w H; simpl; [assumption |].
  apply IH. simpl. now apply well_formed_assign.
Qed.

Lemma well_formed_relate E items w :
  well_formed (memory w) -> well_formed (memory (fold_left (relate_step E) items w)).
Proof.
  revert w. induction items as [|x l IH]; intros w H; simpl; [assumption |].
  apply IH. exact H.
Qed.

Lemma well_formed_observe item g : well_formed g -> well_formed (snd (observe item g)).
Proof.
  intros [O P]. unfold observe. cbv zeta.
  destruct (get_entity _ g) as [e|p|s| |]; simpl; try (split; assumption).
  - split; simpl; [now rewrite keys_replaceOwn | assumption].
  - destruct (s =? ""); split; assumption.
Qed.

Lemma well_formed_observe_loop items g :
  well_formed g -> well_formed (snd (observe_loop items g)).
Proof.
  revert g. induction items as [|item rest IH]; intros g H; simpl; [assumption |].
  pose proof (well_formed_observe item g H) as H'.
  destruct (observe item g) as [[[]|e] g']; simpl in *; auto.
Qed.

Lemma well_formed_effect E w created g' :
  effect E w created g' -> well_formed (memory w) -> well_formed g'.
Proof.
  intros [->|items _ ->|items ->|items ->] H.
  - assumption.
  - now apply well_formed_create.
  - now apply well_formed_relate.
  - now apply well_formed_observe_loop.
Qed.

Lemma well_formed_parsed text v g :
  JSON.parse text = Some v -> graph_of_json v = Some g -> well_formed g.
Proof.
  intros P G. apply well_formed_of_printable.
  rewrite (graph_of_json_inv v g G). now apply parse_printable with text.
Qed.

(** The constructor leaves a well-formed graph, and every request keeps it
    so. *)
Theorem well_formed_serving E snapshot w :
  CloudMemoryServer.constructor E snapshot = Serving w -> well_formed (memory w).
Proof.
  unfold CloudMemoryServer.constructor, CloudMemoryServer.loadMemory, fs_readFile.
  cbn [file memory].
  assert (F : forall w0, memory w0 = empty_graph ->
                         Serving (snd (CloudMemoryServer.startFresh E w0)) = Serving w ->
                         well_formed (memory w)).
  { intros w0 M [= <-]. rewrite startFresh_run. simpl. unfold started_fresh.
    rewrite memory_saved. simpl. rewrite M. apply well_formed_empty. }
  destruct snapshot as [text|]; [| now apply F].
  destruct (readFile_fails E); [now apply F |].
  destruct (JSON.parse text) as [v|] eqn:P;
    [| destruct (JSON.grammatical text); [discriminate | now apply F]].
  destruct (graph_of_json v) as [g|] eqn:G; [| discriminate].
  intros [= <-]. simpl. eapply well_formed_parsed; eassumption.
Qed.

Theorem well_formed_kept E w :
  well_formed (memory w) ->
  (forall name args,
     well_formed (memory (snd (CloudMemoryServer.CallTool E name args w)))) /\
  (forall r, well_formed (memory (snd (SimpleMemoryServer.handleRequest E r w)))).
Proof.
  intros H. split; intros.
  - eapply well_formed_effect; [apply DispatchFacts.CallTool_any | assumption].
  - eapply well_formed_effect; [apply DispatchFacts.handleRequest_any | assumption].
Qed.

End InvariantFacts.

(** ** Relations, statistics and searches after a call *)

Module RelateFacts.
Import Run.

Lemma length_stamped E t items : length (stamped E t items) = length items.
Proof.
  revert t. induction items as [|x l IH]; intros t; simpl; [reflexivity |].
  now rewrite IH.
Qed.

Lemma relate_fold E items : forall w,
  relations (memory (fold_left (relate_step E) items w))
  = (relations (memory w) ++ stamped E (clock_reads w) items)%list /\
  entities (memory (fold_left (relate_step E) items w)) = entities (memory w) /\
  entities_proto (memory (fold_left (relate_step E) items w)) = entities_proto (memory w) /\
  observations (memory (fold_left (relate_step E) items w)) = observations (memory w) /\
  clock_reads (fold_left (relate_step E) items w) = clock_reads w + length items /\
  file (fold_left (relate_step E) items w) = file w /\
  console (fold_left (relate_step E) items w) = console w /\
  file_writes (fold_left (relate_step E) items w) = file_writes w.
Proof.
  induction items as [|x l IH]; intros w; simpl.
  - rewrite app_nil_r, Nat.add_0_r. tauto.
  - destruct (IH (relate_step E w x)) as (R & En & P & O & C & F & Co & W).
    rewrite R, En, P, O, C, F, Co, W. simpl. rewrite <- app_assoc. simpl.
    repeat split; try reflexivity. lia.
Qed.

End RelateFacts.

Module StatsFacts.
Import ObjectFacts ReadFacts GrowthFacts.

Lemma total_sum g :
  stat_totalObservations (graph_stats g)
  = list_sum (map (fun e => length (Entity.observations e)) (JS.values (entities g))).
Proof. unfold graph_stats. cbn [stat_totalObservations]. now rewrite fold_sum. Qed.

Lemma sum_replaceOwn k contents (o : JS.object Entity.t) e :
  JS.getOwn k o = Some e ->
  list_sum (map (fun e => length (Entity.observations e))
                (JS.values (JS.replaceOwn k (Entity.push contents e) o)))
  = list_sum (map (fun e => length (Entity.observations e)) (JS.values o))
    + length contents.
Proof.
  induction o as [|[k' v] t IH]; simpl; [discriminate |].
  destruct (String.eqb k k').
  - intros [= ->]. simpl. rewrite length_app. lia.
  - intros H. simpl. rewrite (IH H). lia.
Qed.

Lemma total_append g item :
  stat_totalObservations (graph_stats (append_observations g item))
  = stat_totalObservations (graph_stats g)
    + (if JS.hasOwn (ObservationItem.entityName item) (entities g)
       then length (ObservationItem.contents item) else 0).
Proof.
  rewrite !total_sum. unfold append_observations, JS.hasOwn.
  destruct (JS.getOwn _ _) as [e|] eqn:G; [| lia].
  cbn [entities set_entities]. now apply sum_replaceOwn.
Qed.

Lemma hasOwn_append g item k :
  JS.hasOwn k (entities (append_observations g item)) = JS.hasOwn k (entities g).
Proof.
  destruct (append_observations_frame g item) as [_ K].
  destruct (JS.hasOwn k (entities g)) eqn:H.
  - apply hasOwn_In. rewrite K. now apply hasOwn_In.
  - apply hasOwn_false. rewrite K. now apply hasOwn_false.
Qed.

Lemma added_observations_ext g g' items :
  (forall k, JS.hasOwn k (entities g') = JS.hasOwn k (entities g)) ->
  added_observations g' items = added_observations g items.
Proof.
  intros H. unfold added_observations. f_equal. apply map_ext. intros item.
  now rewrite H.
Qed.

Lemma total_fold_append items : forall g,
  stat_totalObservations (graph_stats (fold_left append_observations items g))
  = stat_totalObservations (graph_stats g) + added_observations g items.
Proof.
  induction items as [|item rest IH]; intros g; cbn [fold_left].
  - unfold added_observations. simpl. lia.
  - rewrite IH, total_append.
    rewrite (added_observations_ext g (append_observations g item) rest)
      by (intros; apply hasOwn_append).
    unfold added_observations. simpl. lia.
Qed.

(** No turn of the loop of [addObservations] adds or removes a key or a
    relation, whether it throws or not. *)
Lemma observe_frame item g :
  JS.keys (entities (snd (observe item g))) = JS.keys (entities g) /\
  relations (snd (observe item g)) = relations g /\
  observations (snd (observe item g)) = observations g.
Proof.
  unfold observe. cbv zeta.
  destruct (get_entity _ g) as [e|p|s| |]; simpl; try tauto.
  - now rewrite keys_replaceOwn.
  - destruct (s =? ""); simpl; tauto.
Qed.

Lemma observe_loop_frame items : forall g,
  JS.keys (entities (snd (observe_loop items g))) = JS.keys (entities g) /\
  relations (snd (observe_loop items g)) = relations g /\
  observations (snd (observe_loop items g)) = observations g.
Proof.
  induction items as [|item rest IH]; intros g; simpl; [tauto |].
  pose proof (observe_frame item g) as (K & R & O).
  destruct (observe item g) as [[[]|e] g']; simpl in *.
  - destruct (IH g') as (K' & R' & O'). rewrite K', R', O'. tauto.
  - tauto.
Qed.

End StatsFacts.

Module QueryFacts.
Import StringFacts ObjectFacts ReadFacts.

Lemma search_results_filter q g :
  search_results q g =
  (map (fun entry => EntityNode (snd entry))
       (filter (entity_matches (JS.toLowerCase q)) (entities g)) ++
   map RelationNode (filter (relation_matches (JS.toLowerCase q)) (relations g)))%list.
Proof.
  unfold search_results. now rewrite search_relations_filter, search_entities_filter.
Qed.

Lemma filter_all {A} (f : A -> bool) l : (forall x, f x = true) -> filter f l = l.
Proof.
  intros H. induction l as [|x l IH]; simpl; [reflexivity |]. now rewrite H, IH.
Qed.

Lemma entity_matches_empty entry : entity_matches "" entry = true.
Proof.
  destruct entry as [name e]. unfold entity_matches. now rewrite includes_empty.
Qed.

Lemma relation_matches_empty r : relation_matches "" r = true.
Proof. unfold relation_matches. now rewrite includes_empty. Qed.

Lemma substring_of_trans a b c :
  JS.substring_of a b -> JS.substring_of b c -> JS.substring_of a c.
Proof.
  intros (x & y & ->) (u & v & ->). exists (u ++ x), (y ++ v).
  now rewrite !append_assoc.
Qed.

Lemma entity_matches_narrow q1 q2 entry :
  JS.substring_of q1 q2 -> entity_matches q2 entry = true ->
  entity_matches q1 entry = true.
Proof.
  intros S. destruct entry as [name e]. rewrite !entity_matches_iff.
  intros [H|[H|(obs & I & H)]].
  - left. eapply substring_of_trans; eassumption.
  - right. left. eapply substring_of_trans; eassumption.
  - right. right. exists obs. split; [assumption |].
    eapply substring_of_trans; eassumption.
Qed.

Lemma relation_matches_narrow q1 q2 r :
  JS.substring_of q1 q2 -> relation_matches q2 r = true ->
  relation_matches q1 r = true.
Proof.
  intros S. rewrite !relation_matches_iff.
  intros [H|[H|H]]; [left | right; left | right; right];
    eapply substring_of_trans; eassumption.
Qed.

Lemma In_search_results n q g :
  In n (search_results q g) <->
  (exists k e, n = EntityNode e /\ In (k, e) (entities g) /\
               entity_matches (JS.toLowerCase q) (k, e) = true) \/
  (exists r, n = RelationNode r /\ In r (relations g) /\
             relation_matches (JS.toLowerCase q) r = true).
Proof.
  rewrite search_results_filter, in_app_iff, !in_map_iff. split.
  - intros [([k e] & <- & I)|(r & <- & I)]; apply filter_In in I as [I M].
    + left. now exists k, e.
    + right. now exists r.
  - intros [(k & e & -> & I & M)|(r & -> & I & M)].
    + left. exists (k, e). split; [reflexivity |]. now apply filter_In.
    + right. exists r. split; [reflexivity |]. now apply filter_In.
Qed.

Lemma substring_of_self s : JS.substring_of s s.
Proof. exists "", "". simpl. now rewrite append_nil_r. Qed.

End QueryFacts.

(** ** Batches of entities *)

Module BatchFacts.
Import ObjectFacts CreateFacts GrowthFacts StatsFacts Run.

Section Fold.
Variable E : oracle.

(** The last item of a name decides its entity, for every name that an
    assignment can file. *)
Lemma getOwn_create_decides items : forall w n,
  JS.hasOwn n (entities (memory w)) = true \/ n <> "__proto__" ->
  (exists item, In item items /\ EntityItem.name item = n) ->
  exists i item,
    nth_error items i = Some item /\ EntityItem.name item = n /\
    (forall j item', i < j -> nth_error items j = Some item' ->
                     EntityItem.name item' <> n) /\
    JS.getOwn n (entities (memory (fold_left (create_step E) items w)))
    = Some (entity_of_item item (now E (clock_reads w + i))).
Proof.
  induction items as [|x l IH]; intros w n Ok [item [I Hn]].
  - destruct I.
  - destruct (existsb (fun it => EntityItem.name it =? n) l) eqn:Later.
    + apply existsb_exists in Later as (it & Il & Hit). apply String.eqb_eq in Hit.
      destruct (IH (create_step E w x) n) as (i & it' & Hnth & Hname & Hlast & Hget).
      * destruct Ok as [Own|Ne]; [left | now right].
        simpl. now apply hasOwn_assign_entity.
      * now exists it.
      * exists (S i), it'. simpl. repeat split; auto.
        -- intros [|j] item' Lt Hj; [lia |]. simpl in Hj. apply (Hlast j); [lia | auto].
        -- rewrite Hget. simpl. do 3 f_equal. lia.
    + assert (None_later : forall it, In it l -> EntityItem.name it <> n).
      { intros it Il Hit.
        assert (existsb (fun it => EntityItem.name it =? n) l = true) as C.
        { apply existsb_exists. exists it. split; [assumption |]. now apply String.eqb_eq. }
        congruence. }
      assert (x = item) as ->.
      { destruct I as [|I]; [assumption |]. now apply None_later in I. }
      exists 0, item. simpl. repeat split; auto.
      * intros [|j] item' Lt Hj; [lia |]. simpl in Hj.
        apply None_later. eapply nth_error_In. eassumption.
      * rewrite getOwn_create_others by assumption. simpl.
        rewrite getOwn_assign_entity, Hn, String.eqb_refl. simpl.
        rewrite Nat.add_0_r.
        destruct Ok as [Own|Ne]; [now rewrite Own |].
        apply String.eqb_neq in Ne. rewrite Ne. simpl.
        now rewrite orb_true_r.
Qed.

(** Assignments to [__proto__] file nothing. *)
Lemma create_proto items : forall w,
  (forall item, In item items -> EntityItem.name item = "__proto__") ->
  JS.hasOwn "__proto__" (entities (memory w)) = false ->
  entities (memory (fold_left (create_step E) items w)) = entities (memory w).
Proof.
  induction items as [|x l IH]; intros w All No; simpl; [reflexivity |].
  assert (Step : entities (memory (create_step E w x)) = entities (memory w)).
  { simpl. unfold assign_entity. rewrite (All x) by now left. now rewrite No. }
  rewrite IH.
  - exact Step.
  - intros item I. apply All. now right.
  - now rewrite Step.
Qed.

Lemma keys_assign_own n e g :
  JS.hasOwn n (entities g) = true ->
  JS.keys (entities (assign_entity n e g)) = JS.keys (entities g).
Proof.
  intros Own. unfold assign_entity. rewrite Own. simpl.
  unfold JS.defineOwn. rewrite Own. apply keys_replaceOwn.
Qed.

(** Overwriting keeps every key where it stands. *)
Lemma keys_create_own items : forall w,
  (forall item, In item items ->
                JS.hasOwn (EntityItem.name item) (entities (memory w)) = true) ->
  JS.keys (entities (memory (fold_left (create_step E) items w)))
  = JS.keys (entities (memory w)).
Proof.
  induction items as [|x l IH]; intros w All; simpl; [reflexivity |].
  rewrite IH.
  - simpl. apply keys_assign_own. apply All. now left.
  - intros item I. simpl. apply hasOwn_assign_entity. apply All. now right.
Qed.

Lemma assign_fresh n e g :
  JS.hasOwn n (entities g) = false -> JS.array_index n = None -> n <> "__proto__" ->
  entities (assign_entity n e g) = (entities g ++ [(n, e)])%list.
Proof.
  intros No Ix Ne. unfold assign_entity. apply String.eqb_neq in Ne.
  rewrite Ne, andb_false_r. simpl. unfold JS.defineOwn. now rewrite No, Ix.
Qed.

Lemma hasOwn_app_one (o : JS.object Entity.t) n e k :
  k <> n -> JS.hasOwn k (o ++ [(n, e)])%list = JS.hasOwn k o.
Proof.
  intros Ne. unfold JS.hasOwn. rewrite getOwn_app.
  destruct (JS.getOwn k o); [reflexivity |]. simpl.
  apply String.eqb_neq in Ne. now rewrite Ne.
Qed.

(** New names that are no array indices are filed behind the keys that
    exist, in the order of the items. *)
Lemma create_fresh items : forall w,
  NoDup (map EntityItem.name items) ->
  (forall item, In item items ->
     JS.hasOwn (EntityItem.name item) (entities (memory w)) = false /\
     JS.array_index (EntityItem.name item) = None /\
     EntityItem.name item <> "__proto__") ->
  entities (memory (fold_left (create_step E) items w))
  = (entities (memory w) ++ filed E (clock_reads w) items)%list.
Proof.
  induction items as [|x l IH]; intros w ND All; simpl.
  - now rewrite app_nil_r.
  - inversion ND as [|? ? NI ND']; subst.
    destruct (All x (or_introl eq_refl)) as (No & Ix & Ne).
    assert (Step : entities (memory (create_step E w x))
                   = (entities (memory w) ++
                      [(EntityItem.name x, entity_of_item x (now E (clock_reads w)))])%list).
    { simpl. now apply assign_fresh. }
    rewrite IH; [| assumption |].
    + rewrite Step, <- app_assoc. reflexivity.
    + intros item I. destruct (All item (or_intror I)) as (No' & Ix' & Ne').
      repeat split; try assumption.
      rewrite Step, hasOwn_app_one; [assumption |].
      intros Eq. apply NI. rewrite <- Eq. now apply in_map.
Qed.

(** A loop sees only the memory and the clock. *)
Lemma create_fold_ext items : forall w w',
  memory w = memory w' -> clock_reads w = clock_reads w' ->
  memory (fold_left (create_step E) items w) = memory (fold_left (create_step E) items w') /\
  clock_reads (fold_left (create_step E) items w)
  = clock_reads (fold_left (create_step E) items w').
Proof.
  induction items as [|x l IH]; intros w w' M C; simpl; [tauto |].
  apply IH; simpl; congruence.
Qed.

Lemma relate_fold_ext items : forall w w',
  memory w = memory w' -> clock_reads w = clock_reads w' ->
  memory (fold_left (relate_step E) items w) = memory (fold_left (relate_step E) items w') /\
  clock_reads (fold_left (relate_step E) items w)
  = clock_reads (fold_left (relate_step E) items w').
Proof.
  induction items as [|x l IH]; intros w w' M C; simpl; [tauto |].
  apply IH; simpl; congruence.
Qed.

Lemma clock_relate items w :
  clock_reads (fold_left (relate_step E) items w) = clock_reads w + length items.
Proof.
  revert w. induction items as [|x l IH]; intros w; simpl; [lia |].
  rewrite IH. simpl. lia.
Qed.

End Fold.

Lemma observe_loop_app xs ys : forall g,
  observe_loop (xs ++ ys)%list g =
  match observe_loop xs g with
  | (Return _, g') => observe_loop ys g'
  | (Throw e, g') => (Throw e, g')
  end.
Proof.
  induction xs as [|x l IH]; intros g; simpl; [reflexivity |].
  destruct (observe x g) as [[[]|e] g']; [apply IH | reflexivity].
Qed.

Lemma observe_inherited item g :
  entities_proto g = None ->
  JS.hasOwn (ObservationItem.entityName item) (entities g) = false ->
  JS.in_Object_prototype (ObservationItem.entityName item) = true ->
  observe item g = (Throw (undefined_property "push"), g).
Proof.
  intros P No In. unfold observe, get_entity. cbv zeta.
  unfold JS.hasOwn in No.
  destruct (JS.getOwn _ _); [discriminate |]. now rewrite P, In.
Qed.

(** The loop of [addObservations] throws nothing but the [TypeError] of a
    [push] on [undefined]. *)
Lemma observe_throws item g e :
  fst (observe item g) = Throw e -> e = undefined_property "push".
Proof.
  unfold observe. cbv zeta.
  destruct (get_entity _ g) as [x|p|s| |]; simpl; try discriminate.
  - destruct (s =? ""); simpl; [discriminate | congruence].
  - congruence.
Qed.

Lemma observe_loop_throws items : forall g e,
  fst (observe_loop items g) = Throw e -> e = undefined_property "push".
Proof.
  induction items as [|item rest IH]; intros g e; simpl; [discriminate |].
  pose proof (observe_throws item g) as T.
  destruct (observe item g) as [[[]|e'] g']; simpl in *.
  - apply IH.
  - intros [= <-]. now apply T.
Qed.

Lemma fold_append_frame items : forall g,
  entities_proto (fold_left append_observations items g) = entities_proto g /\
  forall k, JS.hasOwn k (entities (fold_left append_observations items g))
            = JS.hasOwn k (entities g).
Proof.
  induction items as [|item rest IH]; intros g; simpl; [tauto |].
  destruct (IH (append_observations g item)) as [P H].
  destruct (append_observations_frame g item) as [P' _].
  split; [congruence |].
  intros k. rewrite H. apply hasOwn_append.
Qed.

End BatchFacts.

(** ** What a call does to the file *)

Module SaveFacts.
Import Run CreateFacts RelateFacts.

Lemma file_saved E w :
  file (saved E w) =
  match writeFile_outcome E (file_writes w) with
  | Written => Some (JSON.stringify (graph_to_json (memory w)))
  | WriteFailed residue => residue
  end.
Proof. unfold saved. now destruct (writeFile_outcome E (file_writes w)). Qed.

(** A call that reaches [saveMemory] ends with it; any other call leaves the
    file alone. *)
Lemma CallTool_saves E name args w :
  if reaches_save name args (memory w)
  then exists w0,
         snd (CloudMemoryServer.CallTool E name args w) = saved E w0 /\
         file_writes w0 = file_writes w /\ file w0 = file w
  else file (snd (CloudMemoryServer.CallTool E name args w)) = file w /\
       file_writes (snd (CloudMemoryServer.CallTool E name args w)) = file_writes w.
Proof.
  unfold CloudMemoryServer.CallTool, try_catch, bind, CloudMemoryServer.argument,
    reaches_save.
  destruct args as [a|].
  2:{ DispatchFacts.split_name name; simpl; tauto. }
  destruct (name =? "create_entities").
  { simpl. destruct (arg_entities a) as [items|]; [| simpl; tauto].
    rewrite createEntities_run. simpl. eexists. split; [reflexivity |].
    destruct (frame_create E items w) as (F & _ & W & _). tauto. }
  destruct (name =? "create_relations").
  { simpl. destruct (arg_relations a) as [items|]; [| simpl; tauto].
    rewrite createRelations_run. simpl. eexists. split; [reflexivity |].
    destruct (relate_fold E items w) as (_ & _ & _ & _ & _ & F & _ & W). tauto. }
  destruct (name =? "add_observations").
  { simpl. destruct (arg_observations a) as [items|]; [| simpl; tauto].
    rewrite addObservations_run.
    destruct (observe_loop items (memory w)) as [[[]|e] g]; simpl; [| tauto].
    eexists. split; [reflexivity |]. simpl. tauto. }
  destruct (name =? "search_nodes").
  { simpl. destruct (arg_query a); simpl; tauto. }
  destruct (name =? "read_graph"); simpl; tauto.
Qed.

End SaveFacts.

(** ** The tools that are listed and the tools that are dispatched *)

Module ToolFacts.
Import Run ReadFacts BatchFacts.

Lemma CallTool_unlisted E name args w :
  ~ In name CloudMemoryServer.tools ->
  CloudMemoryServer.CallTool E name args w
  = (Return ("Error executing " ++ name ++ ": Unknown tool: " ++ name), w).
Proof.
  intros H. unfold CloudMemoryServer.tools in H.
  apply not_in_cons_eqb in H as [H1 H]. apply not_in_cons_eqb in H as [H2 H].
  apply not_in_cons_eqb in H as [H3 H]. apply not_in_cons_eqb in H as [H4 H].
  apply not_in_cons_eqb in H as [H5 _].
  unfold CloudMemoryServer.CallTool, try_catch. now rewrite H1, H2, H3, H4, H5.
Qed.

Lemma handleRequest_unlisted E name args w :
  ~ In name SimpleMemoryServer.tools ->
  SimpleMemoryServer.handleRequest E (call_request name args) w
  = (Return (Failed ("Unknown tool: " ++ name)), w).
Proof.
  intros H. unfold SimpleMemoryServer.tools in H.
  apply not_in_cons_eqb in H as [H1 H]. apply not_in_cons_eqb in H as [H2 H].
  apply not_in_cons_eqb in H as [H3 _].
  unfold SimpleMemoryServer.handleRequest, SimpleMemoryServer.handleToolCall, try_catch.
  simpl. now rewrite H1, H2, H3.
Qed.

(** What a listed tool answers is never the text of an unknown tool. *)
Lemma CallTool_listed E name args w :
  In name CloudMemoryServer.tools ->
  fst (CloudMemoryServer.CallTool E name args w)
  <> Return ("Error executing " ++ name ++ ": Unknown tool: " ++ name).
Proof.
  intros H. simpl in H.
  destruct H as [<-|[<-|[<-|[<-|[<-|[]]]]]];
    unfold CloudMemoryServer.CallTool, try_catch, bind, CloudMemoryServer.argument;
    cbn [String.eqb Ascii.eqb Bool.eqb];
    (destruct args as [a|]; [| simpl; discriminate]).
  - destruct (arg_entities a) as [items|]; [| simpl; discriminate].
    cbv beta iota delta [ret]. rewrite createEntities_run. simpl. discriminate.
  - destruct (arg_relations a) as [items|]; [| simpl; discriminate].
    cbv beta iota delta [ret]. rewrite createRelations_run. simpl. discriminate.
  - destruct (arg_observations a) as [items|]; [| simpl; discriminate].
    cbv beta iota delta [ret]. rewrite addObservations_run.
    pose proof (observe_loop_throws items (memory w)) as T.
    destruct (observe_loop items (memory w)) as [[[]|e] g]; [simpl; discriminate |].
    rewrite (T e eq_refl). simpl. discriminate.
  - destruct (arg_query a) as [q|]; simpl; discriminate.
  - simpl. discriminate.
Qed.

Lemma handleRequest_listed E name args w :
  In name SimpleMemoryServer.tools ->
  fst (SimpleMemoryServer.handleRequest E (call_request name args) w)
  <> Return (Failed ("Unknown tool: " ++ name)).
Proof.
  intros H. simpl in H.
  destruct H as [<-|[<-|[<-|[]]]];
    unfold SimpleMemoryServer.handleRequest, SimpleMemoryServer.handleToolCall,
      try_catch, bind, CloudMemoryServer.argument, call_request;
    cbn [String.eqb Ascii.eqb Bool.eqb method params call_name call_arguments];
    (destruct args as [a|]; [| simpl; discriminate]).
  - destruct (arg_entities a) as [items|]; [| simpl; discriminate].
    cbv beta iota delta [ret]. rewrite Simple_createEntities_run. simpl. discriminate.
  - destruct (arg_query a) as [q|]; simpl; discriminate.
  - simpl. discriminate.
Qed.

Lemma search_relations_none q g acc :
  relations g = [] -> search_relations q g acc = acc.
Proof. unfold search_relations. now intros ->. Qed.

End ToolFacts.

(** ** Runs *)

Module RunFacts.

Lemma serve_invariant {R A} (handler : R -> M A) (P : world -> Prop) :
  (forall r w, P w -> P (snd (handler r w))) ->
  forall requests w, P w -> P (snd (serve handler requests w)).
Proof.
  intros H. induction requests as [|r rest IH]; intros w Pw; simpl; [assumption |].
  unfold bind. pose proof (H r w Pw) as P1.
  destruct (handler r w) as [[a|e] w1]; simpl in *; [| assumption].
  pose proof (IH w1 P1) as P2.
  destruct (serve handler rest w1) as [[answers|e] w2]; simpl in *; assumption.
Qed.

Lemma handleRequest_returns E r w :
  exists response w', SimpleMemoryServer.handleRequest E r w = (Return response, w').
Proof.
  unfold SimpleMemoryServer.handleRequest.
  apply (ReadFacts.try_catch_returns _ (fun error => Failed (message_of error))).
Qed.

End RunFacts.

(** ** Entities and the keys they are filed under *)

Module NameFacts.
Import ObjectFacts CreateFacts GrowthFacts.

Lemma keyed_assign n e g :
  Entity.name e = n -> keyed_by_name g -> keyed_by_name (assign_entity n e g).
Proof.
  intros N K k e0. rewrite getOwn_assign_entity.
  destruct (String.eqb_spec k n) as [->|Ne]; simpl.
  - destruct (_ || _); [| apply K]. now intros [= <-].
  - apply K.
Qed.

Lemma keyed_create E items : forall w,
  keyed_by_name (memory w) -> keyed_by_name (memory (fold_left (create_step E) items w)).
Proof.
  induction items as [|x l IH]; intros w K; simpl; [assumption |].
  apply IH. simpl. now apply keyed_assign.
Qed.

Lemma keyed_relate E items : forall w,
  keyed_by_name (memory w) -> keyed_by_name (memory (fold_left (relate_step E) items w)).
Proof.
  induction items as [|x l IH]; intros w K; simpl; [assumption |].
  apply IH. exact K.
Qed.

Lemma keyed_observe item g : keyed_by_name g -> keyed_by_name (snd (observe item g)).
Proof.
  intros K. unfold observe. cbv zeta.
  destruct (get_entity _ g) as [e|p|s| |] eqn:G; simpl; try assumption.
  - apply get_entity_own in G. intros k e0. simpl. rewrite getOwn_replaceOwn.
    destruct (String.eqb_spec k (ObservationItem.entityName item)) as [->|Ne]; simpl.
    + unfold JS.hasOwn. rewrite G. intros [= <-]. simpl. now apply K.
    + apply K.
  - destruct (s =? ""); assumption.
Qed.

Lemma keyed_observe_loop items : forall g,
  keyed_by_name g -> keyed_by_name (snd (observe_loop items g)).
Proof.
  induction items as [|item rest IH]; intros g K; simpl; [assumption |].
  pose proof (keyed_observe item g K) as K'.
  destruct (observe item g) as [[[]|e] g']; simpl in *; auto.
Qed.

Lemma keyed_effect E w created g' :
  effect E w created g' -> keyed_by_name (memory w) -> keyed_by_name g'.
Proof.
  intros [->|items _ ->|items ->|items ->] K.
  - assumption.
  - now apply keyed_create.
  - now apply keyed_relate.
  - now apply keyed_observe_loop.
Qed.

End NameFacts.

(** * The claims *)

Module Claims.
Import JSONSpec StringFacts ObjectFacts JSONFacts CodecFacts Run CreateFacts ReadFacts GrowthFacts
  DispatchFacts LoadFacts InvariantFacts.

(** C1.  When [createEntities] receives a list holding an item whose name is
    the name of an entity of the graph, the graph afterwards maps that name
    to the entity built from the last such item alone: the name, the item's
    [entityType], the item's [observations] (the empty list when the property
    is absent) and the time read while the item was handled.  Nothing of the
    entity that was there before remains.  Both classes behave so. *)
Theorem createEntities_replaces_existing
    (E : oracle) (w : world) (items : list EntityItem.t) (n : string) (old : Entity.t) :
  JS.getOwn n (entities (memory w)) = Some old ->
  (exists item, In item items /\ EntityItem.name item = n) ->
  exists i item,
    nth_error items i = Some item /\ EntityItem.name item = n /\
    (forall j item', i < j -> nth_error items j = Some item' ->
                     EntityItem.name item' <> n) /\
    let fresh :=
      {| Entity.name := n;
         Entity.entityType := EntityItem.entityType item;
         Entity.observations :=
           match EntityItem.observations item with Some l => l | None => [] end;
         Entity.createdAt := now E (clock_reads w + i) |} in
    JS.getOwn n (entities (memory (snd (CloudMemoryServer.createEntities E (Some items) w))))
      = Some fresh /\
    JS.getOwn n (entities (memory (snd (SimpleMemoryServer.createEntities E (Some items) w))))
      = Some fresh.
Proof.
  intros Old Named.
  assert (Own : JS.hasOwn n (entities (memory w)) = true)
    by (unfold JS.hasOwn; now rewrite Old).
  destruct (getOwn_create_last E items w n Own Named) as (i & item & Hi & Hn & Last & Get).
  exists i, item. repeat split; auto; cbv zeta.
  - rewrite createEntities_run. simpl snd. rewrite memory_saved, Get.
    unfold entity_of_item. now rewrite Hn.
  - rewrite Simple_createEntities_run. simpl snd. rewrite memory_saved, Get.
    unfold entity_of_item. now rewrite Hn.
Qed.

(** The example of the specification: [A] holds the observation [x];
    creating [A] again with [y] leaves [y] alone. *)
Lemma createEntities_replaces_existing_witness :
  exists i item,
    nth_error [Examples.item_A] i = Some item /\ EntityItem.name item = "A" /\
    (forall j item', i < j -> nth_error [Examples.item_A] j = Some item' ->
                     EntityItem.name item' <> "A") /\
    let fresh :=
      {| Entity.name := "A";
         Entity.entityType := EntityItem.entityType item;
         Entity.observations :=
           match EntityItem.observations item with Some l => l | None => [] end;
         Entity.createdAt := now Examples.calm (clock_reads Examples.world_A + i) |} in
    JS.getOwn "A" (entities (memory (snd
      (CloudMemoryServer.createEntities Examples.calm (Some [Examples.item_A])
         Examples.world_A)))) = Some fresh /\
    JS.getOwn "A" (entities (memory (snd
      (SimpleMemoryServer.createEntities Examples.calm (Some [Examples.item_A])
         Examples.world_A)))) = Some fresh.
Proof.
  apply (createEntities_replaces_existing Examples.calm Examples.world_A
           [Examples.item_A] "A" Examples.entity_A).
  - reflexivity.
  - exists Examples.item_A. split; [now left | reflexivity].
Defined.

Example createEntities_A_observations :
  option_map Entity.observations
    (JS.getOwn "A" (entities (memory (snd
       (CloudMemoryServer.createEntities Examples.calm (Some [Examples.item_A])
          Examples.world_A)))))
  = Some ["y"].
Proof. reflexivity. Qed.

(** C2.  The claim fails on a name that [Object.prototype] holds:
    [this.memory.entities[entityName]] is then a function, the test of the
    [if] passes, and pushing onto its missing [observations] throws.  With
    the item [{entityName: "constructor", contents: ["x"]}] and an empty
    graph the method throws a [TypeError] and the tool answers with an error
    text instead of the count; items handled before the throw have changed
    the memory, which is then not saved. *)
Theorem addObservations_throws_on_inherited_name :
  JS.getOwn "constructor" (entities (memory Examples.fresh)) = None /\
  CloudMemoryServer.addObservations Examples.calm
    (Some [Examples.observe_constructor]) Examples.fresh
  = (Throw (TypeError "Cannot read properties of undefined (reading 'push')"),
     Examples.fresh) /\
  CloudMemoryServer.CallTool Examples.calm "add_observations"
    (Some (Examples.add_to [Examples.observe_constructor])) Examples.fresh
  = (Return "Error executing add_observations: Cannot read properties of undefined (reading 'push')",
     Examples.fresh) /\
  let after :=
    snd (CloudMemoryServer.CallTool Examples.calm "add_observations"
           (Some (Examples.add_to [Examples.observe_A; Examples.observe_constructor]))
           Examples.world_A) in
  option_map Entity.observations (JS.getOwn "A" (entities (memory after)))
  = Some ["x"; "z"] /\
  file after = None /\ file_writes after = 0.
Proof. repeat split; reflexivity. Qed.

(** What [addObservations] does when every name is an own key or unknown to
    [Object.prototype], and the prototype of the map was never replaced: no
    throw, the count of the items, and each item appended to the entity of
    its name, if there is one. *)
Lemma addObservations_on_plain_names (E : oracle) (w : world)
    (items : list ObservationItem.t) :
  entities_proto (memory w) = None ->
  (forall item, In item items ->
                plain_name (memory w) (ObservationItem.entityName item)) ->
  CloudMemoryServer.addObservations E (Some items) w
  = (Return ("Added observations to " ++ JS.decimal (length items) ++
             " entities successfully"),
     saved E (with_memory (fold_left append_observations items (memory w)) w)) /\
  (forall g item,
     JS.getOwn (ObservationItem.entityName item) (entities g) = None ->
     append_observations g item = g) /\
  (forall g item e k,
     JS.getOwn (ObservationItem.entityName item) (entities g) = Some e ->
     JS.getOwn k (entities (append_observations g item))
     = if k =? ObservationItem.entityName item
       then Some (Entity.push (ObservationItem.contents item) e)
       else JS.getOwn k (entities g)).
Proof.
  intros P Pl. repeat split.
  - rewrite addObservations_run, observe_loop_plain by assumption. reflexivity.
  - intros g item H. unfold append_observations. now rewrite H.
  - intros g item e k H. unfold append_observations. rewrite H. simpl.
    rewrite getOwn_replaceOwn. unfold JS.hasOwn. now rewrite H, andb_true_r.
Qed.

(** C3.  When the write of the snapshot fails, each mutation answers as it
    does when the write succeeds and leaves the same memory, the mutated
    one; the failure shows in the file and on the console only.  This holds
    for the three mutating methods, for both classes and through both
    dispatchers. *)
Theorem save_failure_is_swallowed (E : oracle) (w : world) (residue : option string) :
  writeFile_outcome E (file_writes w) = WriteFailed residue ->
  (forall items,
     let failing := CloudMemoryServer.createEntities E (Some items) w in
     let succeeding := CloudMemoryServer.createEntities (writes_succeed E) (Some items) w in
     fst failing = Return ("Created " ++ JS.decimal (length items) ++ " entities successfully") /\
     fst failing = fst succeeding /\
     memory (snd failing) = memory (snd succeeding) /\
     memory (snd failing) = memory (fold_left (create_step E) items w) /\
     file (snd failing) = residue) /\
  (forall items,
     let failing := SimpleMemoryServer.createEntities E (Some items) w in
     let succeeding := SimpleMemoryServer.createEntities (writes_succeed E) (Some items) w in
     fst failing
     = Return (Content ("Created " ++ JS.decimal (length items) ++ " entities successfully")) /\
     fst failing = fst succeeding /\
     memory (snd failing) = memory (snd succeeding) /\
     memory (snd failing) = memory (fold_left (create_step E) items w) /\
     file (snd failing) = residue) /\
  (forall items,
     let failing := CloudMemoryServer.createRelations E (Some items) w in
     let succeeding := CloudMemoryServer.createRelations (writes_succeed E) (Some items) w in
     fst failing = Return ("Created " ++ JS.decimal (length items) ++ " relations successfully") /\
     fst failing = fst succeeding /\
     memory (snd failing) = memory (snd succeeding) /\
     memory (snd failing) = memory (fold_left (relate_step E) items w)) /\
  (forall items,
     let failing := CloudMemoryServer.addObservations E (Some items) w in
     let succeeding := CloudMemoryServer.addObservations (writes_succeed E) (Some items) w in
     fst failing = fst succeeding /\
     memory (snd failing) = memory (snd succeeding) /\
     memory (snd failing) = snd (observe_loop items (memory w)) /\
     (fst (observe_loop items (memory w)) = Return tt ->
      fst failing = Return ("Added observations to " ++ JS.decimal (length items) ++
                            " entities successfully"))) /\
  (forall name args,
     fst (CloudMemoryServer.CallTool E name args w)
     = fst (CloudMemoryServer.CallTool (writes_succeed E) name args w) /\
     memory (snd (CloudMemoryServer.CallTool E name args w))
     = memory (snd (CloudMemoryServer.CallTool (writes_succeed E) name args w))) /\
  (forall r,
     fst (SimpleMemoryServer.handleRequest E r w)
     = fst (SimpleMemoryServer.handleRequest (writes_succeed E) r w) /\
     memory (snd (SimpleMemoryServer.handleRequest E r w))
     = memory (snd (SimpleMemoryServer.handleRequest (writes_succeed E) r w))).
Proof.
  intros Fail. repeat split; cbv zeta.
  - now rewrite createEntities_run.
  - now rewrite !createEntities_run.
  - rewrite !createEntities_run. simpl. now rewrite !memory_saved.
  - rewrite createEntities_run. simpl. now rewrite memory_saved.
  - rewrite createEntities_run. simpl. unfold saved.
    destruct (frame_create E items w) as (_ & _ & W & _). now rewrite W, Fail.
  - now rewrite Simple_createEntities_run.
  - now rewrite !Simple_createEntities_run.
  - rewrite !Simple_createEntities_run. simpl. now rewrite !memory_saved.
  - rewrite Simple_createEntities_run. simpl. now rewrite memory_saved.
  - rewrite Simple_createEntities_run. simpl. unfold saved.
    destruct (frame_create E items w) as (_ & _ & W & _). now rewrite W, Fail.
  - now rewrite createRelations_run.
  - now rewrite !createRelations_run.
  - rewrite !createRelations_run. simpl. now rewrite !memory_saved.
  - rewrite createRelations_run. simpl. now rewrite memory_saved.
  - destruct (addObservations_any E (Some items) w) as (c & H1 & H2 & _). congruence.
  - destruct (addObservations_any E (Some items) w) as (c & _ & _ & H3 & _). now rewrite H3.
  - destruct (addObservations_any E (Some items) w) as (c & _ & _ & _ & _ & H5). exact H5.
  - intros Ok. destruct (addObservations_any E (Some items) w) as (c & H1 & _ & _ & H4 & _).
    rewrite H1, H4, Ok. reflexivity.
  - symmetry. apply CallTool_any.
  - symmetry. apply CallTool_any.
  - symmetry. apply handleRequest_any.
  - symmetry. apply handleRequest_any.
Qed.

(** On a disk where every write fails, creating an entity in the fresh world
    still answers with the count and keeps the entity in memory. *)
Lemma save_failure_is_swallowed_witness :
  writeFile_outcome Examples.broken_disk (file_writes Examples.fresh) = WriteFailed None /\
  fst (CloudMemoryServer.createEntities Examples.broken_disk (Some [Examples.item_A])
         Examples.fresh)
  = Return "Created 1 entities successfully" /\
  memory (snd (CloudMemoryServer.createEntities Examples.broken_disk
                 (Some [Examples.item_A]) Examples.fresh))
  = memory (fold_left (create_step Examples.broken_disk) [Examples.item_A] Examples.fresh) /\
  file (snd (CloudMemoryServer.createEntities Examples.broken_disk
               (Some [Examples.item_A]) Examples.fresh)) = None.
Proof.
  split; [reflexivity |].
  destruct (save_failure_is_swallowed Examples.broken_disk Examples.fresh None eq_refl)
    as (H & _).
  destruct (H [Examples.item_A]) as (H1 & _ & _ & H4 & H5).
  repeat split; assumption.
Defined.

(** C4.  [searchNodes] returns the entities of [Object.entries] order for
    which the lower-cased query is a substring of the lower-cased key, of the
    lower-cased [entityType] or of some lower-cased observation, followed, in
    [CloudMemoryServer] only, by the relations for which it is a substring of
    the lower-cased [from], [to] or [relationType], in the order of the
    relations; the text starts with the number of results.  An entity under
    the key FOO is found by the query foo. *)
Theorem searchNodes_matches (w : world) (query : string) :
  let q := JS.toLowerCase query in
  let hits := map (fun entry => EntityNode (snd entry))
                  (filter (entity_matches q) (entities (memory w))) in
  let links := map RelationNode (filter (relation_matches q) (relations (memory w))) in
  CloudMemoryServer.searchNodes (Some query) w
    = (Return (found_text (hits ++ links)%list), w) /\
  SimpleMemoryServer.searchNodes (Some query) w = (Return (Content (found_text hits)), w) /\
  (forall results,
     found_text results =
     "Found " ++ JS.decimal (length results) ++ " matching nodes:" ++ JS.nl ++ JS.nl ++
     JSON.stringify (JSON.Arr (map node_to_json results))) /\
  (forall name e,
     entity_matches q (name, e) = true <->
     JS.substring_of q (JS.toLowerCase name) \/
     JS.substring_of q (JS.toLowerCase (Entity.entityType e)) \/
     exists obs, In obs (Entity.observations e) /\
                 JS.substring_of q (JS.toLowerCase obs)) /\
  (forall r,
     relation_matches q r = true <->
     JS.substring_of q (JS.toLowerCase (Relation.from r)) \/
     JS.substring_of q (JS.toLowerCase (Relation.to r)) \/
     JS.substring_of q (JS.toLowerCase (Relation.relationType r))) /\
  (forall e, entity_matches (JS.toLowerCase "foo") ("FOO", e) = true).
Proof.
  cbv zeta. repeat split.
  - unfold CloudMemoryServer.searchNodes, bind, get_memory, ret.
    now rewrite search_relations_filter, search_entities_filter.
  - unfold SimpleMemoryServer.searchNodes, bind, get_memory, ret.
    now rewrite search_entities_filter.
  - apply entity_matches_iff.
  - apply entity_matches_iff.
  - apply relation_matches_iff.
  - apply relation_matches_iff.
Qed.

(** C5.  A tool name outside the tools of a class is answered with a text
    that holds the name; so is a method outside the three of
    [handleRequest].  Neither dispatcher ever completes by throwing, whatever
    the request, so a run of requests answers every one of them. *)
Theorem unknown_operations_are_answered (E : oracle) (w : world) :
  (forall name args, ~ In name CloudMemoryServer.tools ->
     CloudMemoryServer.CallTool E name args w
     = (Return ("Error executing " ++ name ++ ": Unknown tool: " ++ name), w)) /\
  (forall name args, exists text w',
     CloudMemoryServer.CallTool E name args w = (Return text, w')) /\
  (forall name args, ~ In name SimpleMemoryServer.tools ->
     SimpleMemoryServer.handleRequest E
       {| method := "tools/call";
          params := Some {| call_name := name; call_arguments := args |} |} w
     = (Return (Failed ("Unknown tool: " ++ name)), w)) /\
  (forall m p, ~ In m ["tools/list"; "tools/call"; "initialize"] ->
     SimpleMemoryServer.handleRequest E {| method := m; params := p |} w
     = (Return (Failed ("Unknown method: " ++ m)), w)) /\
  (forall r, exists a w', SimpleMemoryServer.handleRequest E r w = (Return a, w')) /\
  (forall calls, exists answers w',
     serve (fun call => CloudMemoryServer.CallTool E (fst call) (snd call)) calls w
     = (Return answers, w') /\ length answers = length calls) /\
  (forall requests, exists answers w',
     serve (SimpleMemoryServer.handleRequest E) requests w = (Return answers, w') /\
     length answers = length requests).
Proof.
  repeat split.
  - intros name args H. unfold CloudMemoryServer.tools in H.
    repeat (apply not_in_cons_eqb in H as [? H]).
    unfold CloudMemoryServer.CallTool, try_catch.
    repeat match goal with Hn : (name =? _) = false |- _ => rewrite Hn; clear Hn end.
    reflexivity.
  - intros name args. apply try_catch_returns.
  - intros name args H. unfold SimpleMemoryServer.tools in H.
    repeat (apply not_in_cons_eqb in H as [? H]).
    unfold SimpleMemoryServer.handleRequest, SimpleMemoryServer.handleToolCall, try_catch.
    simpl.
    repeat match goal with Hn : (name =? _) = false |- _ => rewrite Hn; clear Hn end.
    reflexivity.
  - intros m p H.
    repeat (apply not_in_cons_eqb in H as [? H]).
    unfold SimpleMemoryServer.handleRequest, try_catch. simpl.
    repeat match goal with Hn : (m =? _) = false |- _ => rewrite Hn; clear Hn end.
    reflexivity.
  - intros r. apply try_catch_returns.
  - intros calls. apply serve_answers. intros. apply try_catch_returns.
  - intros requests. apply serve_answers. intros. apply try_catch_returns.
Qed.

(** A tool that neither class has. *)
Lemma unknown_operations_are_answered_witness :
  ~ In "delete_entities" CloudMemoryServer.tools /\
  ~ In "create_relations" SimpleMemoryServer.tools /\
  CloudMemoryServer.CallTool Examples.calm "delete_entities" None Examples.fresh
  = (Return "Error executing delete_entities: Unknown tool: delete_entities",
     Examples.fresh) /\
  SimpleMemoryServer.handleRequest Examples.calm
    {| method := "tools/call";
       params := Some {| call_name := "create_relations"; call_arguments := None |} |}
    Examples.fresh
  = (Return (Failed "Unknown tool: create_relations"), Examples.fresh).
Proof.
  assert (H : ~ In "delete_entities" CloudMemoryServer.tools)
    by (simpl; intuition discriminate).
  assert (H' : ~ In "create_relations" SimpleMemoryServer.tools)
    by (simpl; intuition discriminate).
  destruct (unknown_operations_are_answered Examples.calm Examples.fresh)
    as (Cloud & _ & Simple & _).
  split; [exact H |]. split; [exact H' |].
  split; [exact (Cloud "delete_entities" None H) | exact (Simple "create_relations" None H')].
Defined.

(** C6.  Saving a graph and loading the file gives back the entities with
    their keys in the same order, the relations and the root [observations],
    field for field; saving what was loaded writes the same text again.  A
    snapshot that was not written by the server but parses to a value of the
    graph shape is loaded as that graph, and saving it writes a text that
    parses to the same value.  The graph is taken well formed, as every graph
    of an instance is ([well_formed_serving], [well_formed_kept]): the keys
    are in the engine's order and the numbers under the root [observations]
    are integers that a double holds exactly, which the engine prints as
    they were read.  A snapshot that spells other numbers, or code units
    above U+00FF, has no exact reading and is outside the statement. *)
Theorem snapshot_round_trip (E R : oracle) (w : world) :
  well_formed (memory w) ->
  writeFile_outcome E (file_writes w) = Written ->
  readFile_fails R = false ->
  let text := JSON.stringify (graph_to_json (memory w)) in
  file (snd (CloudMemoryServer.saveMemory E w)) = Some text /\
  JSON.parse text = Some (graph_to_json (memory w)) /\
  graph_of_json (graph_to_json (memory w)) = Some (persisted (memory w)) /\
  (exists w',
     CloudMemoryServer.constructor R (Some text) = Serving w' /\
     SimpleMemoryServer.constructor R (Some text) = Serving w' /\
     entities (memory w') = entities (memory w) /\
     relations (memory w') = relations (memory w) /\
     observations (memory w') = observations (memory w) /\
     file w' = Some text /\
     forall S, writeFile_outcome S (file_writes w') = Written ->
               file (snd (CloudMemoryServer.saveMemory S w')) = Some text) /\
  (forall snapshot v g,
     JSON.parse snapshot = Some v -> graph_of_json v = Some g ->
     exists w',
       CloudMemoryServer.constructor R (Some snapshot) = Serving w' /\
       memory w' = g /\ graph_to_json g = v /\
       forall S, writeFile_outcome S (file_writes w') = Written ->
         exists text', file (snd (CloudMemoryServer.saveMemory S w')) = Some text' /\
                       JSON.parse text' = Some v).
Proof.
  intros WF Ok Readable. cbv zeta.
  assert (Parse : JSON.parse (JSON.stringify (graph_to_json (memory w)))
                  = Some (graph_to_json (memory w)))
    by now apply parse_stringify, printable_graph.
  repeat split.
  - rewrite saveMemory_run. unfold saved. now rewrite Ok.
  - exact Parse.
  - apply graph_of_to_json.
  - exists {| memory := persisted (memory w);
              file := Some (JSON.stringify (graph_to_json (memory w)));
              console := ["Memory loaded successfully"];
              clock_reads := 0; file_writes := 0 |}.
    assert (L : CloudMemoryServer.loadMemory R
                  (initial (Some (JSON.stringify (graph_to_json (memory w)))))
                = Serving {| memory := persisted (memory w);
                             file := Some (JSON.stringify (graph_to_json (memory w)));
                             console := ["Memory loaded successfully"];
                             clock_reads := 0; file_writes := 0 |}).
    { eapply loadMemory_graph; [reflexivity | assumption | exact Parse | apply graph_of_to_json]. }
    split; [exact L |]. split; [exact L |].
    split; [reflexivity |]. split; [reflexivity |]. split; [reflexivity |].
    split; [reflexivity |].
    intros S OkS. rewrite saveMemory_run. unfold saved. simpl in *. now rewrite OkS.
  - intros snapshot v g P G.
    exists {| memory := g; file := Some snapshot;
              console := ["Memory loaded successfully"];
              clock_reads := 0; file_writes := 0 |}.
    split.
    { unfold CloudMemoryServer.constructor.
      eapply loadMemory_graph; [reflexivity | assumption | exact P | exact G]. }
    split; [reflexivity |]. split; [now apply graph_of_json_inv |].
    intros S OkS. rewrite saveMemory_run. unfold saved. simpl in *. rewrite OkS. simpl.
    eexists. split; [reflexivity |].
    rewrite (graph_of_json_inv v g G). apply parse_stringify.
    now apply parse_printable with snapshot.
Qed.

(** The world that holds [A], saved and loaded again on a calm disk. *)
Lemma snapshot_round_trip_witness :
  well_formed (memory Examples.world_A) /\
  writeFile_outcome Examples.calm (file_writes Examples.world_A) = Written /\
  readFile_fails Examples.calm = false /\
  exists w',
    CloudMemoryServer.constructor Examples.calm
      (file (snd (CloudMemoryServer.saveMemory Examples.calm Examples.world_A)))
    = Serving w' /\
    entities (memory w') = entities (memory Examples.world_A) /\
    relations (memory w') = relations (memory Examples.world_A) /\
    observations (memory w') = observations (memory Examples.world_A).
Proof.
  assert (WF : well_formed (memory Examples.world_A)).
  { split; simpl.
    - repeat split; [intros [] | constructor].
    - constructor; [exact I | constructor]. }
  split; [exact WF |]. split; [reflexivity |]. split; [reflexivity |].
  destruct (snapshot_round_trip Examples.calm Examples.calm Examples.world_A
              WF eq_refl eq_refl) as (Saved & _ & _ & (w' & C & _ & He & Hr & Ho & _) & _).
  exists w'. rewrite Saved. repeat split; assumption.
Defined.

(** C7, as the claim states it, fails: when the file is missing and the
    write of the empty graph fails too, no file exists afterwards. *)
Lemma load_failure_can_leave_no_file :
  exists w,
    CloudMemoryServer.constructor Examples.broken_disk None = Serving w /\
    memory w = empty_graph /\ file w = None.
Proof. eexists. repeat split; reflexivity. Qed.

(** C7, amended.  When the file is missing, cannot be read or is not JSON,
    the instance serves the empty graph, nothing is thrown, and one save of
    the empty graph has been attempted: the file holds the empty snapshot when
    that write succeeded and is as the failed write left it otherwise.  When
    the file parses, [this.memory] is the parsed value whatever its shape, and
    the file is not written.  A file that is JSON but spells a code unit
    above U+00FF or a number that is no integer a double holds exactly is
    loaded too: the file is left as it is and the success is logged; its
    value is outside the development. *)
Theorem loadMemory_outcomes (E : oracle) (snapshot : option string) :
  ((snapshot = None \/ readFile_fails E = true \/
    exists text, snapshot = Some text /\ JSON.grammatical text = false) ->
   exists w,
     CloudMemoryServer.constructor E snapshot = Serving w /\
     SimpleMemoryServer.constructor E snapshot = Serving w /\
     CloudMemoryServer.startFresh E (initial snapshot) = (Return tt, w) /\
     memory w = empty_graph /\ file_writes w = 1 /\
     file w = match writeFile_outcome E 0 with
              | Written => Some (JSON.stringify (graph_to_json empty_graph))
              | WriteFailed residue => residue
              end) /\
  (forall text v,
     snapshot = Some text -> readFile_fails E = false -> JSON.parse text = Some v ->
     memory_value (CloudMemoryServer.constructor E snapshot) = Some v /\
     memory_value (SimpleMemoryServer.constructor E snapshot) = Some v /\
     match CloudMemoryServer.constructor E snapshot with
     | Serving w => file w = Some text /\ file_writes w = 0
     | Unshaped _ kept _ => kept = Some text
     | Unread _ _ => False
     end) /\
  (forall text,
     snapshot = Some text -> readFile_fails E = false ->
     JSON.parse text = None -> JSON.grammatical text = true ->
     CloudMemoryServer.constructor E snapshot
     = Unread (Some text) ["Memory loaded successfully"] /\
     SimpleMemoryServer.constructor E snapshot
     = Unread (Some text) ["Memory loaded successfully"]) /\
  CloudMemoryServer.constructor Examples.calm (Some "{}")
  = Unshaped (JSON.Obj []) (Some "{}") ["Memory loaded successfully"].
Proof.
  split; [| split; [| split; [| reflexivity]]].
  3:{ intros text -> R P G.
      assert (L : CloudMemoryServer.loadMemory E (initial (Some text))
                  = Unread (Some text) ["Memory loaded successfully"])
        by now apply loadMemory_unread.
      split; exact L. }
  all: repeat split.
  - intros Failure. exists (started_fresh E (initial snapshot)).
    assert (L : CloudMemoryServer.loadMemory E (initial snapshot)
                = Serving (started_fresh E (initial snapshot))).
    { destruct Failure as [->|[U|(text & -> & P)]].
      - now apply loadMemory_missing.
      - now apply loadMemory_unreadable.
      - now apply loadMemory_corrupt with text. }
    repeat split; try exact L.
    + apply startFresh_run.
    + unfold started_fresh. now rewrite memory_saved.
    + unfold started_fresh. now rewrite writes_saved.
    + unfold started_fresh, saved. simpl.
      now destruct (writeFile_outcome E 0).
  - unfold CloudMemoryServer.constructor. subst snapshot.
    destruct (graph_of_json v) as [g|] eqn:G.
    + erewrite loadMemory_graph by (try reflexivity; eassumption).
      simpl. f_equal. now apply graph_of_json_inv.
    + erewrite loadMemory_other by (try reflexivity; eassumption). reflexivity.
  - unfold SimpleMemoryServer.constructor, SimpleMemoryServer.loadMemory. subst snapshot.
    destruct (graph_of_json v) as [g|] eqn:G.
    + erewrite loadMemory_graph by (try reflexivity; eassumption).
      simpl. f_equal. now apply graph_of_json_inv.
    + erewrite loadMemory_other by (try reflexivity; eassumption). reflexivity.
  - unfold CloudMemoryServer.constructor. subst snapshot.
    destruct (graph_of_json v) as [g|] eqn:G.
    + erewrite loadMemory_graph by (try reflexivity; eassumption). now split.
    + erewrite loadMemory_other by (try reflexivity; eassumption). reflexivity.
Qed.

(** A first start, without a file, on a calm disk. *)
Lemma loadMemory_outcomes_witness :
  exists w,
    CloudMemoryServer.constructor Examples.calm None = Serving w /\
    memory w = empty_graph /\
    file w = Some (JSON.stringify (graph_to_json empty_graph)).
Proof.
  destruct (loadMemory_outcomes Examples.calm None) as (Failure & _).
  destruct (Failure (or_introl eq_refl)) as (w & C & _ & _ & M & _ & F).
  exists w. split; [exact C |]. split; [exact M | exact F].
Defined.

(** A start on a file that is not JSON, and a start on a file that is JSON
    and spells a code unit above U+00FF: the first is overwritten with the
    empty snapshot, the second is kept. *)
Example loadMemory_on_other_texts :
  (exists w,
     CloudMemoryServer.constructor Examples.calm (Some "{entities") = Serving w /\
     memory w = empty_graph /\
     file w = Some (JSON.stringify (graph_to_json empty_graph))) /\
  CloudMemoryServer.constructor Examples.calm (Some Examples.beyond_snapshot)
  = Unread (Some Examples.beyond_snapshot) ["Memory loaded successfully"] /\
  CloudMemoryServer.constructor Examples.calm
    (Some ("{" ++ JS.quoted "big" ++ ": 1e999}"))
  = Unread (Some ("{" ++ JS.quoted "big" ++ ": 1e999}")) ["Memory loaded successfully"].
Proof.
  split; [eexists; repeat split; reflexivity |]. repeat split; reflexivity.
Qed.

Example empty_snapshot :
  JSON.stringify (graph_to_json empty_graph)
  = "{" ++ JS.nl ++
    "  " ++ JS.quoted "entities" ++ ": {}," ++ JS.nl ++
    "  " ++ JS.quoted "relations" ++ ": []," ++ JS.nl ++
    "  " ++ JS.quoted "observations" ++ ": {}" ++ JS.nl ++ "}".
Proof. reflexivity. Qed.

(** C8.  [readGraph] reports the number of keys of the entities map, the
    length of the relations and the sum of the lengths of the observations of
    all entities, then the whole graph in the very text that [saveMemory]
    writes.  Two entities with three and one observations and four relations
    give 2, 4 and 4. *)
Theorem readGraph_statistics (w : world) :
  let g := memory w in
  let total :=
    list_sum (map (fun e => length (Entity.observations e)) (JS.values (entities g))) in
  let statistics :=
    JSON.Obj [ ("entities", JSON.of_nat (length (JS.keys (entities g))));
               ("relations", JSON.of_nat (length (relations g)));
               ("totalObservations", JSON.of_nat total) ] in
  let text :=
    "Knowledge Graph Contents:" ++ JS.nl ++ JS.nl ++ "Statistics:" ++ JS.nl ++
    JSON.stringify statistics ++ JS.nl ++ JS.nl ++
    "Full Graph:" ++ JS.nl ++ JSON.stringify (graph_to_json g) in
  CloudMemoryServer.readGraph w = (Return text, w) /\
  SimpleMemoryServer.readGraph w = (Return (Content text), w) /\
  (forall E, writeFile_outcome E (file_writes w) = Written ->
             file (snd (CloudMemoryServer.saveMemory E w))
             = Some (JSON.stringify (graph_to_json g))) /\
  graph_stats Examples.graph_2_4
    = {| stat_entities := 2; stat_relations := 4; stat_totalObservations := 4 |} /\
  JSON.stringify (stats_to_json (graph_stats Examples.graph_2_4))
    = "{" ++ JS.nl ++
      "  " ++ JS.quoted "entities" ++ ": 2," ++ JS.nl ++
      "  " ++ JS.quoted "relations" ++ ": 4," ++ JS.nl ++
      "  " ++ JS.quoted "totalObservations" ++ ": 4" ++ JS.nl ++ "}".
Proof.
  cbv zeta.
  assert (T : graph_text (memory w) =
    "Knowledge Graph Contents:" ++ JS.nl ++ JS.nl ++ "Statistics:" ++ JS.nl ++
    JSON.stringify
      (JSON.Obj [ ("entities", JSON.of_nat (length (JS.keys (entities (memory w)))));
                  ("relations", JSON.of_nat (length (relations (memory w))));
                  ("totalObservations",
                   JSON.of_nat (list_sum (map (fun e => length (Entity.observations e))
                                              (JS.values (entities (memory w)))))) ]) ++
    JS.nl ++ JS.nl ++ "Full Graph:" ++ JS.nl ++ JSON.stringify (graph_to_json (memory w))).
  { unfold graph_text, stats_to_json, graph_stats. cbn [stat_entities stat_relations
      stat_totalObservations]. now rewrite fold_sum. }
  repeat split.
  - unfold CloudMemoryServer.readGraph, bind, get_memory, ret. now rewrite T.
  - unfold SimpleMemoryServer.readGraph, bind, get_memory, ret. now rewrite T.
  - intros E Ok. rewrite saveMemory_run. unfold saved. now rewrite Ok.
Qed.

(** C9, as the claim states it, fails: [createEntities] on the name of an
    entity drops the observations that the entity held. *)
Lemma createEntities_drops_observations :
  let after :=
    snd (CloudMemoryServer.CallTool Examples.calm "create_entities"
           (Some Examples.create_A) Examples.world_A) in
  exists e e',
    JS.getOwn "A" (entities (memory Examples.world_A)) = Some e /\
    JS.getOwn "A" (entities (memory after)) = Some e' /\
    ~ list_prefix (Entity.observations e) (Entity.observations e').
Proof.
  eexists _, _. repeat split; try reflexivity.
  intros [r H]. discriminate H.
Qed.

(** C9, amended.  After any request to either dispatcher the relations of
    before are a prefix of the relations of after, the root [observations] are
    the same, and every key of the entities map is still a key.  The entity
    under a key has kept its name, type and time and its observations of
    before are a prefix of its observations of after, unless the request is a
    [create_entities] whose items name the key. *)
Theorem requests_keep_and_extend (E : oracle) (w : world) :
  (forall name args,
     let g := memory w in
     let g' := memory (snd (CloudMemoryServer.CallTool E name args w)) in
     list_prefix (relations g) (relations g') /\
     observations g' = observations g /\
     forall k e, JS.getOwn k (entities g) = Some e ->
       exists e', JS.getOwn k (entities g') = Some e' /\
         (entity_grows e e' \/
          exists items, created_by name args = Some items /\
                        In k (map EntityItem.name items))) /\
  (forall r,
     let g := memory w in
     let g' := memory (snd (SimpleMemoryServer.handleRequest E r w)) in
     list_prefix (relations g) (relations g') /\
     observations g' = observations g /\
     forall k e, JS.getOwn k (entities g) = Some e ->
       exists e', JS.getOwn k (entities g') = Some e' /\
         (entity_grows e e' \/
          exists items, request_creates r = Some items /\
                        In k (map EntityItem.name items))).
Proof.
  assert (Main : forall created g',
    effect E w created g' ->
    list_prefix (relations (memory w)) (relations g') /\
    observations g' = observations (memory w) /\
    forall k e, JS.getOwn k (entities (memory w)) = Some e ->
      exists e', JS.getOwn k (entities g') = Some e' /\
        (entity_grows e e' \/
         exists items, created = Some items /\ In k (map EntityItem.name items))).
  { intros created g' [->|items C ->|items ->|items ->].
    - repeat split; [apply list_prefix_refl |].
      intros k e H. exists e. split; [assumption | left; apply entity_grows_refl].
    - destruct (create_fold_keeps E items w) as (R & O & K).
      repeat split; [rewrite R; apply list_prefix_refl | assumption |].
      intros k e H. destruct (K k e H) as (e' & G & Same).
      exists e'. split; [assumption |].
      destruct (in_dec string_dec k (map EntityItem.name items)) as [I|NI].
      + right. now exists items.
      + left. rewrite (Same NI). apply entity_grows_refl.
    - destruct (relate_fold_grows E items w) as [(R & O & K) _].
      repeat split; [assumption | assumption |].
      intros k e H. destruct (K k e H) as (e' & G & Gr). exists e'. tauto.
    - destruct (observe_loop_grows items (memory w)) as (R & O & K).
      repeat split; [assumption | assumption |].
      intros k e H. destruct (K k e H) as (e' & G & Gr). exists e'. tauto. }
  split.
  - intros name args. cbv zeta. apply Main. apply CallTool_any.
  - intros r. cbv zeta. apply Main. apply handleRequest_any.
Qed.

(** C10.  [searchNodes] and [readGraph] change nothing: the world after them
    is the world before them, memory, file, console and the counters of
    clock readings and file writes included.  This holds for both classes,
    and when the two tools are called through the dispatchers. *)
Theorem search_and_read_change_nothing (E : oracle) (w : world)
    (query : option string) (args : option arguments) :
  snd (CloudMemoryServer.searchNodes query w) = w /\
  snd (CloudMemoryServer.readGraph w) = w /\
  snd (SimpleMemoryServer.searchNodes query w) = w /\
  snd (SimpleMemoryServer.readGraph w) = w /\
  snd (CloudMemoryServer.CallTool E "search_nodes" args w) = w /\
  snd (CloudMemoryServer.CallTool E "read_graph" args w) = w /\
  snd (SimpleMemoryServer.handleRequest E
         {| method := "tools/call";
            params := Some {| call_name := "search_nodes"; call_arguments := args |} |} w) = w /\
  snd (SimpleMemoryServer.handleRequest E
         {| method := "tools/call";
            params := Some {| call_name := "read_graph"; call_arguments := args |} |} w) = w.
Proof.
  assert (S1 : forall q, snd (CloudMemoryServer.searchNodes q w) = w)
    by (intros [q|]; reflexivity).
  assert (S2 : forall q, snd (SimpleMemoryServer.searchNodes q w) = w)
    by (intros [q|]; reflexivity).
  repeat split; auto.
  - destruct args as [a|]; [| reflexivity].
    unfold CloudMemoryServer.CallTool, try_catch, bind. simpl.
    destruct (arg_query a); reflexivity.
  - destruct args as [a|]; [| reflexivity].
    unfold SimpleMemoryServer.handleRequest, try_catch, bind. simpl.
    destruct (arg_query a); reflexivity.
Qed.

End Claims.

(** * Further properties of the code *)

Module Extras.
Import JSONSpec StringFacts ObjectFacts JSONFacts CodecFacts Run CreateFacts ReadFacts
  GrowthFacts LoadFacts InvariantFacts RelateFacts StatsFacts QueryFacts BatchFacts
  SaveFacts ToolFacts RunFacts NameFacts.

(** X1.  After [createEntities], a key that no item names holds what it held
    before, and a key that some item names holds the entity built from the
    last item of that name, stamped with the clock reading of that item's
    turn.  The second part needs the assignment to reach the object: the key
    is an own key already, or it is not [__proto__]. *)
Theorem createEntities_files_last_item (E : oracle) (w : world)
    (items : list EntityItem.t) (k : string) :
  let w' := snd (CloudMemoryServer.createEntities E (Some items) w) in
  ((forall item, In item items -> EntityItem.name item <> k) ->
   JS.getOwn k (entities (memory w')) = JS.getOwn k (entities (memory w))) /\
  (forall i item,
     nth_error items i = Some item -> EntityItem.name item = k ->
     (forall j item', i < j -> nth_error items j = Some item' ->
                      EntityItem.name item' <> k) ->
     JS.hasOwn k (entities (memory w)) = true \/ k <> "__proto__" ->
     JS.getOwn k (entities (memory w'))
     = Some (entity_of_item item (now E (clock_reads w + i)))).
Proof.
  cbv zeta. rewrite createEntities_run. cbn [snd]. rewrite memory_saved. split.
  - intros None_named. now apply getOwn_create_others.
  - intros i item Hi Hk Last Ok.
    destruct (getOwn_create_decides E items w k Ok) as (i' & item' & Hi' & Hk' & Last' & G).
    { exists item. split; [| assumption]. eapply nth_error_In. eassumption. }
    destruct (Nat.lt_trichotomy i i') as [Lt|[Eq|Gt]].
    + exfalso. now apply (Last i' item').
    + subst i'. rewrite Hi in Hi'. injection Hi' as <-. exact G.
    + exfalso. now apply (Last' i item).
Qed.

Lemma createEntities_files_last_item_witness :
  JS.getOwn "B"
    (entities (memory (snd (CloudMemoryServer.createEntities Examples.calm
                              (Some [MoreExamples.item_B]) Examples.world_A))))
  = Some (entity_of_item MoreExamples.item_B (now Examples.calm 0)).
Proof.
  apply (proj2 (createEntities_files_last_item Examples.calm Examples.world_A
                  [MoreExamples.item_B] "B") 0 MoreExamples.item_B).
  - reflexivity.
  - reflexivity.
  - intros j item' Lt H. destruct j as [|[|j]]; [lia | discriminate | discriminate].
  - right. discriminate.
Defined.

(** X2.  Items of distinct new names that are neither array indices nor
    [__proto__] are filed behind the entities that exist, in the order of the
    items: the listing order of the graph is the order of creation. *)
Theorem createEntities_appends_new_names (E : oracle) (w : world)
    (items : list EntityItem.t) :
  NoDup (map EntityItem.name items) ->
  (forall item, In item items ->
     JS.hasOwn (EntityItem.name item) (entities (memory w)) = false /\
     JS.array_index (EntityItem.name item) = None /\
     EntityItem.name item <> "__proto__") ->
  entities (memory (snd (CloudMemoryServer.createEntities E (Some items) w)))
  = (entities (memory w) ++ filed E (clock_reads w) items)%list.
Proof.
  intros ND New. rewrite createEntities_run. cbn [snd]. rewrite memory_saved.
  now apply create_fresh.
Qed.

Lemma createEntities_appends_new_names_witness :
  JS.keys (entities (memory (snd (CloudMemoryServer.createEntities Examples.calm
             (Some [MoreExamples.item_C; MoreExamples.item_B]) Examples.world_A))))
  = ["A"; "C"; "B"].
Proof.
  rewrite (createEntities_appends_new_names Examples.calm Examples.world_A
             [MoreExamples.item_C; MoreExamples.item_B]).
  - reflexivity.
  - repeat constructor; simpl; intuition discriminate.
  - intros item [<-|[<-|[]]]; repeat split; discriminate.
Defined.

(** X3.  When every item names an entity that exists, [createEntities] keeps
    every key at its place: nothing is added, removed or moved, and the
    number of entities that [readGraph] reports is the same. *)
Theorem createEntities_keeps_positions (E : oracle) (w : world)
    (items : list EntityItem.t) :
  (forall item, In item items ->
                JS.hasOwn (EntityItem.name item) (entities (memory w)) = true) ->
  let w' := snd (CloudMemoryServer.createEntities E (Some items) w) in
  JS.keys (entities (memory w')) = JS.keys (entities (memory w)) /\
  stat_entities (graph_stats (memory w')) = stat_entities (graph_stats (memory w)).
Proof.
  intros Own. cbv zeta. rewrite createEntities_run. cbn [snd]. rewrite memory_saved.
  unfold graph_stats. cbn [stat_entities].
  rewrite (keys_create_own E items w Own). split; reflexivity.
Qed.

Lemma createEntities_keeps_positions_witness :
  JS.keys (entities (memory (snd (CloudMemoryServer.createEntities Examples.calm
             (Some [Examples.item_A]) Examples.world_A))))
  = ["A"].
Proof.
  apply (createEntities_keeps_positions Examples.calm Examples.world_A [Examples.item_A]).
  intros item [<-|[]]. reflexivity.
Defined.

(** X4.  An item named [__proto__] is counted but not stored: on a graph
    that has no own key of that name, a batch of such items is answered with
    its length, while the entities, the snapshot that is written and the
    result of every search stay what they were. *)
Theorem createEntities_drops_proto_items (E : oracle) (w : world)
    (items : list EntityItem.t) :
  (forall item, In item items -> EntityItem.name item = "__proto__") ->
  JS.hasOwn "__proto__" (entities (memory w)) = false ->
  let r := CloudMemoryServer.createEntities E (Some items) w in
  fst r = Return ("Created " ++ JS.decimal (length items) ++ " entities successfully") /\
  entities (memory (snd r)) = entities (memory w) /\
  graph_to_json (memory (snd r)) = graph_to_json (memory w) /\
  forall query, search_results query (memory (snd r)) = search_results query (memory w).
Proof.
  intros All No. cbv zeta. rewrite createEntities_run. cbn [fst snd].
  rewrite memory_saved.
  pose proof (create_proto E items w All No) as En.
  destruct (frame_create E items w) as (_ & _ & _ & R & O).
  split; [reflexivity |]. split; [exact En |]. split.
  - unfold graph_to_json. now rewrite En, R, O.
  - intros query. unfold search_results, search_relations, search_entities.
    now rewrite En, R.
Qed.

Lemma createEntities_drops_proto_items_witness :
  fst (CloudMemoryServer.createEntities Examples.calm
         (Some [MoreExamples.item_proto]) Examples.world_A)
  = Return "Created 1 entities successfully" /\
  JS.keys (entities (memory (snd (CloudMemoryServer.createEntities Examples.calm
             (Some [MoreExamples.item_proto]) Examples.world_A))))
  = ["A"].
Proof.
  destruct (createEntities_drops_proto_items Examples.calm Examples.world_A
              [MoreExamples.item_proto]) as (T & En & _).
  - intros item [<-|[]]. reflexivity.
  - reflexivity.
  - split; [exact T |]. rewrite En. reflexivity.
Defined.

(** X5.  [createRelations] appends one relation for each item, in the order
    of the items, each stamped with its own clock reading, whether or not
    the names it links are entities.  Entities and the root [observations]
    are untouched, the count of the items is answered, and the statistics
    change in the number of relations only. *)
Theorem createRelations_appends (E : oracle) (w : world) (items : list RelationItem.t) :
  let r := CloudMemoryServer.createRelations E (Some items) w in
  fst r = Return ("Created " ++ JS.decimal (length items) ++ " relations successfully") /\
  relations (memory (snd r))
  = (relations (memory w) ++ stamped E (clock_reads w) items)%list /\
  entities (memory (snd r)) = entities (memory w) /\
  observations (memory (snd r)) = observations (memory w) /\
  clock_reads (snd r) = clock_reads w + length items /\
  graph_stats (memory (snd r))
  = {| stat_entities := stat_entities (graph_stats (memory w));
       stat_relations := stat_relations (graph_stats (memory w)) + length items;
       stat_totalObservations := stat_totalObservations (graph_stats (memory w)) |}.
Proof.
  cbv zeta. rewrite createRelations_run. cbn [fst snd].
  rewrite memory_saved, clock_saved.
  destruct (relate_fold E items w) as (R & En & _ & O & C & _).
  split; [reflexivity |]. split; [exact R |]. split; [exact En |].
  split; [exact O |]. split; [exact C |].
  unfold graph_stats. rewrite R, En. cbn [stat_entities stat_relations stat_totalObservations].
  now rewrite length_app, length_stamped.
Qed.

(** X6.  [addObservations] is not atomic.  When an item names a key that is
    no entity but is found in [Object.prototype], the call throws at that
    item: the items before it have been applied to the memory, the items
    after it are not looked at, and nothing is saved, so that the memory and
    the file part. *)
Theorem addObservations_stops_midway (E : oracle) (w : world)
    (before : list ObservationItem.t) (bad : ObservationItem.t)
    (rest : list ObservationItem.t) :
  entities_proto (memory w) = None ->
  (forall item, In item before ->
                plain_name (memory w) (ObservationItem.entityName item)) ->
  JS.hasOwn (ObservationItem.entityName bad) (entities (memory w)) = false ->
  JS.in_Object_prototype (ObservationItem.entityName bad) = true ->
  CloudMemoryServer.addObservations E (Some (before ++ bad :: rest)%list) w
  = (Throw (undefined_property "push"),
     with_memory (fold_left append_observations before (memory w)) w).
Proof.
  intros P Pl No In. rewrite addObservations_run, observe_loop_app.
  rewrite observe_loop_plain by assumption.
  destruct (fold_append_frame before (memory w)) as [P' H'].
  cbn [observe_loop].
  rewrite observe_inherited; [reflexivity | congruence | now rewrite H' | assumption].
Qed.

Lemma addObservations_stops_midway_witness :
  let after :=
    snd (CloudMemoryServer.addObservations Examples.calm
           (Some [Examples.observe_A; Examples.observe_constructor; Examples.observe_A])
           Examples.world_A) in
  option_map Entity.observations (JS.getOwn "A" (entities (memory after)))
  = Some ["x"; "z"] /\
  file after = None.
Proof.
  cbv zeta.
  pose proof (addObservations_stops_midway Examples.calm Examples.world_A
                [Examples.observe_A] Examples.observe_constructor [Examples.observe_A])
    as H.
  cbn [app] in H. rewrite H.
  - split; reflexivity.
  - reflexivity.
  - intros item [<-|[]]. left. reflexivity.
  - reflexivity.
  - reflexivity.
Defined.

(** X7.  [addObservations] never changes the number of entities or of
    relations, whether it returns or throws; on names that are safe to look
    up it raises [totalObservations] by the lengths of the [contents] of the
    items whose entity exists, and by nothing for the others. *)
Theorem addObservations_statistics (E : oracle) (w : world)
    (items : list ObservationItem.t) :
  let w' := snd (CloudMemoryServer.addObservations E (Some items) w) in
  stat_entities (graph_stats (memory w')) = stat_entities (graph_stats (memory w)) /\
  stat_relations (graph_stats (memory w')) = stat_relations (graph_stats (memory w)) /\
  (entities_proto (memory w) = None ->
   (forall item, In item items ->
                 plain_name (memory w) (ObservationItem.entityName item)) ->
   stat_totalObservations (graph_stats (memory w'))
   = stat_totalObservations (graph_stats (memory w)) + added_observations (memory w) items).
Proof.
  cbv zeta. rewrite addObservations_run.
  pose proof (observe_loop_frame items (memory w)) as (K & R & _).
  split; [| split].
  - destruct (observe_loop items (memory w)) as [[[]|e] g]; cbn [snd] in *;
      rewrite ?memory_saved; unfold graph_stats; cbn [stat_entities memory with_memory];
      now rewrite K.
  - destruct (observe_loop items (memory w)) as [[[]|e] g]; cbn [snd] in *;
      rewrite ?memory_saved; unfold graph_stats; cbn [stat_relations memory with_memory];
      now rewrite R.
  - intros P Pl. rewrite observe_loop_plain by assumption. cbn [snd].
    rewrite memory_saved. cbn [memory with_memory]. apply total_fold_append.
Qed.

(** X8.  A batch may be split: calling a mutating method on the first part
    of a list and then on the rest leaves the memory and the clock that one
    call on the whole list leaves, at the cost of one more write.  For
    [addObservations] this holds when the call on the first part returns. *)
Theorem batches_split (E : oracle) (w : world) :
  (forall xs ys,
     let one := snd (CloudMemoryServer.createEntities E (Some (xs ++ ys)%list) w) in
     let two := snd (CloudMemoryServer.createEntities E (Some ys)
                       (snd (CloudMemoryServer.createEntities E (Some xs) w))) in
     memory two = memory one /\ clock_reads two = clock_reads one /\
     file_writes two = S (file_writes one)) /\
  (forall xs ys,
     let one := snd (CloudMemoryServer.createRelations E (Some (xs ++ ys)%list) w) in
     let two := snd (CloudMemoryServer.createRelations E (Some ys)
                       (snd (CloudMemoryServer.createRelations E (Some xs) w))) in
     memory two = memory one /\ clock_reads two = clock_reads one /\
     file_writes two = S (file_writes one)) /\
  (forall xs ys,
     (exists text, fst (CloudMemoryServer.addObservations E (Some xs) w) = Return text) ->
     memory (snd (CloudMemoryServer.addObservations E (Some ys)
                    (snd (CloudMemoryServer.addObservations E (Some xs) w))))
     = memory (snd (CloudMemoryServer.addObservations E (Some (xs ++ ys)%list) w))).
Proof.
  split; [| split].
  - intros xs ys. cbv zeta. rewrite !createEntities_run. cbn [snd].
    rewrite !memory_saved, !clock_saved, !writes_saved, fold_left_app.
    destruct (create_fold_ext E ys (saved E (fold_left (create_step E) xs w))
                (fold_left (create_step E) xs w)) as [M C];
      [apply memory_saved | apply clock_saved |].
    destruct (frame_create E ys (saved E (fold_left (create_step E) xs w)))
      as (_ & _ & W1 & _).
    destruct (frame_create E ys (fold_left (create_step E) xs w)) as (_ & _ & W2 & _).
    rewrite M, C, W1, W2, writes_saved. repeat split; reflexivity.
  - intros xs ys. cbv zeta. rewrite !createRelations_run. cbn [snd].
    rewrite !memory_saved, !clock_saved, !writes_saved, fold_left_app.
    destruct (relate_fold_ext E ys (saved E (fold_left (relate_step E) xs w))
                (fold_left (relate_step E) xs w)) as [M C];
      [apply memory_saved | apply clock_saved |].
    destruct (relate_fold E ys (saved E (fold_left (relate_step E) xs w)))
      as (_ & _ & _ & _ & _ & _ & _ & W1).
    destruct (relate_fold E ys (fold_left (relate_step E) xs w))
      as (_ & _ & _ & _ & _ & _ & _ & W2).
    rewrite M, C, W1, W2, writes_saved. repeat split; reflexivity.
  - intros xs ys [text Ret]. rewrite !addObservations_run in *.
    rewrite observe_loop_app.
    destruct (observe_loop xs (memory w)) as [[[]|e] g]; [| discriminate].
    cbn [snd]. rewrite memory_saved. cbn [memory with_memory].
    destruct (observe_loop ys g) as [[[]|e] g']; cbn [snd];
      rewrite ?memory_saved; reflexivity.
Qed.

(** X9.  A tool call writes the file at most once.  It writes exactly when
    it is a mutating tool whose list is present and whose loop did not
    throw, also for an empty list; the file then holds the snapshot of the
    memory that the call leaves, or what the failed write left.  Every other
    call, searches, reads, unknown tools and failed calls, leaves the file as
    it was. *)
Theorem CallTool_writes_at_most_once (E : oracle) (name : string)
    (args : option arguments) (w : world) :
  let w' := snd (CloudMemoryServer.CallTool E name args w) in
  if reaches_save name args (memory w)
  then file_writes w' = S (file_writes w) /\
       file w' = match writeFile_outcome E (file_writes w) with
                 | Written => Some (JSON.stringify (graph_to_json (memory w')))
                 | WriteFailed residue => residue
                 end
  else file_writes w' = file_writes w /\ file w' = file w.
Proof.
  cbv zeta. pose proof (CallTool_saves E name args w) as H.
  destruct (reaches_save name args (memory w)).
  - destruct H as (w0 & -> & W & _).
    rewrite writes_saved, file_saved, memory_saved, W. split; reflexivity.
  - tauto.
Qed.

(** X10.  What a mutating call leaves is what a restart serves: when the
    call reaches its write and the write succeeds, an instance of either
    class constructed on the file holds the entities, the relations and the
    root [observations] of the memory that the call left. *)
Theorem restart_serves_the_memory (E R : oracle) (name : string)
    (args : option arguments) (w : world) :
  well_formed (memory w) ->
  reaches_save name args (memory w) = true ->
  writeFile_outcome E (file_writes w) = Written ->
  readFile_fails R = false ->
  let w' := snd (CloudMemoryServer.CallTool E name args w) in
  exists restarted,
    CloudMemoryServer.constructor R (file w') = Serving restarted /\
    SimpleMemoryServer.constructor R (file w') = Serving restarted /\
    entities (memory restarted) = entities (memory w') /\
    relations (memory restarted) = relations (memory w') /\
    observations (memory restarted) = observations (memory w').
Proof.
  intros WF Reach Ok Readable. cbv zeta.
  pose proof (proj1 (well_formed_kept E w WF) name args) as WF'.
  pose proof (CallTool_saves E name args w) as H. rewrite Reach in H.
  destruct H as (w0 & Eq & W & _).
  assert (F : file (snd (CloudMemoryServer.CallTool E name args w))
              = Some (JSON.stringify
                        (graph_to_json
                           (memory (snd (CloudMemoryServer.CallTool E name args w)))))).
  { rewrite Eq, file_saved, memory_saved, W, Ok. reflexivity. }
  rewrite F.
  set (g := memory (snd (CloudMemoryServer.CallTool E name args w))) in *.
  exists {| memory := persisted g; file := Some (JSON.stringify (graph_to_json g));
            console := ["Memory loaded successfully"];
            clock_reads := 0; file_writes := 0 |}.
  assert (L : CloudMemoryServer.loadMemory R (initial (Some (JSON.stringify (graph_to_json g))))
              = Serving {| memory := persisted g;
                           file := Some (JSON.stringify (graph_to_json g));
                           console := ["Memory loaded successfully"];
                           clock_reads := 0; file_writes := 0 |}).
  { eapply loadMemory_graph;
      [reflexivity | assumption | now apply parse_stringify, printable_graph
       | apply graph_of_to_json]. }
  split; [exact L |]. split; [exact L |]. repeat split; reflexivity.
Qed.

Lemma restart_serves_the_memory_witness :
  exists restarted,
    CloudMemoryServer.constructor Examples.calm
      (file (snd (CloudMemoryServer.CallTool Examples.calm "create_entities"
                    (Some Examples.create_A) Examples.world_A)))
    = Serving restarted /\
    option_map Entity.observations (JS.getOwn "A" (entities (memory restarted)))
    = Some ["y"].
Proof.
  destruct (restart_serves_the_memory Examples.calm Examples.calm "create_entities"
              (Some Examples.create_A) Examples.world_A)
    as (restarted & C & _ & En & _).
  - split; simpl.
    + repeat split; [intros [] | constructor].
    + constructor; [exact I | constructor].
  - reflexivity.
  - reflexivity.
  - reflexivity.
  - exists restarted. split; [exact C |]. rewrite En. reflexivity.
Defined.

(** X11.  The empty query matches everything: [searchNodes] of
    [CloudMemoryServer] lists every entity in the order of the keys and then
    every relation, [searchNodes] of [SimpleMemoryServer] every entity, and
    neither changes anything. *)
Theorem empty_query_finds_everything (w : world) :
  let everything :=
    (map EntityNode (JS.values (entities (memory w))) ++
     map RelationNode (relations (memory w)))%list in
  CloudMemoryServer.searchNodes (Some "") w = (Return (found_text everything), w) /\
  SimpleMemoryServer.searchNodes (Some "") w
  = (Return (Content (found_text (map EntityNode (JS.values (entities (memory w)))))), w) /\
  length everything
  = stat_entities (graph_stats (memory w)) + stat_relations (graph_stats (memory w)).
Proof.
  cbv zeta.
  unfold CloudMemoryServer.searchNodes, SimpleMemoryServer.searchNodes, bind, get_memory, ret.
  cbn [JS.toLowerCase].
  rewrite search_relations_filter, !search_entities_filter.
  rewrite !filter_all by (first [apply entity_matches_empty | apply relation_matches_empty]).
  cbn [app]. unfold JS.values. rewrite map_map.
  repeat split.
  unfold graph_stats, JS.keys. cbn [stat_entities stat_relations].
  now rewrite length_app, !length_map.
Qed.

(** X12.  A query that occurs in another one, letter case apart, finds at
    least what the other one finds: every node listed for the longer query
    is listed for the shorter one.  The lists are those that the two loops
    of [searchNodes] build. *)
Theorem shorter_query_finds_more (w : world) (short long : string) :
  JS.substring_of (JS.toLowerCase short) (JS.toLowerCase long) ->
  exists found_short found_long,
    CloudMemoryServer.searchNodes (Some short) w = (Return (found_text found_short), w) /\
    CloudMemoryServer.searchNodes (Some long) w = (Return (found_text found_long), w) /\
    found_short = search_results short (memory w) /\
    found_long = search_results long (memory w) /\
    forall n, In n found_long -> In n found_short.
Proof.
  intros S. exists (search_results short (memory w)), (search_results long (memory w)).
  split; [reflexivity |]. split; [reflexivity |].
  split; [reflexivity |]. split; [reflexivity |].
  intros n. rewrite !In_search_results.
  intros [(k & e & -> & I & M)|(r & -> & I & M)].
  - left. exists k, e. split; [reflexivity |]. split; [assumption |].
    eapply entity_matches_narrow; eassumption.
  - right. exists r. split; [reflexivity |]. split; [assumption |].
    eapply relation_matches_narrow; eassumption.
Qed.

(** The entity [A] of type [T1] is found for [T1], hence for [t]. *)
Lemma shorter_query_finds_more_witness :
  search_results "T1" (memory Examples.world_A) = [EntityNode Examples.entity_A] /\
  In (EntityNode Examples.entity_A) (search_results "t" (memory Examples.world_A)).
Proof.
  split; [reflexivity |].
  destruct (shorter_query_finds_more Examples.world_A "t" "T1")
    as (found_short & found_long & _ & _ & -> & -> & Found).
  - exists "", "1". reflexivity.
  - apply Found. left. reflexivity.
Defined.

(** X13.  What [createEntities] has filed is found: after the call, a search
    for a query that occurs, letter case apart, in the name, the type or an
    observation of an item lists the entity built from that item, provided
    that no later item has the name and that the name can be filed. *)
Theorem created_entity_is_found (E : oracle) (w : world) (items : list EntityItem.t)
    (i : nat) (item : EntityItem.t) (query : string) :
  nth_error items i = Some item ->
  (forall j item', i < j -> nth_error items j = Some item' ->
                   EntityItem.name item' <> EntityItem.name item) ->
  JS.hasOwn (EntityItem.name item) (entities (memory w)) = true \/
  EntityItem.name item <> "__proto__" ->
  JS.substring_of (JS.toLowerCase query) (JS.toLowerCase (EntityItem.name item)) \/
  JS.substring_of (JS.toLowerCase query) (JS.toLowerCase (EntityItem.entityType item)) \/
  (exists observations obs,
     EntityItem.observations item = Some observations /\ In obs observations /\
     JS.substring_of (JS.toLowerCase query) (JS.toLowerCase obs)) ->
  let w' := snd (CloudMemoryServer.createEntities E (Some items) w) in
  exists found,
    CloudMemoryServer.searchNodes (Some query) w' = (Return (found_text found), w') /\
    In (EntityNode (entity_of_item item (now E (clock_reads w + i)))) found.
Proof.
  intros Hi Last Ok Q. cbv zeta.
  exists (search_results query
            (memory (snd (CloudMemoryServer.createEntities E (Some items) w)))).
  split; [reflexivity |].
  rewrite createEntities_run. cbn [snd]. rewrite memory_saved.
  destruct (getOwn_create_decides E items w (EntityItem.name item) Ok)
    as (i' & item' & Hi' & Hk' & Last' & G).
  { exists item. split; [| reflexivity]. eapply nth_error_In. eassumption. }
  assert (i' = i /\ item' = item) as [-> ->].
  { destruct (Nat.lt_trichotomy i i') as [Lt|[Eq|Gt]].
    - exfalso. now apply (Last i' item').
    - subst i'. rewrite Hi in Hi'. injection Hi' as <-. now split.
    - exfalso. now apply (Last' i item). }
  apply In_search_results. left.
  exists (EntityItem.name item), (entity_of_item item (now E (clock_reads w + i))).
  split; [reflexivity |]. split; [now apply getOwn_In |].
  apply entity_matches_iff. cbn [entity_of_item Entity.entityType Entity.observations].
  destruct Q as [Q|[Q|(observations & obs & Eq & I & Q)]].
  - now left.
  - right. now left.
  - right. right. exists obs. rewrite Eq. now split.
Qed.

Lemma created_entity_is_found_witness :
  exists found,
    CloudMemoryServer.searchNodes (Some "C2")
      (snd (CloudMemoryServer.createEntities Examples.calm
              (Some [MoreExamples.item_B; MoreExamples.item_C]) Examples.world_A))
    = (Return (found_text found),
       snd (CloudMemoryServer.createEntities Examples.calm
              (Some [MoreExamples.item_B; MoreExamples.item_C]) Examples.world_A)) /\
    In (EntityNode (entity_of_item MoreExamples.item_C (now Examples.calm 1))) found.
Proof.
  apply (created_entity_is_found Examples.calm Examples.world_A
           [MoreExamples.item_B; MoreExamples.item_C] 1 MoreExamples.item_C "C2").
  - reflexivity.
  - intros j item' Lt H. destruct j as [|[|[|j]]]; [lia | lia | discriminate | discriminate].
  - right. discriminate.
  - right. right. exists ["c1"; "c2"], "c2". split; [reflexivity |].
    split; [simpl; tauto |]. exists "", "". reflexivity.
Defined.

(** X14.  The [required] lists of the tool descriptors are enforced by
    accident only, yet they are enforced: a call of a listed tool that lacks
    a property its descriptor requires is answered with an error text that
    names the tool, and changes nothing. *)
Theorem missing_required_argument (E : oracle) (w : world) (descriptor : JSON.value)
    (prop : string) (args : option arguments) :
  In descriptor (listed CloudHandlers.ListTools) ->
  In prop (required_of descriptor) ->
  holds_argument prop args = false ->
  exists reason,
    CloudMemoryServer.CallTool E (name_of descriptor) args w
    = (Return ("Error executing " ++ name_of descriptor ++ ": " ++ reason), w).
Proof.
  intros D P H. cbn in D.
  destruct D as [<-|[<-|[<-|[<-|[<-|[]]]]]]; cbn in P;
    try (destruct P as [<-|[]]); try (destruct P);
    unfold holds_argument in H; cbn [String.eqb Ascii.eqb Bool.eqb] in H;
    (destruct args as [a|]; [| eexists; reflexivity]).
  - destruct (arg_entities a) eqn:A; [discriminate |].
    eexists. unfold CloudMemoryServer.CallTool, try_catch, bind, CloudMemoryServer.argument.
    cbn. rewrite A. reflexivity.
  - destruct (arg_relations a) eqn:A; [discriminate |].
    eexists. unfold CloudMemoryServer.CallTool, try_catch, bind, CloudMemoryServer.argument.
    cbn. rewrite A. reflexivity.
  - destruct (arg_observations a) eqn:A; [discriminate |].
    eexists. unfold CloudMemoryServer.CallTool, try_catch, bind, CloudMemoryServer.argument.
    cbn. rewrite A. reflexivity.
  - destruct (arg_query a) eqn:A; [discriminate |].
    eexists. unfold CloudMemoryServer.CallTool, try_catch, bind, CloudMemoryServer.argument.
    cbn. rewrite A. reflexivity.
Qed.

Lemma missing_required_argument_witness :
  exists reason,
    CloudMemoryServer.CallTool Examples.calm "search_nodes" (Some no_arguments)
      Examples.world_A
    = (Return ("Error executing search_nodes: " ++ reason), Examples.world_A).
Proof.
  apply (missing_required_argument Examples.calm Examples.world_A
           CloudHandlers.search_nodes "query" (Some no_arguments)).
  - simpl. tauto.
  - simpl. tauto.
  - reflexivity.
Defined.

(** X15.  The tools that are listed are the tools that are dispatched, in
    both classes: a call is answered as an unknown tool exactly when its
    name is not among the names of the descriptors that the class lists.
    The three descriptors of [SimpleMemoryServer] are those that
    [CloudMemoryServer] lists under the same names. *)
Theorem listed_tools_are_dispatched (E : oracle) :
  map name_of (listed CloudHandlers.ListTools) = CloudMemoryServer.tools /\
  map name_of (listed SimpleMain.tools_list) = SimpleMemoryServer.tools /\
  listed SimpleMain.tools_list
  = [ CloudHandlers.create_entities; CloudHandlers.search_nodes;
      CloudHandlers.read_graph ] /\
  (forall name args w,
     In name (map name_of (listed CloudHandlers.ListTools)) <->
     fst (CloudMemoryServer.CallTool E name args w)
     <> Return ("Error executing " ++ name ++ ": Unknown tool: " ++ name)) /\
  (forall name args w,
     In name (map name_of (listed SimpleMain.tools_list)) <->
     fst (SimpleMemoryServer.handleRequest E (call_request name args) w)
     <> Return (Failed ("Unknown tool: " ++ name))).
Proof.
  split; [reflexivity |]. split; [reflexivity |]. split; [reflexivity |].
  change (map name_of (listed CloudHandlers.ListTools)) with CloudMemoryServer.tools.
  change (map name_of (listed SimpleMain.tools_list)) with SimpleMemoryServer.tools.
  split; intros name args w; split.
  - apply CallTool_listed.
  - intros Known. destruct (in_dec string_dec name CloudMemoryServer.tools) as [I|NI];
      [assumption |].
    exfalso. apply Known. now rewrite CallTool_unlisted.
  - apply handleRequest_listed.
  - intros Known. destruct (in_dec string_dec name SimpleMemoryServer.tools) as [I|NI];
      [assumption |].
    exfalso. apply Known. now rewrite handleRequest_unlisted.
Qed.

(** X16.  [ReadResource] serves the one URI that [ListResources] lists and
    no other.  For that URI it returns, without changing anything, the text
    that [saveMemory] writes for the same memory, which parses back to the
    graph; for any other URI it throws an [Error] that names the URI, and no
    [catch] in the server turns that into an answer. *)
Theorem ReadResource_serves_the_snapshot (E : oracle) (w : world) (uri : string) :
  map uri_of (listed CloudHandlers.ListResources) = ["memory://graph"] /\
  (In uri (map uri_of (listed CloudHandlers.ListResources)) ->
   let text := JSON.stringify (graph_to_json (memory w)) in
   CloudHandlers.ReadResource uri w
   = (Return {| CloudHandlers.uri := uri;
                CloudHandlers.mimeType := "application/json";
                CloudHandlers.text := text |}, w) /\
   (writeFile_outcome E (file_writes w) = Written ->
    file (snd (CloudMemoryServer.saveMemory E w)) = Some text) /\
   (well_formed (memory w) ->
    option_map graph_of_json (JSON.parse text) = Some (Some (persisted (memory w))))) /\
  (~ In uri (map uri_of (listed CloudHandlers.ListResources)) ->
   CloudHandlers.ReadResource uri w = (Throw (Error ("Unknown resource: " ++ uri)), w)).
Proof.
  split; [reflexivity |].
  change (map uri_of (listed CloudHandlers.ListResources)) with ["memory://graph"].
  split.
  - intros [<-|[]]. cbv zeta. split; [reflexivity |]. split.
    + intros Ok. rewrite saveMemory_run. cbn [snd]. rewrite file_saved, Ok. reflexivity.
    + intros WF. rewrite parse_stringify by now apply printable_graph.
      cbn [option_map]. now rewrite graph_of_to_json.
  - intros NI. unfold CloudHandlers.ReadResource.
    destruct (String.eqb_spec uri "memory://graph") as [->|Ne]; [| reflexivity].
    exfalso. apply NI. now left.
Qed.

(** X17.  The message callback of [SimpleMemoryServer].  A request of the
    typed shape is answered by exactly one frame, which carries the [id] of
    the request and what [handleRequest] returned; [handleRequest] never
    throws, so the [catch] block is not reached from there.  A text that is
    not JSON gets no frame at all: [JSON.parse] throws, the [catch] block
    reads [request], which is not in scope, and the callback ends in a
    [ReferenceError]; memory and file are untouched. *)
Theorem on_message_replies (E : oracle) (data : string) (w : world) :
  (forall v id r,
     JSON.parse data = Some v -> SimpleMain.request_of_json v = Some (id, r) ->
     exists response w',
       SimpleMemoryServer.handleRequest E r
         (snd (console_log ("Received request: " ++ method r) w))
       = (Return response, w') /\
       SimpleMain.on_message E data w
       = SimpleMain.Replied {| SimpleMain.frame_id := id;
                               SimpleMain.frame_result := response |} w') /\
  (JSON.grammatical data = false ->
   exists w',
     SimpleMain.on_message E data w
     = SimpleMain.Rejected "ReferenceError: request is not defined" w' /\
     memory w' = memory w /\ file w' = file w /\ file_writes w' = file_writes w).
Proof.
  split.
  - intros v id r P Q.
    destruct (handleRequest_returns E r
                (snd (console_log ("Received request: " ++ method r) w)))
      as (response & w' & H).
    exists response, w'. split; [exact H |].
    unfold SimpleMain.on_message. rewrite P, Q. cbv zeta. now rewrite H.
  - intros G. unfold SimpleMain.on_message, SimpleMain.caught.
    rewrite (not_grammatical _ G), G.
    eexists. split; [reflexivity |]. repeat split; reflexivity.
Qed.

Lemma on_message_replies_witness :
  (exists response w',
     SimpleMain.on_message Examples.calm MoreExamples.message Examples.world_A
     = SimpleMain.Replied {| SimpleMain.frame_id := Some (JSON.Num "7");
                             SimpleMain.frame_result := response |} w') /\
  (exists w',
     SimpleMain.on_message Examples.calm "{method: ping}" Examples.world_A
     = SimpleMain.Rejected "ReferenceError: request is not defined" w').
Proof.
  split.
  - destruct (proj1 (on_message_replies Examples.calm MoreExamples.message
                       Examples.world_A)
                (JSON.Obj [ ("id", JSON.Num "7"); ("method", JSON.Str "tools/call");
                            ("params", JSON.Obj [ ("name", JSON.Str "read_graph") ]) ])
                (Some (JSON.Num "7"))
                (call_request "read_graph" None))
      as (response & w' & _ & H).
    + vm_compute. reflexivity.
    + reflexivity.
    + exists response, w'. exact H.
  - destruct (proj2 (on_message_replies Examples.calm "{method: ping}" Examples.world_A))
      as (w' & H & _).
    + vm_compute. reflexivity.
    + exists w'. exact H.
Defined.

(** A request that is JSON and spells the code unit U+0100 is read by the
    engine; the model stops there and does not take it for a text that is
    not JSON. *)
Example on_message_outside :
  SimpleMain.on_message Examples.calm MoreExamples.message_beyond Examples.world_A
  = SimpleMain.Outside.
Proof. reflexivity. Qed.

(** X18.  On the tools that both classes have, the two classes agree: the
    same call leaves the same world, and [SimpleMemoryServer] answers with
    the text of [CloudMemoryServer] as its content, or with the reason that
    [CloudMemoryServer] puts into its error text.  For [search_nodes] this
    holds on a graph without relations, which [SimpleMemoryServer] does not
    search. *)
Theorem simple_agrees_with_cloud (E : oracle) (name : string)
    (args : option arguments) (w : world) :
  In name SimpleMemoryServer.tools ->
  (name = "search_nodes" -> relations (memory w) = []) ->
  snd (SimpleMemoryServer.handleRequest E (call_request name args) w)
  = snd (CloudMemoryServer.CallTool E name args w) /\
  ((exists text,
      fst (CloudMemoryServer.CallTool E name args w) = Return text /\
      fst (SimpleMemoryServer.handleRequest E (call_request name args) w)
      = Return (Content text)) \/
   (exists reason,
      fst (CloudMemoryServer.CallTool E name args w)
      = Return ("Error executing " ++ name ++ ": " ++ reason) /\
      fst (SimpleMemoryServer.handleRequest E (call_request name args) w)
      = Return (Failed reason))).
Proof.
  intros I NoRel. simpl in I.
  destruct I as [<-|[<-|[<-|[]]]];
    unfold SimpleMemoryServer.handleRequest, SimpleMemoryServer.handleToolCall,
      CloudMemoryServer.CallTool, try_catch, bind, CloudMemoryServer.argument, call_request;
    cbn [String.eqb Ascii.eqb Bool.eqb method params call_name call_arguments].
  - destruct args as [a|]; [| split; [reflexivity | right; eexists; split; reflexivity]].
    cbv beta iota delta [ret].
    destruct (arg_entities a) as [items|].
    + rewrite createEntities_run, Simple_createEntities_run.
      split; [reflexivity | left; eexists; split; reflexivity].
    + split; [reflexivity | right; eexists; split; reflexivity].
  - destruct args as [a|]; [| split; [reflexivity | right; eexists; split; reflexivity]].
    cbv beta iota delta [ret].
    destruct (arg_query a) as [q|].
    + unfold CloudMemoryServer.searchNodes, SimpleMemoryServer.searchNodes, bind,
        get_memory, ret.
      rewrite (search_relations_none _ _ _ (NoRel eq_refl)).
      split; [reflexivity | left; eexists; split; reflexivity].
    + split; [reflexivity | right; eexists; split; reflexivity].
  - split; [reflexivity | left; eexists; split; reflexivity].
Qed.

Lemma simple_agrees_with_cloud_witness :
  snd (SimpleMemoryServer.handleRequest Examples.calm
         (call_request "create_entities" (Some Examples.create_A)) Examples.world_A)
  = snd (CloudMemoryServer.CallTool Examples.calm "create_entities"
           (Some Examples.create_A) Examples.world_A).
Proof.
  apply (simple_agrees_with_cloud Examples.calm "create_entities"
           (Some Examples.create_A) Examples.world_A).
  - simpl. tauto.
  - discriminate.
Defined.

(** X19.  The server files every entity under its own name and keeps it
    there.  A graph in which the key of every entity is the [name] of the
    entity stays so through any sequence of tool calls or requests, whether
    they return or fail, and the graph of an instance that started without a
    file is such a graph.  So the key that [searchNodes] matches and the
    [name] that it shows are the same string. *)
Theorem entities_stay_under_their_names (E : oracle) :
  (forall w, CloudMemoryServer.constructor E None = Serving w ->
             keyed_by_name (memory w)) /\
  (forall (w : world) (calls : list (string * option arguments)),
     keyed_by_name (memory w) ->
     keyed_by_name
       (memory (snd (serve (fun call => CloudMemoryServer.CallTool E (fst call) (snd call))
                           calls w)))) /\
  (forall (w : world) (requests : list request),
     keyed_by_name (memory w) ->
     keyed_by_name
       (memory (snd (serve (SimpleMemoryServer.handleRequest E) requests w)))).
Proof.
  split; [| split].
  - intros w [= <-] k e. rewrite startFresh_run. cbn [snd]. unfold started_fresh.
    rewrite memory_saved. discriminate.
  - intros w calls K.
    apply (serve_invariant _ (fun w => keyed_by_name (memory w))); [| assumption].
    intros call w0 K0.
    eapply keyed_effect; [apply DispatchFacts.CallTool_any | assumption].
  - intros w requests K.
    apply (serve_invariant _ (fun w => keyed_by_name (memory w))); [| assumption].
    intros r w0 K0.
    eapply keyed_effect; [apply DispatchFacts.handleRequest_any | assumption].
Qed.

(** A run from a fresh start that creates [C] and [B], overwrites [C] and adds
    observations to [B]. *)
Lemma entities_stay_under_their_names_witness :
  let w' :=
    snd (serve (fun call => CloudMemoryServer.CallTool Examples.calm (fst call) (snd call))
               [ ("create_entities",
                  Some (MoreExamples.create [MoreExamples.item_C; MoreExamples.item_B]));
                 ("create_entities", Some (MoreExamples.create [MoreExamples.item_C]));
                 ("add_observations",
                  Some (Examples.add_to [ObservationItem.make "B" ["b1"]])) ]
               (started_fresh Examples.calm (initial None))) in
  JS.keys (entities (memory w')) = ["C"; "B"] /\ keyed_by_name (memory w').
Proof.
  cbv zeta. split; [reflexivity |].
  destruct (entities_stay_under_their_names Examples.calm) as (Fresh & Calls & _).
  apply Calls. apply Fresh. reflexivity.
Defined.

End Extras.
